(** * libHPTimer: a shallow embedding of the high-precision timer library

    The development follows the two translation units of the library:
    [TimeHardware.cpp] (reading the TSC, the HPET main counter and the OS
    clock) and [HighPerTimer.cpp]/[HighPerTimer.h] (calibration, the
    timestamp value type and the interruptible sleeps).

    Machine integers are mathematical integers with the wrap-around written
    out ([Int64.wrap], [UInt64.wrap]); C++ [double] is Rocq's primitive
    binary64 float, so every floating-point expression of the source is
    evaluated with the very same IEEE-754 operations. *)

From Stdlib Require Import String.
From Stdlib Require Import ZArith List Bool Lia Floats.
Import ListNotations.

Set Warnings "-inexact-float".

Local Open Scope Z_scope.

(** ** Machine integers *)

Module Int64.
Definition modulus : Z := 18446744073709551616.
Definition half_modulus : Z := 9223372036854775808.
Definition max : Z := 9223372036854775807.
Definition min : Z := -9223372036854775808.

(** Two's complement reading of the low 64 bits: what an [int64_t] holds
    after a conversion from a wider or unsigned value, and what signed
    arithmetic leaves on the supported targets when it overflows. *)
Definition wrap (z : Z) : Z := (z + half_modulus) mod modulus - half_modulus.

Definition in_range (z : Z) : Prop := min <= z <= max.

Definition add (a b : Z) : Z := wrap (a + b).
Definition sub (a b : Z) : Z := wrap (a - b).
Definition mul (a b : Z) : Z := wrap (a * b).
Definition neg (a : Z) : Z := wrap (- a).
Definition abs (a : Z) : Z := wrap (Z.abs a).
(** [x >> 63] on a signed 64-bit value: arithmetic shift, [-1] or [0]. *)
Definition sign_bit (a : Z) : bool := negb (Z.shiftr a 63 =? 0).
End Int64.

Module UInt64.
Definition wrap (z : Z) : Z := z mod Int64.modulus.
Definition add (a b : Z) : Z := wrap (a + b).
Definition sub (a b : Z) : Z := wrap (a - b).
Definition mul (a b : Z) : Z := wrap (a * b).
End UInt64.

Module Int32.
Definition wrap (z : Z) : Z := (z + 2147483648) mod 4294967296 - 2147483648.
End Int32.

(** ** C++ [double] *)

Module Double.
(** Integer to [double]: correctly rounded (round to nearest, ties to
    even), as [cvtsi2sd] does. *)
Definition of_Z (z : Z) : float :=
  SF2Prim (binary_normalize prec emax z 0 false).

(** The integral part of a finite [double] (rounding toward zero);
    [None] for infinities and NaN. *)
Definition trunc (f : float) : option Z :=
  match Prim2SF f with
  | S754_zero _ => Some 0
  | S754_finite s m e =>
      let mag := if 0 <=? e then Z.pos m * 2 ^ e else Z.pos m / 2 ^ (- e) in
      Some (if s then - mag else mag)
  | S754_infinity _ => None
  | S754_nan => None
  end.

(** [static_cast<int64_t>(d)]: truncation toward zero.  A value that does
    not fit is undefined behaviour in C++; the model takes what the x86-64
    conversion instruction yields, the "integer indefinite" value
    [0x8000000000000000]. *)
Definition to_int64 (f : float) : Z :=
  match trunc f with
  | Some z => if (Int64.min <=? z) && (z <=? Int64.max) then z else Int64.min
  | None => Int64.min
  end.

(** [static_cast<uint64_t>(d)]: truncation toward zero for values in
    range; out of range the bits of the signed conversion. *)
Definition to_uint64 (f : float) : Z :=
  match trunc f with
  | Some z => if (0 <=? z) && (z <? Int64.modulus) then z
              else UInt64.wrap (to_int64 f)
  | None => UInt64.wrap Int64.min
  end.

(** [a >= b] on doubles (false when either is NaN). *)
Definition geb (a b : float) : bool := PrimFloat.leb b a.
Definition gtb (a b : float) : bool := PrimFloat.ltb b a.
End Double.

(** type savers for big numbers ([HighPerTimer.cpp]) *)
Definition ONE_QUADRILLION : float := 1000000000000000%float.
Definition ONE_BILLION : Z := 1000000000.
Definition ONE_MILLION : Z := 1000000.

(** ** Exceptions *)

Inductive exn : Type :=
| out_of_range (what : string)
| std_exception.

(** The result of a call that may throw. *)
Inductive outcome (A : Type) : Type :=
| Return (a : A)
| Throw (e : exn).
Arguments Return {A} a.
Arguments Throw {A} e.

(** ** TimeHardware.cpp *)

Module TimeHardware.

(** The bytes behind [HpetAdd_ptr]: the 1024 bytes of [/dev/hpet] mapped
    at offset 0, lowest address first. *)
Definition region := list Byte.byte.

Definition byte_at (m : region) (off : nat) : Z :=
  Z.of_N (Byte.to_N (nth off m Byte.x00)).

(** Little-endian load of [n] bytes at byte offset [off], unsigned. *)
Fixpoint load_le (n : nat) (m : region) (off : nat) : Z :=
  match n with
  | O => 0
  | S n' => byte_at m off + 256 * load_le n' m (S off)
  end.

Definition MainCounterOffset : nat := 240.      (* 0x0f0 *)
Definition MainCounterOffsetHigh : nat := 244.  (* 0x0f4 *)
Definition PeriodOffset : nat := 4.             (* 0x004 *)

(** The 64-bit main counter register as the device holds it. *)
Definition main_counter (m : region) : Z := load_le 8 m MainCounterOffset.

(** [HPETTimer::GetHPETTics], the [__x86_64__] branch:
<<
  uint64_t HpetMcounter = * ( reinterpret_cast<int32_t*> ( HpetAdd_ptr + MainCounterOffset ) );
  return HpetMcounter;
>>
    a 4-byte load through an [int32_t] pointer, converted to [uint64_t]
    (sign extension), returned as [int64_t]. *)
Definition GetHPETTics (m : region) : Z :=
  let loaded : Z := Int32.wrap (load_le 4 m MainCounterOffset) in
  let HpetMcounter : Z := UInt64.wrap loaded in
  Int64.wrap HpetMcounter.

(** [HPETTimer::GetHPETTics], the branch for 32-bit targets, on a region
    that does not change between the three loads (the two high halves
    agree at once, so the loop body runs once). *)
Definition GetHPETTics_32bit (m : region) : Z :=
  let Hpet_High_Order := UInt64.wrap (Int32.wrap (load_le 4 m MainCounterOffsetHigh)) in
  let Hpet_Low_Order := UInt64.wrap (Int32.wrap (load_le 4 m MainCounterOffset)) in
  Int64.wrap (Z.lor (UInt64.wrap (Z.shiftl Hpet_High_Order 32)) Hpet_Low_Order).

(** [HPETTimer::GetHPETFrequency]: the 32-bit period field at [0x004]. *)
Definition GetHPETFrequency (m : region) : float :=
  let HpetPeriod := load_le 4 m PeriodOffset in
  PrimFloat.div (Double.of_Z ONE_BILLION) (Double.of_Z HpetPeriod).

Record timespec : Type := { tv_sec : Z; tv_nsec : Z }.

Definition OSTimerFrequency : Z := 1000.

(** [OSTimer::GetOSTimerTics] on the value [clock_gettime(CLOCK_MONOTONIC)]
    delivered. *)
Definition GetOSTimerTics (ts : timespec) : Z :=
  Int64.wrap (UInt64.mul
                (UInt64.add (UInt64.mul (tv_sec ts) ONE_BILLION) (tv_nsec ts))
                (OSTimerFrequency / 1000)).

(** [TSCTimer::CPU_TSC]: [EDX:EAX] after [RDTSC(P)]. *)
Definition CPU_TSC (low32 high32 : Z) : Z :=
  Int64.wrap (Z.lor (UInt64.wrap (Z.shiftl high32 32)) low32).

(** A region of 1024 bytes with the bytes [bs] at offset [off] and zeros
    elsewhere. *)
Definition region_with (off : nat) (bs : list Byte.byte) : region :=
  repeat Byte.x00 off ++ bs ++ repeat Byte.x00 (1024 - off - length bs).

(** *** TSCTimer: identifying the processor *)

(** [TSCTimer::RegsCPUID]: the four registers [cpuid] fills, each a
    [uint32_t]. *)
Record RegsCPUID : Type := { EAXBuf : Z; EBXBuf : Z; ECXBuf : Z; EDXBuf : Z }.

(** The processor as [cpuid] shows it: what the instruction leaves in the
    registers for each input value of [EAX]. *)
Definition Processor : Type := Z -> RegsCPUID.

(** [TSCTimer::ExecuteCPUID ( uint32_t InputEAX )] *)
Definition ExecuteCPUID (cpu : Processor) (InputEAX : Z) : RegsCPUID :=
  cpu (InputEAX mod 4294967296).

(** input eax values specifying which part of information to return *)
Definition EaxForCPUIDSign : Z := 2147483648.  (* 0x80000000 *)
Definition EaxForInvarTSC : Z := 2147483655.   (* 0x80000007 *)
Definition EaxForRDTSCP : Z := 2147483649.     (* 0x80000001 *)
Definition EaxForBrand : Z := 2147483650.      (* 0x80000002 *)
Definition EaxForVendor : Z := 0.

Definition CentaurVendor : list Byte.byte := list_byte_of_string "CentaurHauls".
Definition IntelVendor : list Byte.byte := list_byte_of_string "GenuineIntel".

(** The static data members of [class TSCTimer]. *)
Record TSCStatics : Type := mkTSCStatics {
  BrandString : list Byte.byte;    (* char[48] *)
  VendorString : list Byte.byte;   (* char[12] *)
  HasRDTSCPinst : bool;
  HasInvariantTSC : bool;
  HasConstantTSC : bool
}.

Definition set_BrandString (v : list Byte.byte) (s : TSCStatics) : TSCStatics :=
  mkTSCStatics v (VendorString s) (HasRDTSCPinst s) (HasInvariantTSC s) (HasConstantTSC s).
Definition set_VendorString (v : list Byte.byte) (s : TSCStatics) : TSCStatics :=
  mkTSCStatics (BrandString s) v (HasRDTSCPinst s) (HasInvariantTSC s) (HasConstantTSC s).
Definition set_HasRDTSCPinst (v : bool) (s : TSCStatics) : TSCStatics :=
  mkTSCStatics (BrandString s) (VendorString s) v (HasInvariantTSC s) (HasConstantTSC s).
Definition set_HasInvariantTSC (v : bool) (s : TSCStatics) : TSCStatics :=
  mkTSCStatics (BrandString s) (VendorString s) (HasRDTSCPinst s) v (HasConstantTSC s).
Definition set_HasConstantTSC (v : bool) (s : TSCStatics) : TSCStatics :=
  mkTSCStatics (BrandString s) (VendorString s) (HasRDTSCPinst s) (HasInvariantTSC s) v.

(** The [n] bytes an unsigned value occupies in memory, lowest first. *)
Definition byte_of_Z (v : Z) : Byte.byte :=
  match Byte.of_N (Z.to_N (v mod 256)) with
  | Some b => b
  | None => Byte.x00
  end.

Fixpoint store_le (n : nat) (v : Z) : list Byte.byte :=
  match n with
  | O => []
  | S n' => byte_of_Z v :: store_le n' (v / 256)
  end.

(** [memcpy ( dst + off, src, length src )] *)
Definition memcpy (dst : list Byte.byte) (off : nat) (src : list Byte.byte)
  : list Byte.byte :=
  firstn off dst ++ src ++ skipn (off + length src) dst.

(** [!memcmp ( a, b, n )] *)
Fixpoint bytes_eqb (a b : list Byte.byte) : bool :=
  match a, b with
  | [], [] => true
  | x :: a', y :: b' => Byte.eqb x y && bytes_eqb a' b'
  | _, _ => false
  end.

Definition memcmp_equal (a b : list Byte.byte) (n : nat) : bool :=
  bytes_eqb (firstn n a) (firstn n b).

(** [TSCTimer::GetVendorID]: the vendor string lies in [EBX], [EDX], [ECX]. *)
Definition GetVendorID (cpu : Processor) (s : TSCStatics) : TSCStatics :=
  let VendorString := repeat Byte.x00 12 in
  let RegsCPUIDoutput := ExecuteCPUID cpu EaxForVendor in
  let VendorString := memcpy VendorString 0 (store_le 4 (EBXBuf RegsCPUIDoutput)) in
  let VendorString := memcpy VendorString 4 (store_le 4 (EDXBuf RegsCPUIDoutput)) in
  let VendorString := memcpy VendorString 8 (store_le 4 (ECXBuf RegsCPUIDoutput)) in
  set_VendorString VendorString s.

(** [TSCTimer::GetCPUBrand]: three leaves of 16 bytes each, the registers
    in the order of the structure. *)
Definition GetCPUBrand (cpu : Processor) (s : TSCStatics) : TSCStatics :=
  let BrandString :=
    fold_left
      (fun BrandString i =>
         let RegsCPUIDoutput := ExecuteCPUID cpu (EaxForBrand + Z.of_nat i) in
         memcpy BrandString (i * 16)
                (store_le 4 (EAXBuf RegsCPUIDoutput) ++ store_le 4 (EBXBuf RegsCPUIDoutput)
                 ++ store_le 4 (ECXBuf RegsCPUIDoutput)
                 ++ store_le 4 (EDXBuf RegsCPUIDoutput)))
      (seq 0 3) (repeat Byte.x00 48) in
  set_BrandString BrandString s.

(** The bit fields of the processor signature ([struct SignCPUID]), lowest
    bits first. *)
Record SignCPUID : Type := {
  Stepping : Z;           (* : 4 *)
  Model : Z;              (* : 4 *)
  FamilyID : Z;           (* : 4 *)
  ProcessorType : Z;      (* Type : 2 *)
  Reserved1 : Z;          (* : 2 *)
  ExtendedModel : Z;      (* : 4 *)
  ExtendedFamilyID : Z;   (* : 8 *)
  Reserved2 : Z           (* : 4 *)
}.

Definition bit_field (v : Z) (first width : Z) : Z :=
  Z.land (Z.shiftr v first) (Z.ones width).

Definition SignCPUID_of (eax : Z) : SignCPUID :=
  {| Stepping := bit_field eax 0 4;
     Model := bit_field eax 4 4;
     FamilyID := bit_field eax 8 4;
     ProcessorType := bit_field eax 12 2;
     Reserved1 := bit_field eax 14 2;
     ExtendedModel := bit_field eax 16 4;
     ExtendedFamilyID := bit_field eax 20 8;
     Reserved2 := bit_field eax 28 4 |}.

(** [TSCTimer::InitTSCTimer] (x86 build): its result and the statics as it
    leaves them. *)
Definition InitTSCTimer (cpu : Processor) (s : TSCStatics) : bool * TSCStatics :=
  let RegsCPUIDoutput := ExecuteCPUID cpu EaxForCPUIDSign in
  let s :=
    if EAXBuf RegsCPUIDoutput <? EaxForInvarTSC
    then set_HasInvariantTSC false s   (* invariant TSC can't be tested *)
    else s in
  let s := GetVendorID cpu s in
  let s := GetCPUBrand cpu s in
  let RegsCPUIDoutput := ExecuteCPUID cpu EaxForRDTSCP in
  let s :=
    if negb (Z.land (Z.shiftr (EDXBuf RegsCPUIDoutput) 27) 1 =? 0)
    then set_HasRDTSCPinst true s
    else set_HasRDTSCPinst false s in
  let RegsCPUIDoutput := ExecuteCPUID cpu 1 in
  let SignCPUIDoutput := SignCPUID_of (EAXBuf RegsCPUIDoutput) in
  let family := FamilyID SignCPUIDoutput + ExtendedFamilyID SignCPUIDoutput in
  let model := Z.lor (Z.shiftl (ExtendedModel SignCPUIDoutput) 4) (Model SignCPUIDoutput) in
  let constant := (true, set_HasConstantTSC true (set_HasInvariantTSC false s)) in
  let neither := (false, set_HasConstantTSC false (set_HasInvariantTSC false s)) in
  let RegsCPUIDoutput := ExecuteCPUID cpu EaxForInvarTSC in
  if negb (Z.land (Z.shiftr (EDXBuf RegsCPUIDoutput) 8) 1 =? 0) then
    (true, set_HasConstantTSC true (set_HasInvariantTSC true s))
  else if memcmp_equal (VendorString s) IntelVendor 12 then
    if (family =? 15) && (model >=? 3) then constant
    else if (family =? 6) && (model >=? 14) then constant
    else neither
  else if memcmp_equal (VendorString s) CentaurVendor 12 then
    if (family =? 6) && (model >=? 15) then constant
    else neither
  else neither.

(** *** HPETTimer: opening and mapping the device *)

(** The values of [errno] the code distinguishes. *)
Inductive Errno : Type :=
| EACCES | EFAULT | ENOENT | EMFILE | EBUSY | EAGAIN | EBADF | ENODEV | ENOMEM
| Eother.

(** reasons for hpet unavailability *)
Inductive HPETFail : Type :=
| ACCESS | FAULT | NOENT | MFILE | AGAIN | BUSY | BADF | NODEV | NOMEM | MC32BIT
| UNKNOWN.

(** What the two system calls of [InitHPETTimer] answer: the descriptor
    [::open] returns (negative on failure), the mapping [mmap] returns
    ([None] for [MAP_FAILED]), and [errno] after each. *)
Record HPETDevice : Type := {
  open_result : Z;
  open_errno : Errno;
  mmap_result : option region;
  mmap_errno : Errno
}.

(** The system calls made on the descriptor of [/dev/hpet], in order. *)
Inductive Syscall : Type :=
| SysOpen (fd : Z)
| SysMmap (fd : Z)
| SysClose (fd : Z).

(** The static data members of [class HPETTimer] ([None] stands for a
    pointer that maps nothing: null or [MAP_FAILED]).  [HpetPeriod] is
    written and read only inside [GetHPETFrequency], where it is a local
    value. *)
Record HPETStatics : Type := mkHPETStatics {
  HPETFailReason : HPETFail;
  HpetFd : Z;
  HpetAdd_ptr : option region
}.

Definition set_HPETFailReason (v : HPETFail) (s : HPETStatics) : HPETStatics :=
  mkHPETStatics v (HpetFd s) (HpetAdd_ptr s).
Definition set_HpetFd (v : Z) (s : HPETStatics) : HPETStatics :=
  mkHPETStatics (HPETFailReason s) v (HpetAdd_ptr s).
Definition set_HpetAdd_ptr (v : option region) (s : HPETStatics) : HPETStatics :=
  mkHPETStatics (HPETFailReason s) (HpetFd s) v.

(** The test of the counter size:
<<
  uint64_t HpetMcounterSize =  * ( ( int64_t * ) ( HPETTimer::HpetAdd_ptr ) ) >> 13;
  if ( ! HpetMcounterSize ) ...
>> *)
Definition HpetMcounterSize (m : region) : Z :=
  UInt64.wrap (Z.shiftr (Int64.wrap (load_le 8 m 0)) 13).

(** [HPETTimer::InitHPETTimer]: its result, the statics and the system
    calls it made. *)
Definition InitHPETTimer (dev : HPETDevice) (s : HPETStatics)
  : bool * HPETStatics * list Syscall :=
  let s := set_HpetFd (open_result dev) s in
  if HpetFd s <? 0 then
    let reason :=
      match open_errno dev with
      | EACCES => ACCESS
      | EFAULT => FAULT
      | ENOENT => NOENT
      | EMFILE => MFILE
      | EBUSY => BUSY
      | _ => UNKNOWN
      end in
    (false, set_HPETFailReason reason s, [SysOpen (HpetFd s)])
  else
    let s := set_HpetAdd_ptr (mmap_result dev) s in
    match HpetAdd_ptr s with
    | None =>
        let reason :=
          match mmap_errno dev with
          | EACCES => ACCESS
          | EAGAIN => AGAIN
          | EBADF => BADF
          | ENODEV => NODEV
          | ENOMEM => NOMEM
          | _ => UNKNOWN
          end in
        (false, set_HPETFailReason reason s,
         [SysOpen (HpetFd s); SysMmap (HpetFd s); SysClose (HpetFd s)])
    | Some m =>
        if HpetMcounterSize m =? 0
        then (false, set_HPETFailReason MC32BIT s, [SysOpen (HpetFd s); SysMmap (HpetFd s)])
        else (true, s, [SysOpen (HpetFd s); SysMmap (HpetFd s)])
    end.

End TimeHardware.

(** ** HighPerTimer.h / HighPerTimer.cpp: the timestamp value *)

Module HPTimer.
Import TimeHardware.

(** source of timer: TSC Timer, HPET Timer or the timer provided by the OS *)
Inductive TimeSource : Type := TSC | HPET | OS.

Definition TimeSource_eqb (a b : TimeSource) : bool :=
  match a, b with
  | TSC, TSC | HPET, HPET | OS, OS => true
  | _, _ => false
  end.

(** The data members of [class HighPerTimer]. *)
Record HighPerTimer : Type := mkHighPerTimer {
  mSeconds : Z;          (* mutable int64_t *)
  mNSeconds : Z;         (* mutable int64_t *)
  mSign : bool;          (* mutable bool, true means negative *)
  mHPTics : Z;           (* int64_t, the main tics counter *)
  mNormalized : bool;    (* mutable bool *)
  mInterrupted : bool;   (* mutable volatile bool *)
  mCancelled : bool      (* mutable volatile bool *)
}.

Definition set_mSeconds (v : Z) (t : HighPerTimer) : HighPerTimer :=
  mkHighPerTimer v (mNSeconds t) (mSign t) (mHPTics t) (mNormalized t)
                 (mInterrupted t) (mCancelled t).
Definition set_mNSeconds (v : Z) (t : HighPerTimer) : HighPerTimer :=
  mkHighPerTimer (mSeconds t) v (mSign t) (mHPTics t) (mNormalized t)
                 (mInterrupted t) (mCancelled t).
Definition set_mSign (v : bool) (t : HighPerTimer) : HighPerTimer :=
  mkHighPerTimer (mSeconds t) (mNSeconds t) v (mHPTics t) (mNormalized t)
                 (mInterrupted t) (mCancelled t).
Definition set_mHPTics (v : Z) (t : HighPerTimer) : HighPerTimer :=
  mkHighPerTimer (mSeconds t) (mNSeconds t) (mSign t) v (mNormalized t)
                 (mInterrupted t) (mCancelled t).
Definition set_mNormalized (v : bool) (t : HighPerTimer) : HighPerTimer :=
  mkHighPerTimer (mSeconds t) (mNSeconds t) (mSign t) (mHPTics t) v
                 (mInterrupted t) (mCancelled t).
Definition set_mInterrupted (v : bool) (t : HighPerTimer) : HighPerTimer :=
  mkHighPerTimer (mSeconds t) (mNSeconds t) (mSign t) (mHPTics t)
                 (mNormalized t) v (mCancelled t).
Definition set_mCancelled (v : bool) (t : HighPerTimer) : HighPerTimer :=
  mkHighPerTimer (mSeconds t) (mNSeconds t) (mSign t) (mHPTics t)
                 (mNormalized t) (mInterrupted t) v.

(** The static data members of [class HighPerTimer] together with the
    file-level counter [InitFreqAttempt]. *)
Record Statics : Type := mkStatics {
  HPTimer_MAX : HighPerTimer;
  HPTimer_MIN : HighPerTimer;
  HPTimerSource : TimeSource;
  TicsPerUsec : Z;
  NsecPerTic : float;
  UnixZeroShift : Z;
  HPJiffies : float;
  InitFreqAttempt : Z
}.

Definition set_HPTimer_MAX (v : HighPerTimer) (c : Statics) : Statics :=
  mkStatics v (HPTimer_MIN c) (HPTimerSource c) (TicsPerUsec c) (NsecPerTic c)
            (UnixZeroShift c) (HPJiffies c) (InitFreqAttempt c).
Definition set_HPTimer_MIN (v : HighPerTimer) (c : Statics) : Statics :=
  mkStatics (HPTimer_MAX c) v (HPTimerSource c) (TicsPerUsec c) (NsecPerTic c)
            (UnixZeroShift c) (HPJiffies c) (InitFreqAttempt c).

(** accessor to the HighPerTimer counter *)
Definition HPTics (t : HighPerTimer) : Z := mHPTics t.

(** [Negative()] and [IsNil()] *)
Definition Negative (t : HighPerTimer) : bool := mHPTics t <? 0.
Definition IsNil (t : HighPerTimer) : bool := mHPTics t =? 0.

(** [HighPerTimer::Normalize]: derive the cached members from [mHPTics],
    once.
<<
  mSign =  mHPTics >> 63;
  int64_t toNSecs ( static_cast<int64_t> ( mHPTics * HighPerTimer::NsecPerTic ) );
  if ( toNSecs >> 63 ) toNSecs = std::abs ( toNSecs );
  mSeconds = toNSecs / ONE_BILLION;   // ONE_BILLION is uint64_t
  mNSeconds = toNSecs % ONE_BILLION;
>> *)
Definition toNSecs (c : Statics) (tics : Z) : Z :=
  Double.to_int64 (PrimFloat.mul (Double.of_Z tics) (NsecPerTic c)).

Definition Normalize (c : Statics) (t : HighPerTimer) : HighPerTimer :=
  if mNormalized t then t
  else
    let sign := Int64.sign_bit (mHPTics t) in
    let n := toNSecs c (mHPTics t) in
    let n := if Int64.sign_bit n then Int64.abs n else n in
    let secs := Int64.wrap (UInt64.wrap n / ONE_BILLION) in
    let nsecs := Int64.wrap (UInt64.wrap n mod ONE_BILLION) in
    set_mNormalized true (set_mNSeconds nsecs (set_mSeconds secs (set_mSign sign t))).

(** The accessors normalize first and return [uint64_t].  They are called
    on [const] objects and write the cache through [mutable]; the value
    returned is the one modelled here. *)
Definition Seconds (c : Statics) (t : HighPerTimer) : Z :=
  UInt64.wrap (mSeconds (Normalize c t)).
Definition NSeconds (c : Statics) (t : HighPerTimer) : Z :=
  UInt64.wrap (mNSeconds (Normalize c t)).
Definition USeconds (c : Statics) (t : HighPerTimer) : Z :=
  UInt64.wrap (Z.quot (mNSeconds (Normalize c t)) 1000).

(** The unsigned expression [s * ONE_BILLION + ns]. *)
Definition nsec_total (s ns : Z) : Z :=
  UInt64.add (UInt64.mul s ONE_BILLION) ns.

(** [HPTimer_MAX.Seconds() * ONE_BILLION + HPTimer_MAX.NSeconds()] *)
Definition max_total (c : Statics) : Z :=
  nsec_total (Seconds c (HPTimer_MAX c)) (NSeconds c (HPTimer_MAX c)).

(** [static_cast<int64_t>( total / ( NsecPerTic + ( 1/ONE_QUADRILLION ) ) )] *)
Definition tics_of_total (c : Statics) (total : Z) : Z :=
  Double.to_int64
    (PrimFloat.div (Double.of_Z total)
                   (PrimFloat.add (NsecPerTic c) (PrimFloat.div 1 ONE_QUADRILLION))).

Definition illegal_init : exn :=
  out_of_range "illegal init Parameters of HighPerTimer".
Definition overflow : exn := out_of_range "HPTimer overflow".

(** A constructor runs on storage whose bytes are whatever they were:
    [raw] is that storage, and members the constructor does not
    initialize keep their [raw] value. *)

(** [HighPerTimer::HighPerTimer()] *)
Definition HighPerTimer_default (raw : HighPerTimer) : HighPerTimer :=
  set_mNormalized false (set_mHPTics 0 raw).

(** [HighPerTimer::HighPerTimer ( int64_t Seconds, int64_t NSeconds, bool Sign )] *)
Definition HighPerTimer_sns (c : Statics) (raw : HighPerTimer)
           (Seconds NSeconds : Z) (Sign : bool) : outcome HighPerTimer :=
  let this := set_mNormalized true (set_mSign Sign raw) in
  if ((Seconds <? 0) || (NSeconds <? 0)) && Bool.eqb true Sign then
    Throw illegal_init
  else if (NSeconds <? 0) && negb (Seconds =? 0) then
    Throw illegal_init
  else
    (* bring ints to positive values *)
    let '(Seconds, this) :=
      if Seconds <? 0 then (Int64.mul Seconds (-1), set_mSign true this)
      else (Seconds, this) in
    let '(NSeconds, this) :=
      if NSeconds <? 0 then (Int64.mul NSeconds (-1), set_mSign true this)
      else (NSeconds, this) in
    let this :=
      set_mSeconds
        (Int64.wrap (UInt64.add Seconds (UInt64.wrap NSeconds / ONE_BILLION)))
        this in
    if 0 >? mSeconds this then Throw overflow
    else
      let this :=
        set_mNSeconds (Int64.wrap (UInt64.wrap NSeconds mod ONE_BILLION)) this in
      if nsec_total (mSeconds this) (mNSeconds this) >? max_total c then
        Throw overflow
      else if mSign this then
        Return (set_mHPTics
                  (Int64.neg (tics_of_total c (nsec_total (mSeconds this) (mNSeconds this))))
                  this)
      else
        Return (set_mHPTics
                  (tics_of_total c (nsec_total (mSeconds this) (mNSeconds this)))
                  this).

(** [HighPerTimer::HighPerTimer ( int64_t HPTics, bool Shift )] *)
Definition HighPerTimer_tics (c : Statics) (raw : HighPerTimer)
           (HPTics_ : Z) (Shift : bool) : outcome HighPerTimer :=
  let this := set_mNormalized false (set_mHPTics HPTics_ raw) in
  let shifted : outcome HighPerTimer :=
    if Shift then
      if (Int64.sub (HPTics (HPTimer_MAX c)) (UnixZeroShift c) >=? mHPTics this)
         && (Int64.add (HPTics (HPTimer_MIN c)) (UnixZeroShift c) <=? mHPTics this)
      then Return (set_mHPTics (Int64.add (mHPTics this) (UnixZeroShift c)) this)
      else Throw overflow
    else Return this in
  match shifted with
  | Throw e => Throw e
  | Return this =>
      if (mHPTics this >? HPTics (HPTimer_MAX c))
         || (mHPTics this <? HPTics (HPTimer_MIN c))
      then Throw overflow
      else Return this
  end.

(** [HighPerTimer::HighPerTimer ( const timespec & TS )] *)
Definition HighPerTimer_timespec (c : Statics) (raw : HighPerTimer)
           (TS : timespec) : outcome HighPerTimer :=
  let this :=
    set_mNormalized true
      (set_mSign false (set_mNSeconds (tv_nsec TS) (set_mSeconds (tv_sec TS) raw))) in
  if nsec_total (mSeconds this) (mNSeconds this) >? max_total c then Throw overflow
  else Return (set_mHPTics
                 (tics_of_total c (nsec_total (mSeconds this) (mNSeconds this)))
                 this).

(** copy and move constructors: lazy, only the tics are taken over *)
Definition HighPerTimer_copy (raw Timer : HighPerTimer) : HighPerTimer :=
  set_mNormalized false (set_mHPTics (mHPTics Timer) raw).

(** [HighPerTimer::Nil] *)
Definition Nil (c : Statics) (raw : HighPerTimer) : outcome HighPerTimer :=
  HighPerTimer_tics c raw 0 false.

(** A member function that changes [*this] and may throw: its outcome
    and the receiver as the call leaves it (also when it throws). *)
Definition mutation : Type := (outcome unit * HighPerTimer)%type.

(** [HighPerTimer::SetTics]
<<
  if ( ( HPTics <= HPTimer_MAX.HPTics() ) || ( HPTics >= HPTimer_MAX.HPTics() ) )
      mHPTics = HPTics;
  else
      throw  std::out_of_range ( "HPTimer overflow" );
  mNormalized = false;
>> *)
Definition SetTics (c : Statics) (this : HighPerTimer) (HPTics_ : Z) : mutation :=
  if (HPTics_ <=? HPTics (HPTimer_MAX c)) || (HPTics_ >=? HPTics (HPTimer_MAX c))
  then (Return tt, set_mNormalized false (set_mHPTics HPTics_ this))
  else (Throw overflow, this).

(** [HighPerTimer::SetTimer ( uint64_t Seconds, uint64_t NSeconds, bool Sign )] *)
Definition SetTimer (c : Statics) (this : HighPerTimer)
           (Seconds_ NSeconds_ : Z) (Sign : bool) : mutation :=
  let this :=
    set_mSign Sign
      (set_mNSeconds (Int64.wrap NSeconds_) (set_mSeconds (Int64.wrap Seconds_) this)) in
  if nsec_total (mSeconds this) (mNSeconds this) >? max_total c then
    (Throw overflow, this)
  else
    let n := tics_of_total c (nsec_total (mSeconds this) (mNSeconds this)) in
    let this := set_mHPTics (if mSign this then Int64.neg n else n) this in
    (Return tt, set_mNormalized true this).

(** [HighPerTimer::InvertSign]
<<
  mSign = !mSign;
  if ( mHPTics != std::numeric_limits<int64_t>::min() )
      mHPTics *= -1;
  else
      throw  std::out_of_range ( "HPTimer overflow" );
  return *this;
>> *)
Definition InvertSign (this : HighPerTimer) : mutation :=
  let this := set_mSign (negb (mSign this)) this in
  if negb (mHPTics this =? Int64.min) then
    (Return tt, set_mHPTics (Int64.mul (mHPTics this) (-1)) this)
  else (Throw overflow, this).

(** [HighPerTimer::operator+= ( const HighPerTimer & Timer )] *)
Definition operator_plus_assign (c : Statics) (this Timer : HighPerTimer) : mutation :=
  if (HPTics Timer >? 0)
     && (Int64.sub (HPTics (HPTimer_MAX c)) (HPTics Timer) <=? mHPTics this)
  then (Throw overflow, this)
  else if (HPTics Timer <? 0)
          && (Int64.sub (HPTics (HPTimer_MIN c)) (HPTics Timer) >=? mHPTics this)
  then (Throw overflow, this)
  else (Return tt,
        set_mNormalized false (set_mHPTics (Int64.add (mHPTics this) (HPTics Timer)) this)).

(** [TicAdd ( const uint64_t Tics )] (inline, [HighPerTimer.h]) *)
Definition TicAdd (c : Statics) (this : HighPerTimer) (Tics : Z) : mutation :=
  if Int64.wrap (UInt64.sub (HPTics (HPTimer_MAX c)) Tics) >=? mHPTics this
  then (Return tt,
        set_mNormalized false
          (set_mHPTics (Int64.wrap (UInt64.add (mHPTics this) Tics)) this))
  else (Throw overflow, this).

(** [operator+ ( const HighPerTimer & Timer1, const HighPerTimer & Timer2 )]
    (inline, [HighPerTimer.h]); [raw] is the storage of the returned
    temporary.
<<
  if ( ( Timer2.HPTics() > 0 ) && ( ( HPTimer_MAX.HPTics() - ( Timer2.HPTics() ) ) <= ( Timer1.HPTics() ) ) )
      throw  std::out_of_range ( "HPTimer overflow" );
  if ( ( Timer2.HPTics() < 0 ) && ( ( HPTimer_MIN.HPTics() - ( Timer2.HPTics() ) ) >= ( Timer1.HPTics() ) ) )
      throw  std::out_of_range ( "HPTimer overflow" );
  return HighPerTimer { ( Timer1.HPTics() + Timer2.HPTics() ), false };
>> *)
Definition operator_plus (c : Statics) (raw : HighPerTimer)
           (Timer1 Timer2 : HighPerTimer) : outcome HighPerTimer :=
  if (HPTics Timer2 >? 0)
     && (Int64.sub (HPTics (HPTimer_MAX c)) (HPTics Timer2) <=? HPTics Timer1)
  then Throw overflow
  else if (HPTics Timer2 <? 0)
          && (Int64.sub (HPTics (HPTimer_MIN c)) (HPTics Timer2) >=? HPTics Timer1)
  then Throw overflow
  else HighPerTimer_tics c raw (Int64.add (HPTics Timer1) (HPTics Timer2)) false.

(** [HighPerTimer::InitMaxMinHPTimer]: the bounds are set through
    [SetTics] on the two static objects. *)
Definition InitMaxMinHPTimer (c : Statics) : outcome unit * Statics :=
  let '(hi, lo) :=
    if TimeSource_eqb HPET (HPTimerSource c)
    then (Z.quot Int64.max 120, Z.quot Int64.min 120)
    else (Int64.max, Int64.min) in
  match SetTics c (HPTimer_MAX c) hi with
  | (Throw e, mx) => (Throw e, set_HPTimer_MAX mx c)
  | (Return _, mx) =>
      let c := set_HPTimer_MAX mx c in
      match SetTics c (HPTimer_MIN c) lo with
      | (Throw e, mn) => (Throw e, set_HPTimer_MIN mn c)
      | (Return _, mn) => (Return tt, set_HPTimer_MIN mn c)
      end
  end.

(** ** The time sources as a running thread finds them *)

(** What the three counters hold at one instant. *)
Record Hardware : Type := {
  tsc_low32 : Z;          (* EAX after RDTSC(P) *)
  tsc_high32 : Z;         (* EDX after RDTSC(P) *)
  hpet : region;          (* the mapped HPET registers *)
  monotonic : timespec    (* clock_gettime ( CLOCK_MONOTONIC ) *)
}.

(** [HighPerTimer::GetTimerTics] on one reading of the hardware. *)
Definition GetTimerTics_on (c : Statics) (hw : Hardware) : Z :=
  if TimeSource_eqb TSC (HPTimerSource c) then CPU_TSC (tsc_low32 hw) (tsc_high32 hw)
  else if TimeSource_eqb HPET (HPTimerSource c) then GetHPETTics (hpet hw)
  else GetOSTimerTics (monotonic hw).

(** ** The timestamp value: more of its operations *)

(** The comparison operators: only the tics are compared. *)
Definition operator_eq (this Timer : HighPerTimer) : bool :=
  if mHPTics this =? mHPTics Timer then true else false.
Definition operator_ge (this Timer : HighPerTimer) : bool :=
  mHPTics this >=? mHPTics Timer.
Definition operator_le (this Timer : HighPerTimer) : bool :=
  mHPTics this <=? mHPTics Timer.
Definition operator_lt (this Timer : HighPerTimer) : bool :=
  mHPTics this <? mHPTics Timer.
Definition operator_gt (this Timer : HighPerTimer) : bool :=
  mHPTics this >? mHPTics Timer.
Definition operator_ne (this Timer : HighPerTimer) : bool :=
  negb (mHPTics this =? mHPTics Timer).

(** copy and move assignment: lazy, only the tics are taken over *)
Definition operator_assign (this Timer : HighPerTimer) : HighPerTimer :=
  set_mNormalized false (set_mHPTics (mHPTics Timer) this).

(** [HighPerTimer::operator-= ( const HighPerTimer & Timer )] *)
Definition operator_minus_assign (c : Statics) (this Timer : HighPerTimer) : mutation :=
  if (HPTics Timer >? 0)
     && (Int64.add (HPTics (HPTimer_MIN c)) (HPTics Timer) >=? mHPTics this)
  then (Throw overflow, this)
  else if (HPTics Timer <? 0)
          && (Int64.add (HPTics (HPTimer_MAX c)) (HPTics Timer) <=? mHPTics this)
  then (Throw overflow, this)
  else (Return tt,
        set_mNormalized false (set_mHPTics (Int64.sub (mHPTics this) (mHPTics Timer)) this)).

(** [TicSub ( const uint64_t Tics )] (inline, [HighPerTimer.h]) *)
Definition TicSub (c : Statics) (this : HighPerTimer) (Tics : Z) : mutation :=
  if Int64.wrap (UInt64.add (HPTics (HPTimer_MIN c)) Tics) <=? mHPTics this
  then (Return tt,
        set_mNormalized false
          (set_mHPTics (Int64.wrap (UInt64.sub (mHPTics this) Tics)) this))
  else (Throw overflow, this).

(** [operator- ( const HighPerTimer & Timer1, const HighPerTimer & Timer2 )]
    (inline, [HighPerTimer.h]) *)
Definition operator_minus (c : Statics) (raw : HighPerTimer)
           (Timer1 Timer2 : HighPerTimer) : outcome HighPerTimer :=
  if (HPTics Timer2 >? 0)
     && (Int64.add (HPTics (HPTimer_MIN c)) (HPTics Timer2) >=? HPTics Timer1)
  then Throw overflow
  else if (HPTics Timer2 <? 0)
          && (Int64.add (HPTics (HPTimer_MAX c)) (HPTics Timer2) <=? HPTics Timer1)
  then Throw overflow
  else HighPerTimer_tics c raw (Int64.sub (HPTics Timer1) (HPTics Timer2)) false.

(** The number of tics [static_cast<int64_t> ( Seconds / NsecPerTic * ONE_BILLION )]
    stands for, [Seconds] being a [double]. *)
Definition tics_of_seconds (c : Statics) (Seconds_ : float) : Z :=
  Double.to_int64
    (PrimFloat.mul (PrimFloat.div Seconds_ (NsecPerTic c)) (Double.of_Z ONE_BILLION)).

(** [operator+ ( const HighPerTimer & HPTimer, const uint64_t SecOffset )] *)
Definition operator_plus_seconds (c : Statics) (raw : HighPerTimer)
           (HPTimer : HighPerTimer) (SecOffset : Z) : outcome HighPerTimer :=
  let off := tics_of_seconds c (Double.of_Z SecOffset) in
  if Int64.sub (HPTics (HPTimer_MAX c)) off >=? HPTics HPTimer
  then HighPerTimer_tics c raw (Int64.add (HPTics HPTimer) off) false
  else Throw overflow.

(** [operator- ( const HighPerTimer & HPTimer, const uint64_t SecOffset )] *)
Definition operator_minus_seconds (c : Statics) (raw : HighPerTimer)
           (HPTimer : HighPerTimer) (SecOffset : Z) : outcome HighPerTimer :=
  let off := tics_of_seconds c (Double.of_Z SecOffset) in
  if Int64.add (HPTics (HPTimer_MIN c)) off <=? HPTics HPTimer
  then HighPerTimer_tics c raw (Int64.sub (HPTics HPTimer) off) false
  else Throw overflow.

(** [HighPerTimer::SetNow()] and [HighPerTimer::Now ( HighPerTimer & HPTimer )]
    on one reading of the hardware: both store
    [GetTimerTics() + UnixZeroShift] unchecked. *)
Definition SetNow_on (c : Statics) (hw : Hardware) (this : HighPerTimer) : HighPerTimer :=
  set_mNormalized false
    (set_mHPTics (Int64.add (GetTimerTics_on c hw) (UnixZeroShift c)) this).

Definition Now_into_on (c : Statics) (hw : Hardware) (HPTimer : HighPerTimer)
  : HighPerTimer :=
  set_mHPTics (Int64.add (GetTimerTics_on c hw) (UnixZeroShift c))
    (set_mNormalized false HPTimer).

(** [struct timeval] *)
Module Timeval.
Record timeval : Type := { tv_sec : Z; tv_usec : Z }.
End Timeval.

(** [HighPerTimer::SetTimer ( const timeval TV )] *)
Definition SetTimer_timeval (c : Statics) (this : HighPerTimer) (TV : Timeval.timeval) : mutation :=
  SetTimer c this (UInt64.wrap (Timeval.tv_sec TV))
           (UInt64.wrap (Int64.mul (Timeval.tv_usec TV) 1000)) false.

(** [HighPerTimer::SetTimer ( const timespec TS )] *)
Definition SetTimer_timespec (c : Statics) (this : HighPerTimer) (TS : timespec) : mutation :=
  SetTimer c this (UInt64.wrap (tv_sec TS)) (UInt64.wrap (tv_nsec TS)) false.

(** [HighPerTimer::SetSeconds ( const int64_t Seconds )] *)
Definition SetSeconds (c : Statics) (this : HighPerTimer) (Seconds_ : Z) : mutation :=
  if Seconds_ <? 0
  then SetTimer c this (UInt64.wrap (Int64.neg Seconds_)) 0 true
  else SetTimer c this (UInt64.wrap Seconds_) 0 false.

(** [HighPerTimer::SetUSeconds ( const int64_t USeconds )]
<<
  if ( USeconds < 0 )
      this->SetTimer ( -USeconds / ONE_MILLION, (-USeconds  % ONE_MILLION ) * 1000LL, true );
  else
      this->SetTimer ( USeconds / ONE_MILLION, ( USeconds % ONE_MILLION ) * 1000LL, false );
>>
    [ONE_MILLION] is [uint64_t], so the quotient and the remainder are
    unsigned. *)
Definition SetUSeconds (c : Statics) (this : HighPerTimer) (USeconds_ : Z) : mutation :=
  if USeconds_ <? 0
  then SetTimer c this
         (UInt64.wrap (Int64.neg USeconds_) / ONE_MILLION)
         (UInt64.mul (UInt64.wrap (Int64.neg USeconds_) mod ONE_MILLION) 1000) true
  else SetTimer c this
         (UInt64.wrap USeconds_ / ONE_MILLION)
         (UInt64.mul (UInt64.wrap USeconds_ mod ONE_MILLION) 1000) false.

(** [HighPerTimer::SetNSeconds ( const int64_t NSeconds )]
<<
  if ( NSeconds < 0 )
      this->SetTimer ( -NSeconds / ONE_BILLION, NSeconds, true );
  else
      this->SetTimer ( NSeconds / ONE_BILLION, NSeconds, false );
>> *)
Definition SetNSeconds (c : Statics) (this : HighPerTimer) (NSeconds_ : Z) : mutation :=
  if NSeconds_ <? 0
  then SetTimer c this (UInt64.wrap (Int64.neg NSeconds_) / ONE_BILLION)
                (UInt64.wrap NSeconds_) true
  else SetTimer c this (UInt64.wrap NSeconds_ / ONE_BILLION) (UInt64.wrap NSeconds_) false.

(** [HighPerTimer::SetTV] and [HighPerTimer::SetTS]: the structure they
    fill and the receiver, normalized. *)
Definition SetTV (c : Statics) (this : HighPerTimer) : Timeval.timeval * HighPerTimer :=
  let this := Normalize c this in
  ({| Timeval.tv_sec := mSeconds this; Timeval.tv_usec := Z.quot (mNSeconds this) 1000 |},
   this).

Definition SetTS (c : Statics) (this : HighPerTimer) : timespec * HighPerTimer :=
  let this := Normalize c this in
  ({| tv_sec := mSeconds this; tv_nsec := mNSeconds this |}, this).

(** [HighPerTimer::HPTimertoNSec ( const HighPerTimer & HPTimer )]
<<
  HPTimer.Normalize();
  if ( HPTimer.Negative() )
      return -( HPTimer.Seconds() * ONE_BILLION + HPTimer.NSeconds() );
  else
      return ( HPTimer.Seconds() * ONE_BILLION + HPTimer.NSeconds() );
>> *)
Definition HPTimertoNSec (c : Statics) (HPTimer : HighPerTimer) : Z :=
  let HPTimer := Normalize c HPTimer in
  if Negative HPTimer
  then Int64.wrap (UInt64.wrap (- nsec_total (Seconds c HPTimer) (NSeconds c HPTimer)))
  else Int64.wrap (nsec_total (Seconds c HPTimer) (NSeconds c HPTimer)).

(** ** The interruptible sleeps *)

(** A store of another thread to one of the two [volatile] flags of the
    object a sleep runs on. *)
Inductive Store : Type :=
| StoreInterrupted (b : bool)
| StoreCancelled (b : bool).

Definition apply_store (s : Store) (t : HighPerTimer) : HighPerTimer :=
  match s with
  | StoreInterrupted b => set_mInterrupted b t
  | StoreCancelled b => set_mCancelled b t
  end.

(** Everything a sleeping thread does not control: the hardware at each
    of its reads of the time source, the stores of other threads that
    land before each of its accesses to a flag, and the storage the
    temporaries of [Now()] are built on. *)
Record World : Type := {
  hardware : nat -> Hardware;
  others : nat -> list Store;
  temporary : HighPerTimer
}.

(** What a thread does, in program order. *)
Inductive Event : Type :=
| EvStoreCancelled (b : bool)
| EvStoreInterrupted (b : bool)
| EvLoadInterrupted (b : bool)
| EvLoadCancelled (b : bool)
| EvGetTimerTics (tics : Z)
| EvLock                      (* std::unique_lock<std::mutex> lock (HPmutex) *)
| EvWaitFor (usec : Z)        (* HPcond.wait_for ( lock, microseconds ( usec ) ) *)
| EvUnlock                    (* end of the scope of lock *)
| EvNotifyOne                 (* HPcond.notify_one() *)
| EvRepNop.

(** The thread: the object it runs on, how often it has read the time
    source and accessed a flag, and what it has done so far. *)
Record Thread : Type := mkThread {
  this : HighPerTimer;
  timer_calls : nat;
  flag_accesses : nat;
  trace : list Event
}.

(** How a run of library code ends: it returns, throws, or the model's
    bound on loop iterations is used up. *)
Inductive ending (A : Type) : Type :=
| Finished (a : A)
| Thrown (e : exn)
| OutOfFuel.
Arguments Finished {A} a.
Arguments Thrown {A} e.
Arguments OutOfFuel {A}.

Definition Sleeper (A : Type) : Type := Thread -> ending A * Thread.

Definition ret {A : Type} (a : A) : Sleeper A := fun th => (Finished a, th).
Definition raise {A : Type} (e : exn) : Sleeper A := fun th => (Thrown e, th).
Definition starve {A : Type} : Sleeper A := fun th => (OutOfFuel, th).
Definition bind {A B : Type} (m : Sleeper A) (k : A -> Sleeper B) : Sleeper B :=
  fun th =>
    match m th with
    | (Finished a, th') => k a th'
    | (Thrown e, th') => (Thrown e, th')
    | (OutOfFuel, th') => (OutOfFuel, th')
    end.

Notation "x <- m ;; k" := (bind m (fun x => k))
  (at level 61, m at next level, right associativity).
Notation "m ;;; k" := (bind m (fun _ => k))
  (at level 61, right associativity).

Definition emit (e : Event) : Sleeper unit :=
  fun th => (Finished tt,
             mkThread (this th) (timer_calls th) (flag_accesses th) (trace th ++ [e])).

(** How a sleep ends when it returns. *)
Inductive SleepExit : Type :=
| TargetReached     (* the loop condition became false *)
| EarlyReturn.      (* [return] inside the loop, on [mInterrupted] *)

Section Running.
Variable c : Statics.
Variable w : World.

(** The object once the stores of the other threads that are due before
    this thread's next access to a flag have landed. *)
Definition landed (accesses : nat) (t : HighPerTimer) : HighPerTimer :=
  fold_left (fun t s => apply_store s t) (others w accesses) t.

(** Before each access of this thread to a flag the stores of the other
    threads that are due take effect. *)
Definition interfere : Sleeper unit :=
  fun th =>
    (Finished tt,
     mkThread (landed (flag_accesses th) (this th))
              (timer_calls th) (S (flag_accesses th)) (trace th)).

Definition update_this (f : HighPerTimer -> HighPerTimer) : Sleeper unit :=
  fun th => (Finished tt,
             mkThread (f (this th)) (timer_calls th) (flag_accesses th) (trace th)).

Definition store_mCancelled (b : bool) : Sleeper unit :=
  interfere ;;; update_this (set_mCancelled b) ;;; emit (EvStoreCancelled b).

Definition store_mInterrupted (b : bool) : Sleeper unit :=
  interfere ;;; update_this (set_mInterrupted b) ;;; emit (EvStoreInterrupted b).

Definition load_mInterrupted : Sleeper bool :=
  interfere ;;;
  (fun th => (emit (EvLoadInterrupted (mInterrupted (this th))) ;;;
              ret (mInterrupted (this th))) th).

Definition load_mCancelled : Sleeper bool :=
  interfere ;;;
  (fun th => (emit (EvLoadCancelled (mCancelled (this th))) ;;;
              ret (mCancelled (this th))) th).

(** the non-volatile member [mHPTics] of the receiver *)
Definition read_mHPTics : Sleeper Z := fun th => (Finished (mHPTics (this th)), th).

(** [HighPerTimer::GetTimerTics()] *)
Definition GetTimerTics : Sleeper Z :=
  fun th =>
    let v := GetTimerTics_on c (hardware w (timer_calls th)) in
    (Finished v,
     mkThread (this th) (S (timer_calls th)) (flag_accesses th)
              (trace th ++ [EvGetTimerTics v])).

(** [HighPerTimer::Now()]: [HighPerTimer { GetTimerTics(), true }] *)
Definition Now : Sleeper HighPerTimer :=
  v <- GetTimerTics ;;
  match HighPerTimer_tics c (temporary w) v true with
  | Return t => ret t
  | Throw e => raise e
  end.

Definition RepNop : Sleeper unit := emit EvRepNop.

(** [static_cast<int64_t> ( HPJiffies * ONE_BILLION )] *)
Definition BusyNSeconds : Z :=
  Double.to_int64 (PrimFloat.mul (HPJiffies c) (Double.of_Z ONE_BILLION)).

(** The block every sleep runs when its interval is long enough:
<<
    std::unique_lock<std::mutex> lock (HPmutex);
    if ( mInterrupted == true )
    {
        mCancelled = true;
    }
    HPcond.wait_for(lock, std::chrono::microseconds( usec ));
>> *)
Definition coarse_wait (usec : Z) : Sleeper unit :=
  emit EvLock ;;;
  i <- load_mInterrupted ;;
  (if Bool.eqb i true then store_mCancelled true else ret tt) ;;;
  emit (EvWaitFor usec) ;;;
  emit EvUnlock.

(** The loop every sleep ends with, [again] being its condition:
<<
while ( again )
{
    if ( 0 == ( ++Counter & 0x0F ) && mInterrupted )
    {
        return;
    }
    RepNop();
}
>>
    [fuel] bounds the number of times the condition is evaluated. *)
Fixpoint busy_wait (fuel : nat) (again : Sleeper bool) (Counter : Z)
  : Sleeper SleepExit :=
  match fuel with
  | O => starve
  | S fuel' =>
      go <- again ;;
      if go then
        let Counter := Int64.add Counter 1 in
        if 0 =? Z.land Counter 15 then
          i <- load_mInterrupted ;;
          if i then ret EarlyReturn
          else RepNop ;;; busy_wait fuel' again Counter
        else RepNop ;;; busy_wait fuel' again Counter
      else ret TargetReached
  end.

(** [HighPerTimer::USecSleep ( const uint64_t USeconds )] *)
Definition USecSleep (fuel : nat) (USeconds : Z) : Sleeper SleepExit :=
  store_mCancelled false ;;;
  now <- GetTimerTics ;;
  let TargetTics :=
    Double.to_int64
      (PrimFloat.add (Double.of_Z now)
         (PrimFloat.div (Double.of_Z (UInt64.mul USeconds 1000)) (NsecPerTic c))) in
  let Counter := 0 in
  store_mInterrupted false ;;;
  let BusyUSeconds :=
    Double.to_uint64 (PrimFloat.mul (HPJiffies c) (Double.of_Z 1000000)) in
  (if USeconds >=? BusyUSeconds
   then coarse_wait (Int64.wrap (UInt64.sub USeconds BusyUSeconds))
   else ret tt) ;;;
  busy_wait fuel (t <- GetTimerTics ;; ret (t <? TargetTics)) Counter.

(** [HighPerTimer::NSecSleep ( const uint64_t NSeconds )] *)
Definition NSecSleep (fuel : nat) (NSeconds_ : Z) : Sleeper SleepExit :=
  store_mCancelled false ;;;
  now <- GetTimerTics ;;
  let TargetTics :=
    Double.to_int64
      (PrimFloat.add (Double.of_Z now)
         (PrimFloat.div (Double.of_Z NSeconds_) (NsecPerTic c))) in
  let Counter := 0 in
  store_mInterrupted false ;;;
  let BusyNSeconds := UInt64.wrap BusyNSeconds in
  (if NSeconds_ >=? BusyNSeconds
   then coarse_wait (Int64.wrap (UInt64.sub NSeconds_ BusyNSeconds / 1000))
   else ret tt) ;;;
  busy_wait fuel (t <- GetTimerTics ;; ret (t <? TargetTics)) Counter.

(** [HighPerTimer::TicsSleep ( const uint64_t HPTics )]; its guard is
<<
if ( ( mHPTics > 0) && ( HPTics * HighPerTimer::NsecPerTic >=  BusyNSeconds ) )
>> *)
Definition TicsSleep_guard (mHPTics_ HPTics_ : Z) : bool :=
  (mHPTics_ >? 0)
  && Double.geb (PrimFloat.mul (Double.of_Z HPTics_) (NsecPerTic c))
                (Double.of_Z BusyNSeconds).

Definition TicsSleep (fuel : nat) (HPTics_ : Z) : Sleeper SleepExit :=
  store_mCancelled false ;;;
  now <- GetTimerTics ;;
  let TargetTics := Int64.wrap (UInt64.add now HPTics_) in
  let Counter := 0 in
  store_mInterrupted false ;;;
  mHPTics_ <- read_mHPTics ;;
  (if TicsSleep_guard mHPTics_ HPTics_
   then
     let AllNSeconds :=
       Double.to_int64 (PrimFloat.mul (Double.of_Z HPTics_) (NsecPerTic c)) in
     coarse_wait (Z.quot (Int64.sub AllNSeconds BusyNSeconds) 1000)
   else ret tt) ;;;
  busy_wait fuel (t <- GetTimerTics ;; ret (t <? TargetTics)) Counter.

(** [HighPerTimer::SleepTo ( const int64_t WakeHPTimer )] *)
Definition SleepTo (fuel : nat) (WakeHPTimer : Z) : Sleeper SleepExit :=
  store_mCancelled false ;;;
  now <- GetTimerTics ;;
  let SysNSeconds :=
    Double.to_int64
      (PrimFloat.mul (Double.of_Z (Int64.sub WakeHPTimer now)) (NsecPerTic c)) in
  let Counter := 0 in
  store_mInterrupted false ;;;
  (if (SysNSeconds >? 0) && (SysNSeconds >=? BusyNSeconds)
   then coarse_wait (Z.quot (Int64.sub SysNSeconds BusyNSeconds) 1000)
   else ret tt) ;;;
  busy_wait fuel (t <- GetTimerTics ;; ret (t <? WakeHPTimer)) Counter.

(** [HighPerTimer::SleepTo ( const HighPerTimer & WaitTo )] *)
Definition SleepTo_timer (fuel : nat) (WaitTo : HighPerTimer) : Sleeper SleepExit :=
  store_mCancelled false ;;;
  now <- Now ;;
  let SysNSeconds :=
    Double.to_int64
      (PrimFloat.mul (Double.of_Z (Int64.sub (mHPTics WaitTo) (HPTics now)))
                     (NsecPerTic c)) in
  let Counter := 0 in
  store_mInterrupted false ;;;
  (if (SysNSeconds >? 0) && (SysNSeconds >=? BusyNSeconds)
   then coarse_wait (Z.quot (Int64.sub SysNSeconds BusyNSeconds) 1000)
   else ret tt) ;;;
  busy_wait fuel (t <- Now ;; ret (mHPTics t <? mHPTics WaitTo)) Counter.

(** [HighPerTimer::SleepToThis ()] *)
Definition SleepToThis (fuel : nat) : Sleeper SleepExit :=
  store_mCancelled false ;;;
  now <- Now ;;
  mHPTics_ <- read_mHPTics ;;
  let SysNSeconds :=
    Double.to_int64
      (PrimFloat.mul (Double.of_Z (Int64.sub mHPTics_ (HPTics now))) (NsecPerTic c)) in
  let Counter := 0 in
  store_mInterrupted false ;;;
  (if (SysNSeconds >? 0) && (SysNSeconds >=? BusyNSeconds)
   then coarse_wait (Z.quot (Int64.sub SysNSeconds BusyNSeconds) 1000)
   else ret tt) ;;;
  busy_wait fuel (t <- Now ;; ret (HPTics t <? mHPTics_)) Counter.

(** [HighPerTimer::Sleep()] *)
Definition Sleep (fuel : nat) : Sleeper SleepExit :=
  store_mCancelled false ;;;
  now <- GetTimerTics ;;
  mHPTics_ <- read_mHPTics ;;
  let TargetTics := Int64.add now mHPTics_ in
  let Counter := 0 in
  store_mInterrupted false ;;;
  (if (mHPTics_ >? 0)
      && Double.geb (PrimFloat.mul (Double.of_Z mHPTics_) (NsecPerTic c))
                    (Double.of_Z BusyNSeconds)
   then
     let AllNSeconds :=
       Double.to_int64 (PrimFloat.mul (Double.of_Z mHPTics_) (NsecPerTic c)) in
     coarse_wait (Z.quot (Int64.sub AllNSeconds BusyNSeconds) 1000)
   else ret tt) ;;;
  busy_wait fuel (t <- GetTimerTics ;; ret (t <? TargetTics)) Counter.

(** [HighPerTimer::Interrupt()], run by the thread that wants to wake a
    sleeper:
<<
mCancelled = true;
while ( mCancelled != true )
{
    mInterrupted = true;
}
mInterrupted = true;
HPcond.notify_one();
>> *)
Fixpoint Interrupt_loop (fuel : nat) : Sleeper unit :=
  match fuel with
  | O => starve
  | S fuel' =>
      cancelled <- load_mCancelled ;;
      if negb (Bool.eqb cancelled true)
      then store_mInterrupted true ;;; Interrupt_loop fuel'
      else ret tt
  end.

Definition Interrupt (fuel : nat) : Sleeper unit :=
  store_mCancelled true ;;;
  Interrupt_loop fuel ;;;
  store_mInterrupted true ;;;
  emit EvNotifyOne.

(** The sleep entry points of the class. *)
Inductive SleepCall : Type :=
| CallUSecSleep (USeconds : Z)
| CallNSecSleep (NSeconds : Z)
| CallTicsSleep (HPTics : Z)
| CallSleepTo (WakeHPTimer : Z)
| CallSleepTo_timer (WaitTo : HighPerTimer)
| CallSleepToThis
| CallSleep.

Definition sleep (fuel : nat) (call : SleepCall) : Sleeper SleepExit :=
  match call with
  | CallUSecSleep u => USecSleep fuel u
  | CallNSecSleep n => NSecSleep fuel n
  | CallTicsSleep k => TicsSleep fuel k
  | CallSleepTo wake => SleepTo fuel wake
  | CallSleepTo_timer t => SleepTo_timer fuel t
  | CallSleepToThis => SleepToThis fuel
  | CallSleep => Sleep fuel
  end.

End Running.

(** ** Frequency calibration *)

(** [round] of [<cmath>] followed by [static_cast<uint64_t>]: the nearest
    integer, halfway cases away from zero. *)
Definition round_to_uint64 (f : float) : Z :=
  match Prim2SF f with
  | S754_finite s m e =>
      if 0 <=? e then Double.to_uint64 f
      else
        let q := Z.pos m / 2 ^ (- e) in
        let r := Z.pos m mod 2 ^ (- e) in
        let q := if 2 * r >=? 2 ^ (- e) then q + 1 else q in
        Double.to_uint64 (Double.of_Z (if s then - q else q))
  | _ => Double.to_uint64 f
  end.

(** One trial of the TSC calibration ([struct timesStruct] without the
    derived field): the realtime clock and the TSC before and after the
    delay. *)
Record timesStruct : Type := {
  TSC1 : Z; TSC2 : Z;
  ts1 : timespec; ts2 : timespec
}.

(** The field [usFreq] of a trial: nanoseconds per tic, or 0 when the
    clock did not move. *)
Definition usFreq (x : timesStruct) : float :=
  let t1 := Int64.wrap (nsec_total (tv_sec (ts1 x)) (tv_nsec (ts1 x))) in
  let t2 := Int64.wrap (nsec_total (tv_sec (ts2 x)) (tv_nsec (ts2 x))) in
  if negb (t1 =? t2)
  then PrimFloat.div (Double.of_Z (Int64.sub t2 t1))
                     (Double.of_Z (Int64.sub (TSC2 x) (TSC1 x)))
  else 0%float.

(** [std::accumulate ( begin, end, 0.0 ) / VecFreq.size()] *)
Definition mean_of (VecFreq : list float) : float :=
  PrimFloat.div (fold_left PrimFloat.add VecFreq 0%float)
                (Double.of_Z (Z.of_nat (length VecFreq))).

(** [sqrt ( accum / ( VecFreq.size() - 1 ) )], [accum] being the sum of
    the squared deviations from [mean]. *)
Definition stdev_of (mean : float) (VecFreq : list float) : float :=
  let accum :=
    fold_left
      (fun accum d =>
         PrimFloat.add accum (PrimFloat.mul (PrimFloat.sub d mean) (PrimFloat.sub d mean)))
      VecFreq 0%float in
  PrimFloat.sqrt
    (PrimFloat.div accum (Double.of_Z (UInt64.wrap (Z.of_nat (length VecFreq) - 1)))).

(** Grubbs' test of one sample:
    [std::abs ( mean - *it ) > ( stdev * 1.7885 )] *)
Definition is_peak (mean stdev : float) (d : float) : bool :=
  Double.gtb (PrimFloat.abs (PrimFloat.sub mean d)) (PrimFloat.mul stdev 1.7885%float).

(** How the loop over [VecFreq] ends: the iterator reaches the end, or
    the branch taken once a peak has been counted is entered. *)
Inductive PeakScan : Type :=
| ScanEnd (VecFreq : list float)
| ScanAgain.

(** The loop that excludes a peak.  The vector is [kept ++ rest] and the
    iterator stands at the head of [rest]; [VecFreq.erase ( it )] drops
    that head and the loop goes on with the same iterator, which then
    stands at the element that followed.
<<
  for ( it = VecFreq.begin(); it != VecFreq.end(); )
  {
      if (peak < 1)
      {
          if ( std::abs(mean - *it) > ( stdev * 1.7885 ) )
          { ++peak; VecFreq.erase(it); }
          else
          { ++it; }
      }
      else
      { ... reinitialize or abort ... }
  }
>> *)
Fixpoint exclude_peak (mean stdev : float) (kept rest : list float) (peak : Z)
  : PeakScan :=
  match rest with
  | [] => ScanEnd kept
  | d :: rest' =>
      if peak <? 1 then
        if is_peak mean stdev d
        then exclude_peak mean stdev kept rest' (peak + 1)
        else exclude_peak mean stdev (kept ++ [d]) rest' peak
      else ScanAgain
  end.

Definition set_frequency (npt : float) (tpu : Z) (c : Statics) : Statics :=
  mkStatics (HPTimer_MAX c) (HPTimer_MIN c) (HPTimerSource c) tpu npt
            (UnixZeroShift c) (HPJiffies c) (InitFreqAttempt c).
Definition set_InitFreqAttempt (v : Z) (c : Statics) : Statics :=
  mkStatics (HPTimer_MAX c) (HPTimer_MIN c) (HPTimerSource c) (TicsPerUsec c)
            (NsecPerTic c) (UnixZeroShift c) (HPJiffies c) v.

(** The five samples of one run of the TSC branch. *)
Definition samples (trials : nat -> timesStruct) : list float :=
  map (fun i => usFreq (trials i)) (seq 0 5).

(** [HighPerTimer::InitHPFrequency].  [measure k i] is what trial [i] of
    the [k]-th run from now reads, [hpet_regs] the mapped HPET registers;
    [fuel] bounds the depth of the recursion. *)
Fixpoint InitHPFrequency (fuel : nat) (measure : nat -> nat -> timesStruct)
         (hpet_regs : region) (c : Statics) : ending unit * Statics :=
  match fuel with
  | O => (OutOfFuel, c)
  | S fuel' =>
      if TimeSource_eqb TSC (HPTimerSource c) then
        let VecFreq := samples (measure O) in
        let mean := mean_of VecFreq in
        let stdev := stdev_of mean VecFreq in
        match exclude_peak mean stdev [] VecFreq 0 with
        | ScanAgain =>
            if InitFreqAttempt c <? 3 then
              InitHPFrequency fuel' (fun k => measure (S k)) hpet_regs
                              (set_InitFreqAttempt (InitFreqAttempt c + 1) c)
            else (Thrown std_exception, c)
        | ScanEnd _ =>
            (Finished tt,
             set_frequency mean
               (Int64.wrap (round_to_uint64 (PrimFloat.div 1000%float mean))) c)
        end
      else if TimeSource_eqb HPET (HPTimerSource c) then
        let TmpFreq := GetHPETFrequency hpet_regs in
        (Finished tt,
         set_frequency (PrimFloat.div 1000%float TmpFreq) (Double.to_int64 TmpFreq) c)
      else
        (Finished tt,
         set_frequency (PrimFloat.div 1000%float (Double.of_Z OSTimerFrequency))
                       OSTimerFrequency c)
  end.

(** ** Initialization of the library *)

Definition set_HPTimerSource (v : TimeSource) (c : Statics) : Statics :=
  mkStatics (HPTimer_MAX c) (HPTimer_MIN c) v (TicsPerUsec c) (NsecPerTic c)
            (UnixZeroShift c) (HPJiffies c) (InitFreqAttempt c).
Definition set_UnixZeroShift (v : Z) (c : Statics) : Statics :=
  mkStatics (HPTimer_MAX c) (HPTimer_MIN c) (HPTimerSource c) (TicsPerUsec c)
            (NsecPerTic c) v (HPJiffies c) (InitFreqAttempt c).
Definition set_HPJiffies (v : float) (c : Statics) : Statics :=
  mkStatics (HPTimer_MAX c) (HPTimer_MIN c) (HPTimerSource c) (TicsPerUsec c)
            (NsecPerTic c) (UnixZeroShift c) v (InitFreqAttempt c).

(** [HighPerTimer::InitUnixZeroShift]: [ts] is what
    [clock_gettime ( CLOCK_REALTIME )] delivers, [hw] the hardware as
    [GetTimerTics()] reads it.
<<
  if ( TimeSource::OS == HighPerTimer::HPTimerSource )
  {
      HighPerTimer::UnixZeroShift = 0;
      return;
  }
  timespec ts;
  clock_gettime ( CLOCK_REALTIME, &ts );
  HighPerTimer::UnixZeroShift =
    ( static_cast<int64_t> ( ( static_cast<int64_t> ( ts.tv_sec ) * ONE_BILLION
                               + static_cast<int64_t> ( ts.tv_nsec ) ) / HighPerTimer::NsecPerTic ) )
    - HighPerTimer::GetTimerTics();
>> *)
Definition InitUnixZeroShift (ts : timespec) (hw : Hardware) (c : Statics) : Statics :=
  if TimeSource_eqb OS (HPTimerSource c) then set_UnixZeroShift 0 c
  else
    set_UnixZeroShift
      (Int64.sub
         (Double.to_int64
            (PrimFloat.div (Double.of_Z (nsec_total (tv_sec ts) (tv_nsec ts)))
                           (NsecPerTic c)))
         (GetTimerTics_on c hw))
      c.

(** The state of the library in a process: the statics of the three
    classes and the system calls made on [/dev/hpet] so far. *)
Record Process : Type := mkProcess {
  timer : Statics;
  tsc : TSCStatics;
  hpet_timer : HPETStatics;
  syscalls : list Syscall
}.

(** The loop of [InitTimerSource] that compares what one access to the
    HPET and one to the OS clock cost; [hw n] is the hardware at the
    [n]-th reading of a counter. *)
Fixpoint access_costs (todo : nat) (hw : nat -> Hardware) (i : nat)
         (VecHpet VecOs : list float) : list float * list float :=
  match todo with
  | O => (VecHpet, VecOs)
  | S todo' =>
      let HPtimerNow1 := GetHPETTics (hpet (hw (4 * i)%nat)) in
      let HPtimerNow2 := GetHPETTics (hpet (hw (4 * i + 1)%nat)) in
      let HPdelta := Double.of_Z (Int64.sub HPtimerNow2 HPtimerNow1) in
      let VecHpet :=
        VecHpet ++ [PrimFloat.div HPdelta (GetHPETFrequency (hpet (hw (4 * i + 1)%nat)))] in
      let HPtimerNow1 := GetOSTimerTics (monotonic (hw (4 * i + 2)%nat)) in
      let HPtimerNow2 := GetOSTimerTics (monotonic (hw (4 * i + 3)%nat)) in
      let HPdelta := Double.of_Z (Int64.sub HPtimerNow2 HPtimerNow1) in
      let VecOs := VecOs ++ [PrimFloat.div HPdelta (Double.of_Z OSTimerFrequency)] in
      access_costs todo' hw (S i) VecHpet VecOs
  end.

(** [std::inner_product ( v.begin(), v.end(), v.begin(), 0.0 )] *)
Definition inner_product (v : list float) : float :=
  fold_left (fun acc d => PrimFloat.add acc (PrimFloat.mul d d)) v 0%float.

(** The choice between the HPET and the OS clock, once both work. *)
Definition cheaper_source (VecHpet VecOs : list float) : TimeSource :=
  let LoopCount := Double.of_Z 1000 in
  let Limit := 25%float in
  let MeanOs := PrimFloat.div (fold_left PrimFloat.add VecOs 0%float) LoopCount in
  let MeanHpet := PrimFloat.div (fold_left PrimFloat.add VecHpet 0%float) LoopCount in
  let Percentage :=
    if PrimFloat.ltb MeanHpet MeanOs
    then PrimFloat.sub 100 (PrimFloat.mul (PrimFloat.div MeanHpet MeanOs) 100)
    else PrimFloat.sub 100 (PrimFloat.mul (PrimFloat.div MeanOs MeanHpet) 100) in
  if PrimFloat.ltb Percentage Limit then
    let StDevOs :=
      PrimFloat.sqrt
        (PrimFloat.sub
           (PrimFloat.div (inner_product VecOs) (Double.of_Z (Z.of_nat (length VecOs))))
           (PrimFloat.mul MeanOs MeanOs)) in
    let StDevHpet :=
      PrimFloat.sqrt
        (PrimFloat.sub
           (PrimFloat.div (inner_product VecHpet) (Double.of_Z (Z.of_nat (length VecHpet))))
           (PrimFloat.mul MeanHpet MeanHpet)) in
    if PrimFloat.ltb StDevHpet StDevOs then HPET else OS
  else if PrimFloat.ltb MeanHpet MeanOs then HPET
  else OS.

(** [HighPerTimer::InitTimerSource] *)
Definition InitTimerSource (cpu : Processor) (dev : HPETDevice) (hw : nat -> Hardware)
           (p : Process) : Process :=
  let '(tsc_ok, tsc') := InitTSCTimer cpu (tsc p) in
  if tsc_ok then
    mkProcess (set_HPTimerSource TSC (timer p)) tsc' (hpet_timer p) (syscalls p)
  else
    let '(hpet_ok, hpet', calls) := InitHPETTimer dev (hpet_timer p) in
    let source :=
      if hpet_ok then
        let '(VecHpet, VecOs) := access_costs 1000 hw 0 [] [] in
        cheaper_source VecHpet VecOs
      else OS in
    mkProcess (set_HPTimerSource source (timer p)) tsc' hpet' (syscalls p ++ calls).

(** The region [HpetAdd_ptr] points to. *)
Definition mapped (s : HPETStatics) : region :=
  match HpetAdd_ptr s with
  | Some m => m
  | None => []
  end.

(** [HighPerTimer::SetTimerSource ( const TimeSource UserSource )]: what it
    returns and the process as it leaves it.  [measure] are the trials of
    the calibration, [ts] and [hw] the clock and the time source as
    [InitUnixZeroShift] reads them. *)
Definition SetTimerSource (fuel : nat) (cpu : Processor) (dev : HPETDevice)
           (measure : nat -> nat -> timesStruct) (ts : timespec) (hw : Hardware)
           (UserSource : TimeSource) (p : Process) : ending TimeSource * Process :=
  if TimeSource_eqb UserSource (HPTimerSource (timer p)) then
    (Finished (HPTimerSource (timer p)), p)
  else
    let '(usable, p) :=
      if TimeSource_eqb TSC UserSource then
        let '(ok, tsc') := InitTSCTimer cpu (tsc p) in
        (ok, mkProcess (timer p) tsc' (hpet_timer p) (syscalls p))
      else if TimeSource_eqb HPET UserSource then
        let '(ok, hpet', calls) := InitHPETTimer dev (hpet_timer p) in
        (ok, mkProcess (timer p) (tsc p) hpet' (syscalls p ++ calls))
      else (true, p) in
    if negb usable then (Finished (HPTimerSource (timer p)), p)
    else
      let c := set_HPTimerSource UserSource (timer p) in
      match InitHPFrequency fuel measure (mapped (hpet_timer p)) c with
      | (Finished _, c) =>
          let c := InitUnixZeroShift ts hw c in
          match InitMaxMinHPTimer c with
          | (Return _, c) =>
              (Finished (HPTimerSource c),
               mkProcess c (tsc p) (hpet_timer p) (syscalls p))
          | (Throw e, c) =>
              (Thrown e, mkProcess c (tsc p) (hpet_timer p) (syscalls p))
          end
      | (Thrown e, c) => (Thrown e, mkProcess c (tsc p) (hpet_timer p) (syscalls p))
      | (OutOfFuel, c) => (OutOfFuel, mkProcess c (tsc p) (hpet_timer p) (syscalls p))
      end.

(** [HighPerTimer::SetClockSkew ( const double DelayTime )]; [measure] are
    the trials taken with that delay. *)
Definition SetClockSkew (fuel : nat) (measure : nat -> nat -> timesStruct)
           (ts : timespec) (hw : Hardware) (DelayTime : float) (p : Process)
  : ending bool * Process :=
  if PrimFloat.eqb DelayTime 0.02 || PrimFloat.eqb DelayTime 0.1
     || PrimFloat.eqb DelayTime 1 || PrimFloat.eqb DelayTime 10
  then
    match InitHPFrequency fuel measure (mapped (hpet_timer p)) (timer p) with
    | (Finished _, c) =>
        (Finished true,
         mkProcess (InitUnixZeroShift ts hw c) (tsc p) (hpet_timer p) (syscalls p))
    | (Thrown e, c) => (Thrown e, mkProcess c (tsc p) (hpet_timer p) (syscalls p))
    | (OutOfFuel, c) => (OutOfFuel, mkProcess c (tsc p) (hpet_timer p) (syscalls p))
    end
  else (Finished false, p).

(** [HighPerTimer::InitSecPerJiffy] *)

(** [while ( HighPerTimer::GetTimerTics() < Target ) RepNop();]: the number
    of readings of the time source made when the loop is left; [fuel]
    bounds the number of times the condition is evaluated. *)
Fixpoint spin_until (fuel : nat) (c : Statics) (hw : nat -> Hardware) (n : nat)
         (Target : Z) : option nat :=
  match fuel with
  | O => None
  | S fuel' =>
      if GetTimerTics_on c (hw n) <? Target
      then spin_until fuel' c hw (S n) Target
      else Some (S n)
  end.

Record HZcounts : Type := {
  count100 : Z; count250 : Z; count300 : Z; count1000 : Z
}.

Definition UInt32_wrap (z : Z) : Z := z mod 4294967296.

(** number of seconds within one interrupt - the value of jiffies *)
Definition HZ100Jiffies : float := PrimFloat.div 1 100.
Definition HZ250Jiffies : float := PrimFloat.div 1 250.
Definition HZ300Jiffies : float := PrimFloat.div 1 300.
Definition HZ1000Jiffies : float := PrimFloat.div 1 1000.

(** What one pass of the loop makes of its measurement: the frequency
    whose usage value has now been seen twice, or the counters to go on
    with.
<<
  if ( CpuDelta == HZ100usage )
  {
      count100++;
      if ( count100 == 2) { HighPerTimer::HPJiffies = HZ100Jiffies; return; }
  }
  else if ( CpuDelta == HZ250usage ) ...
  else if ( ( CpuDelta == HZ300usage ) || ( CpuDelta == ( HZ300usage + 1 ) ) ) ...
  else if ( CpuDelta == HZ1000usage ) ...
>> *)
Inductive Verdict : Type :=
| Settled (jiffies : float)
| Undecided (counts : HZcounts).

Definition classify (CpuDelta : float) (counts : HZcounts) : Verdict :=
  if PrimFloat.eqb CpuDelta 100 then
    let counts := {| count100 := UInt32_wrap (count100 counts + 1);
                     count250 := count250 counts;
                     count300 := count300 counts;
                     count1000 := count1000 counts |} in
    if count100 counts =? 2 then Settled HZ100Jiffies else Undecided counts
  else if PrimFloat.eqb CpuDelta 120 then
    let counts := {| count100 := count100 counts;
                     count250 := UInt32_wrap (count250 counts + 1);
                     count300 := count300 counts;
                     count1000 := count1000 counts |} in
    if count250 counts =? 2 then Settled HZ250Jiffies else Undecided counts
  else if PrimFloat.eqb CpuDelta 133 || PrimFloat.eqb CpuDelta (PrimFloat.add 133 1) then
    let counts := {| count100 := count100 counts;
                     count250 := count250 counts;
                     count300 := UInt32_wrap (count300 counts + 1);
                     count1000 := count1000 counts |} in
    if count300 counts =? 2 then Settled HZ300Jiffies else Undecided counts
  else if PrimFloat.eqb CpuDelta 140 then
    let counts := {| count100 := count100 counts;
                     count250 := count250 counts;
                     count300 := count300 counts;
                     count1000 := UInt32_wrap (count1000 counts + 1) |} in
    if count1000 counts =? 2 then Settled HZ1000Jiffies else Undecided counts
  else Undecided counts.

(** The loop, [todo] iterations being left: [ru_utime n] is
    [ru_utime.tv_usec] at the [n]-th call of [getrusage], [reads] the
    number of readings of the time source made so far.
<<
  getrusage(RUSAGE_THREAD, &ru1);
  Target = HighPerTimer::GetTimerTics() + ( SleepTime / ( HighPerTimer::NsecPerTic / 1000LL ) ) ;
  while ( HighPerTimer::GetTimerTics() < Target ) RepNop();
  getrusage(RUSAGE_THREAD, &ru2);
  CpuTime1 = ru1.ru_utime.tv_usec / 100;
  CpuTime2 = ru2.ru_utime.tv_usec / 100;
  CpuDelta = CpuTime2-CpuTime1;
>> *)
Fixpoint InitSecPerJiffy_loop (todo i : nat) (fuel : nat) (ru_utime : nat -> Z)
         (hw : nat -> Hardware) (reads : nat) (counts : HZcounts) (c : Statics)
  : ending Statics :=
  match todo with
  | O => Finished (set_HPJiffies HZ250Jiffies c)
  | S todo' =>
      let SleepTime := 14500 in
      let Target :=
        Double.to_int64
          (PrimFloat.add (Double.of_Z (GetTimerTics_on c (hw reads)))
             (PrimFloat.div (Double.of_Z SleepTime)
                (PrimFloat.div (NsecPerTic c) (Double.of_Z 1000)))) in
      match spin_until fuel c hw (S reads) Target with
      | None => OutOfFuel
      | Some reads =>
          let CpuTime1 := UInt32_wrap (Z.quot (ru_utime (2 * i)%nat) 100) in
          let CpuTime2 := UInt32_wrap (Z.quot (ru_utime (2 * i + 1)%nat) 100) in
          let CpuDelta := UInt32_wrap (CpuTime2 - CpuTime1) in
          match classify (Double.of_Z CpuDelta) counts with
          | Settled jiffies => Finished (set_HPJiffies jiffies c)
          | Undecided counts =>
              InitSecPerJiffy_loop todo' (S i) fuel ru_utime hw reads counts c
          end
      end
  end.

Definition InitSecPerJiffy (fuel : nat) (ru_utime : nat -> Z) (hw : nat -> Hardware)
           (c : Statics) : ending Statics :=
  InitSecPerJiffy_loop 10 0 fuel ru_utime hw 0
    {| count100 := 0; count250 := 0; count300 := 0; count1000 := 0 |} c.

(** [HPTimerInitAndClean::~HPTimerInitAndClean]: the final clean up. *)
Definition HPTimerInitAndClean_dtor (s : HPETStatics) : HPETStatics * list Syscall :=
  if HpetFd s >=? 0
  then (set_HpetFd (-1) s, [SysClose (HpetFd s)])
  else (s, []).

(** [HPTimerInitAndClean::HPTimerInitAndClean]: the initialization of the
    library, run before [main].  [probe] is the hardware at the readings
    [InitTimerSource] makes, [hw] at the one of [InitUnixZeroShift] and
    [paced] at those of [InitSecPerJiffy].
<<
  HPETTimer::HpetFd = -1;
  HighPerTimer::InitTimerSource();
  HighPerTimer::InitHPFrequency( 0.02 ) ;
  HighPerTimer::InitUnixZeroShift();
  HighPerTimer::InitMaxMinHPTimer();
  HighPerTimer::InitSecPerJiffy();
>> *)
Definition HPTimerInitAndClean_ctor (fuel : nat) (cpu : Processor) (dev : HPETDevice)
           (probe : nat -> Hardware) (measure : nat -> nat -> timesStruct)
           (ts : timespec) (hw : Hardware) (ru_utime : nat -> Z)
           (paced : nat -> Hardware) (p : Process) : ending unit * Process :=
  let p := mkProcess (timer p) (tsc p) (set_HpetFd (-1) (hpet_timer p)) (syscalls p) in
  let p := InitTimerSource cpu dev probe p in
  let leave (r : ending unit) (c : Statics) : ending unit * Process :=
    (r, mkProcess c (tsc p) (hpet_timer p) (syscalls p)) in
  match InitHPFrequency fuel measure (mapped (hpet_timer p)) (timer p) with
  | (Finished _, c) =>
      let c := InitUnixZeroShift ts hw c in
      match InitMaxMinHPTimer c with
      | (Return _, c) =>
          match InitSecPerJiffy fuel ru_utime paced c with
          | Finished c => leave (Finished tt) c
          | Thrown e => leave (Thrown e) c
          | OutOfFuel => leave OutOfFuel c
          end
      | (Throw e, c) => leave (Thrown e) c
      end
  | (Thrown e, c) => leave (Thrown e) c
  | (OutOfFuel, c) => leave OutOfFuel c
  end.

(** ** The pattern the sleeps share *)

(** Every sleep entry point is an instance of one pattern: clear
    [mCancelled], work out the deadline (reading the time source), clear
    [mInterrupted], decide on the coarse wait, then poll.  [deadline],
    [decide] and [again] are what differs between the entry points. *)
Definition hybrid_sleep {D : Type} (w : World) (fuel : nat)
           (deadline : Sleeper D)
           (decide : D -> Sleeper (option Z))
           (again : D -> Sleeper bool) : Sleeper SleepExit :=
  store_mCancelled w false ;;;
  d <- deadline ;;
  store_mInterrupted w false ;;;
  usec <- decide d ;;
  match usec with
  | Some usec => coarse_wait w usec
  | None => ret tt
  end ;;;
  busy_wait w fuel (again d) 0.

Definition timer_read (e : Event) : Prop :=
  match e with EvGetTimerTics _ => True | _ => False end.

Definition spin_event (e : Event) : Prop :=
  match e with
  | EvGetTimerTics _ | EvRepNop | EvLoadInterrupted _ => True
  | _ => False
  end.

(** A computation that touches nothing but the time source. *)
Definition reads_only {A : Type} (m : Sleeper A) : Prop :=
  forall th, exists evs,
    Forall timer_read evs
    /\ trace (snd (m th)) = trace th ++ evs
    /\ this (snd (m th)) = this th
    /\ flag_accesses (snd (m th)) = flag_accesses th
    /\ fst (m th) <> OutOfFuel.

(** A computation that leaves the thread as it was and returns. *)
Definition silent {A : Type} (m : Sleeper A) : Prop :=
  forall th, exists a, m th = (Finished a, th).

(** What the coarse-wait block adds to the trace when [mInterrupted] is
    found to be [b] under the mutex. *)
Definition coarse_block (b : bool) (usec : Z) : list Event :=
  [EvLock; EvLoadInterrupted b]
    ++ (if b then [EvStoreCancelled true] else [])
    ++ [EvWaitFor usec; EvUnlock].

(** The value [SleepTo] (both overloads) and [SleepToThis] give their local
    [SysNSeconds]: the product [( wake - now ) * HighPerTimer::NsecPerTic]
    converted to [int64_t]. *)
Definition SysNSeconds_of (c : Statics) (wake now : Z) : Z :=
  Double.to_int64 (PrimFloat.mul (Double.of_Z (Int64.sub wake now)) (NsecPerTic c)).

(** What a coarse wait may add to the trace: nothing when it is not
    entered, the block otherwise. *)
Definition coarse_part (evs : list Event) : Prop :=
  evs = [] \/ exists b usec, evs = coarse_block b usec.

(** The traces a sleep can leave, by the way the call ends:
    [mCancelled] is cleared, the time source is read, and either the
    call ends there with an exception out of [Now()], or [mInterrupted]
    is cleared, the coarse wait is taken or not, and the loop polls. *)
Inductive sleep_trace : ending SleepExit -> list Event -> Prop :=
| trace_thrown : forall e reads,
    Forall timer_read reads ->
    sleep_trace (Thrown e) (EvStoreCancelled false :: reads)
| trace_run : forall r reads coarse spin,
    Forall timer_read reads ->
    coarse_part coarse ->
    Forall spin_event spin ->
    sleep_trace r (EvStoreCancelled false :: reads
                     ++ EvStoreInterrupted false :: coarse ++ spin).

(** The scan for a peak over the samples of one run of the TSC branch of
    [InitHPFrequency], and a run none of whose samples is a peak. *)
Definition scan (trials : nat -> timesStruct) : PeakScan :=
  let VecFreq := samples trials in
  let mean := mean_of VecFreq in
  exclude_peak mean (stdev_of mean VecFreq) [] VecFreq 0.

Definition no_peak (trials : nat -> timesStruct) : Prop :=
  let VecFreq := samples trials in
  let mean := mean_of VecFreq in
  Forall (fun d => is_peak mean (stdev_of mean VecFreq) d = false) VecFreq.

(** The condition of the loop of the sleeps that poll [GetTimerTics()]. *)
Definition before (c : Statics) (w : World) (Target : Z) : Sleeper bool :=
  t <- GetTimerTics c w ;; ret (t <? Target).

Definition is_RepNop (e : Event) : bool :=
  match e with EvRepNop => true | _ => false end.

(** No store of another thread lands at or after the [n]-th access of
    the sleeper to a flag. *)
Definition quiet_from (w : World) (n : nat) : Prop :=
  forall k, (n <= k)%nat -> others w k = [].


(** ** Concrete configurations *)

Module Examples.

(** Objects of static storage duration start zeroed. *)
Definition zeroed : HighPerTimer := mkHighPerTimer 0 0 false 0 false false false.

Definition statics_at_load (source : TimeSource) (jiffies : float) (shift : Z) : Statics :=
  mkStatics zeroed zeroed source 0 0%float shift jiffies 0.

(** The statics after [InitHPFrequency] and [InitMaxMinHPTimer] have
    run for [source]. *)
Definition calibrated (source : TimeSource) (measure : nat -> nat -> timesStruct)
           (hpet_regs : region) (jiffies : float) (shift : Z) : Statics :=
  snd (InitMaxMinHPTimer
         (snd (InitHPFrequency 4 measure hpet_regs (statics_at_load source jiffies shift)))).

(** A trial in which [ns] nanoseconds pass while the TSC advances by
    [tics]. *)
Definition trial (ns tics : Z) : timesStruct :=
  {| TSC1 := 0; TSC2 := tics;
     ts1 := {| tv_sec := 0; tv_nsec := 0 |};
     ts2 := {| tv_sec := 0; tv_nsec := ns |} |}.

(** Five equal trials of 0.4 ns per tic (a 2.5 GHz TSC). *)
Definition steady_trials (k i : nat) : timesStruct := trial 400 1000.

(** Four trials of 1 ns per tic and one of 6 ns per tic, the deviating
    one last, respectively first. *)
Definition peak_last (i : nat) : timesStruct :=
  match i with
  | 4%nat => trial 6000 1000
  | _ => trial 1000 1000
  end.
Definition peak_first (i : nat) : timesStruct :=
  match i with
  | 0%nat => trial 6000 1000
  | _ => trial 1000 1000
  end.

(** A first run whose first sample is a peak, then steady runs. *)
Definition retry_once (k i : nat) : timesStruct :=
  match k with
  | O => peak_first i
  | _ => steady_trials k i
  end.

(** HPET registers of a 14.31818 MHz timer: the capabilities register with
    the 64-bit-counter bit set and a period of 69841279 fs, and a main
    counter that has just passed 2^32. *)
Definition hpet_regs : region :=
  let m := region_with 0 [Byte.x01; Byte.xa2; Byte.x86; Byte.x80;
                          Byte.x7f; Byte.xb1; Byte.x29; Byte.x04] in
  firstn 240 m
    ++ [Byte.x00; Byte.x00; Byte.x00; Byte.x00;
        Byte.x01; Byte.x00; Byte.x00; Byte.x00]
    ++ skipn 248 m.

Definition os_statics : Statics :=
  calibrated OS steady_trials hpet_regs (1 / 250)%float 0.
Definition hpet_statics : Statics :=
  calibrated HPET steady_trials hpet_regs (1 / 250)%float 24340900000000000.
Definition tsc_statics : Statics :=
  calibrated TSC steady_trials hpet_regs (1 / 250)%float 4250000000000000000.

(** A machine whose monotonic clock advances 3 ms between two reads. *)
Definition ticking (n : nat) : Hardware :=
  {| tsc_low32 := 0; tsc_high32 := 0; hpet := hpet_regs;
     monotonic := {| tv_sec := 0; tv_nsec := Z.of_nat n * 3000000 |} |}.

(** No other thread touches the flags. *)
Definition alone : World :=
  {| hardware := ticking; others := fun _ => []; temporary := zeroed |}.

(** Another thread runs [Interrupt()] between the sleeper's second and
    third access to a flag, that is after the sleeper has cleared
    [mInterrupted] and before it looks at it under the mutex: its stores
    [mCancelled = true] and [mInterrupted = true] land there. *)
Definition interrupted_before_lock : World :=
  {| hardware := ticking;
     others := fun n =>
       match n with
       | 2%nat => [StoreCancelled true; StoreInterrupted true]
       | _ => []
       end;
     temporary := zeroed |}.

Definition fresh_thread (t : HighPerTimer) : Thread := mkThread t 0 0 [].


(** What [cpuid] leaves in the registers. *)
Definition leaf (eax ebx ecx edx : Z) : RegsCPUID :=
  {| EAXBuf := eax; EBXBuf := ebx; ECXBuf := ecx; EDXBuf := edx |}.

(** An Intel Core 2 (family 6, model 15, stepping 11): vendor
    "GenuineIntel", no [RDTSCP], no invariant-TSC bit. *)
Definition intel_core2 : Processor :=
  fun eax =>
    if eax =? 0 then leaf 10 1970169159 1818588270 1231384169
    else if eax =? 1 then leaf 1787 0 0 0
    else if eax =? 2147483648 then leaf 2147483656 0 0 0
    else if eax =? 2147483649 then leaf 0 0 0 537919488
    else leaf 0 0 0 0.

(** The same processor reporting [0x80000004] as its highest extended
    leaf. *)
Definition intel_core2_few_leaves : Processor :=
  fun eax => if eax =? 2147483648 then leaf 2147483652 0 0 0 else intel_core2 eax.

(** A processor that answers every leaf with zeros. *)
Definition unknown_processor : Processor := fun _ => leaf 0 0 0 0.

Definition tsc_at_load : TSCStatics :=
  mkTSCStatics (repeat Byte.x00 48) (repeat Byte.x00 12) false false false.

Definition hpet_at_load : HPETStatics := mkHPETStatics ACCESS 0 None.

Definition process_at_load (source : TimeSource) : Process :=
  mkProcess (statics_at_load source 0%float 0) tsc_at_load hpet_at_load [].

(** A process that runs on [c]. *)
Definition process_on (c : Statics) : Process :=
  mkProcess c tsc_at_load hpet_at_load [].

(** [/dev/hpet] is opened as descriptor 3 and cannot be mapped. *)
Definition unmappable_hpet : HPETDevice :=
  {| open_result := 3; open_errno := Eother;
     mmap_result := None; mmap_errno := ENODEV |}.

(** HPET registers whose capabilities register has the counter-size bit
    (bit 13) clear: a 32-bit main counter, period 69841279 fs. *)
Definition hpet_32bit_regs : region :=
  region_with 0 [Byte.x01; Byte.x82; Byte.x86; Byte.x80;
                 Byte.x7f; Byte.xb1; Byte.x29; Byte.x04].

Definition narrow_hpet : HPETDevice :=
  {| open_result := 3; open_errno := Eother;
     mmap_result := Some hpet_32bit_regs; mmap_errno := Eother |}.

(** HPET registers whose main counter holds [0x00000005_80000001]. *)
Definition hpet_regs_low_half_set : region :=
  region_with 240 [Byte.x01; Byte.x00; Byte.x00; Byte.x80;
                   Byte.x05; Byte.x00; Byte.x00; Byte.x00].

(** Three runs that begin with a peak, then steady runs. *)
Definition retry_thrice (k i : nat) : timesStruct :=
  match k with
  | 0%nat | 1%nat | 2%nat => peak_first i
  | _ => steady_trials k i
  end.

(** [getrusage]: 14 ms of user time pass between the two calls of every
    pass of [InitSecPerJiffy]. *)
Definition user_time (n : nat) : Z := if Nat.even n then 0 else 14000.

End Examples.

End HPTimer.

(** * Properties of the embedded code *)

Import HPTimer TimeHardware.

(** ** Proof tools *)

Ltac int64_consts :=
  unfold Int64.in_range, Int64.min, Int64.max, Int64.half_modulus, Int64.modulus,
         ONE_BILLION in *.

Ltac fields :=
  unfold HPTics in *;
  cbn [mSeconds mNSeconds mSign mHPTics mNormalized mInterrupted mCancelled
       set_mSeconds set_mNSeconds set_mSign set_mHPTics set_mNormalized
       set_mInterrupted set_mCancelled fst snd] in *.

(** Reduce the primitives of the [Sleeper] monad where they are applied to a
    thread. *)
Tactic Notation "run" :=
  cbn beta iota zeta delta
      [bind ret raise starve emit interfere update_this store_mCancelled
       store_mInterrupted load_mInterrupted load_mCancelled read_mHPTics RepNop
       GetTimerTics fst snd this timer_calls flag_accesses trace].
Tactic Notation "run" "in" hyp(H) :=
  cbn beta iota zeta delta
      [bind ret raise starve emit interfere update_this store_mCancelled
       store_mInterrupted load_mInterrupted load_mCancelled read_mHPTics RepNop
       GetTimerTics fst snd this timer_calls flag_accesses trace] in H.

Ltac unfold_run :=
  cbv beta iota zeta delta
      [bind ret raise starve emit interfere update_this store_mCancelled
       store_mInterrupted load_mInterrupted load_mCancelled read_mHPTics RepNop
       GetTimerTics Now hybrid_sleep
       fst snd this timer_calls flag_accesses trace].

(** ** Machine integers *)

Lemma Int64_wrap_small : forall z, Int64.in_range z -> Int64.wrap z = z.
Proof.
  intros z [Hlo Hhi]. unfold Int64.wrap. int64_consts.
  rewrite Z.mod_small; lia.
Qed.

Lemma Int64_wrap_high : forall z,
  Int64.half_modulus <= z < Int64.modulus -> Int64.wrap z = z - Int64.modulus.
Proof.
  intros z H. unfold Int64.wrap. int64_consts.
  replace (z + 9223372036854775808)
    with ((z - 9223372036854775808) + 1 * 18446744073709551616) by lia.
  rewrite Z.mod_add by lia. rewrite Z.mod_small; lia.
Qed.

Lemma UInt64_wrap_small : forall z, 0 <= z < Int64.modulus -> UInt64.wrap z = z.
Proof. intros z H. unfold UInt64.wrap. apply Z.mod_small. exact H. Qed.

Lemma UInt64_wrap_range : forall z, 0 <= UInt64.wrap z < Int64.modulus.
Proof. intro z. unfold UInt64.wrap. apply Z.mod_pos_bound. reflexivity. Qed.

Lemma UInt64_add_wrap_l : forall a b, UInt64.add a b = UInt64.add (UInt64.wrap a) b.
Proof. intros. unfold UInt64.add, UInt64.wrap. rewrite Zplus_mod_idemp_l. reflexivity. Qed.

Lemma Int64_sign_bit_neg : forall a, Int64.in_range a -> Int64.sign_bit a = (a <? 0).
Proof.
  intros a [Hlo Hhi]. unfold Int64.sign_bit, Int64.min, Int64.max in *.
  rewrite Z.shiftr_div_pow2 by lia.
  change (2 ^ 63) with 9223372036854775808.
  destruct (Z.ltb_spec a 0).
  - assert (a / 9223372036854775808 = -1) as ->; [|reflexivity].
    symmetry. apply (Z.div_unique a 9223372036854775808 (-1) (a + 9223372036854775808)); lia.
  - rewrite Z.div_small by lia. reflexivity.
Qed.

(** A conversion from [double] always leaves a value an [int64_t] holds. *)
Lemma to_int64_range : forall f, Int64.in_range (Double.to_int64 f).
Proof.
  intro f. unfold Double.to_int64, Int64.in_range.
  destruct (Double.trunc f) as [z|].
  - destruct (Z.leb_spec Int64.min z); destruct (Z.leb_spec z Int64.max); cbn [andb];
      unfold Int64.min, Int64.max in *; lia.
  - unfold Int64.min, Int64.max; lia.
Qed.

Ltac unwrap :=
  repeat match goal with
         | |- context [Int64.wrap ?z] =>
             rewrite (Int64_wrap_small z) by (int64_consts; lia)
         | H : context [Int64.wrap ?z] |- _ =>
             rewrite (Int64_wrap_small z) in H by (int64_consts; lia)
         end.

Ltac compare_all :=
  repeat match goal with
         | |- context [?x >? ?y] => rewrite (Z.gtb_ltb x y)
         | |- context [?x >=? ?y] => rewrite (Z.geb_leb x y)
         end;
  repeat (match goal with
          | |- context [?x <? ?y] => destruct (Z.ltb_spec x y)
          | |- context [?x <=? ?y] => destruct (Z.leb_spec x y)
          end; cbn [andb orb]; unwrap).

(** ** TimeHardware: reading the HPET main counter *)

(** Whatever the register holds, the 64-bit branch of [GetHPETTics] returns
    the sign-extended low half of it. *)
Lemma GetHPETTics_is_low_half : forall m,
  GetHPETTics m = Int32.wrap (load_le 4 m MainCounterOffset).
Proof.
  intro m. unfold GetHPETTics.
  set (x := Int32.wrap _).
  assert (-2147483648 <= x < 2147483648) as Hx.
  { unfold x, Int32.wrap.
    pose proof (Z.mod_pos_bound (load_le 4 m MainCounterOffset + 2147483648)
                                4294967296 ltac:(lia)). lia. }
  unfold Int64.wrap, UInt64.wrap, Int64.half_modulus, Int64.modulus.
  rewrite Zplus_mod_idemp_l.
  rewrite Z.mod_small; lia.
Qed.

Lemma GetHPETTics_fits_32_bits : forall m,
  -2147483648 <= GetHPETTics m < 2147483648.
Proof.
  intro m. rewrite GetHPETTics_is_low_half. unfold Int32.wrap.
  pose proof (Z.mod_pos_bound (load_le 4 m MainCounterOffset + 2147483648)
                              4294967296 ltac:(lia)). lia.
Qed.

(** C1 (the code departs from the claim).  The claim: on 64-bit targets
    [GetHPETTics] returns the full 64-bit value of the main counter
    register at offset [0x0F0].  On HPET registers whose main counter holds
    2^32 the function returns 0: the load goes through an [int32_t]
    pointer, so only the low half is read.  The branch for 32-bit targets
    composes both halves, and [InitHPETTimer] refuses a 32-bit counter. *)
Theorem GetHPETTics_drops_high_half :
  main_counter Examples.hpet_regs = 4294967296
  /\ GetHPETTics Examples.hpet_regs = 0
  /\ GetHPETTics_32bit Examples.hpet_regs = 4294967296.
Proof. repeat split; vm_compute; reflexivity. Qed.

(** ** Range checks of the mutating operations *)

(** [SetTics] stores whatever it is given: its guard holds for every
    argument. *)
Lemma SetTics_always_stores : forall c this x,
  SetTics c this x = (Return tt, set_mNormalized false (set_mHPTics x this)).
Proof.
  intros. unfold SetTics.
  destruct (Z.leb_spec x (HPTics (HPTimer_MAX c))); cbn [orb]; [reflexivity|].
  destruct (Z.geb_spec x (HPTics (HPTimer_MAX c))); [reflexivity|lia].
Qed.

(** C5 (the code departs from the claim).  The claim: [SetTics] raises an
    out-of-range error for every argument outside
    [[HPTimer_MIN.tics, HPTimer_MAX.tics]] and leaves the receiver
    unchanged.  With the HPET bounds (max = int64 max / 120) the call
    [SetTics(int64 max)] returns normally and stores the value: the guard
    [x <= MAX || x >= MAX] cannot fail. *)
Theorem SetTics_accepts_beyond_MAX :
  HPTics (HPTimer_MAX Examples.hpet_statics) = 76861433640456465
  /\ (HPTics (HPTimer_MAX Examples.hpet_statics) <? Int64.max) = true
  /\ SetTics Examples.hpet_statics Examples.zeroed Int64.max
     = (Return tt, set_mHPTics Int64.max Examples.zeroed).
Proof. repeat split; vm_compute; reflexivity. Qed.

(** Addition of two timers: a sum strictly between the bounds is returned,
    a sum beyond a bound throws, and so does a sum that lands on a bound. *)
Lemma operator_plus_inside : forall c raw a b,
  Int64.in_range (HPTics a) -> Int64.in_range (HPTics b) ->
  Int64.in_range (HPTics (HPTimer_MAX c)) -> Int64.in_range (HPTics (HPTimer_MIN c)) ->
  HPTics (HPTimer_MIN c) < HPTics a + HPTics b < HPTics (HPTimer_MAX c) ->
  operator_plus c raw a b
  = Return (set_mNormalized false (set_mHPTics (HPTics a + HPTics b) raw)).
Proof.
  intros c raw a b Ha Hb Hmax Hmin Hsum.
  unfold operator_plus, HighPerTimer_tics, Int64.sub, Int64.add. fields.
  rewrite (Z.gtb_ltb (mHPTics b) 0).
  destruct (Z.ltb_spec 0 (mHPTics b)); destruct (Z.ltb_spec (mHPTics b) 0);
    cbn [andb]; unwrap; compare_all; unwrap; try reflexivity; lia.
Qed.

Lemma operator_plus_outside : forall c raw a b,
  Int64.in_range (HPTics a) -> Int64.in_range (HPTics b) ->
  Int64.in_range (HPTics (HPTimer_MAX c)) -> Int64.in_range (HPTics (HPTimer_MIN c)) ->
  HPTics (HPTimer_MIN c) < 0 < HPTics (HPTimer_MAX c) ->
  HPTics a + HPTics b < HPTics (HPTimer_MIN c)
  \/ HPTics (HPTimer_MAX c) < HPTics a + HPTics b ->
  operator_plus c raw a b = Throw overflow.
Proof.
  intros c raw a b Ha Hb Hmax Hmin Hord Hsum.
  unfold operator_plus, HighPerTimer_tics, Int64.sub, Int64.add. fields.
  rewrite (Z.gtb_ltb (mHPTics b) 0).
  destruct (Z.ltb_spec 0 (mHPTics b)); destruct (Z.ltb_spec (mHPTics b) 0);
    cbn [andb]; unwrap; compare_all; unwrap; try reflexivity; lia.
Qed.

Lemma operator_plus_at_bound : forall c raw a b,
  Int64.in_range (HPTics a) -> Int64.in_range (HPTics b) ->
  Int64.in_range (HPTics (HPTimer_MAX c)) -> Int64.in_range (HPTics (HPTimer_MIN c)) ->
  HPTics b <> 0 ->
  HPTics (HPTimer_MIN c) <= HPTics a <= HPTics (HPTimer_MAX c) ->
  HPTics a + HPTics b = HPTics (HPTimer_MAX c)
  \/ HPTics a + HPTics b = HPTics (HPTimer_MIN c) ->
  operator_plus c raw a b = Throw overflow.
Proof.
  intros c raw a b Ha Hb Hmax Hmin Hnz Hin Hsum.
  unfold operator_plus, HighPerTimer_tics, Int64.sub, Int64.add. fields.
  rewrite (Z.gtb_ltb (mHPTics b) 0).
  destruct (Z.ltb_spec 0 (mHPTics b)); destruct (Z.ltb_spec (mHPTics b) 0);
    cbn [andb]; unwrap; compare_all; unwrap; try reflexivity; lia.
Qed.

(** C4 (the code departs from the claim).  The claim: whenever the tick
    sum lies within [[HPTimer_MIN, HPTimer_MAX]], [(a + b).tics] is
    [a.tics + b.tics].  With the full int64 bounds, [a.tics = MAX - 1] and
    [b.tics = 1] have the sum [MAX], which is within the bounds, and
    [operator+] throws: its guard compares with [<=] where the sibling
    [TicAdd], given the same receiver and one tic, accepts the sum. *)
Theorem operator_plus_rejects_sum_at_MAX :
  HPTics (HPTimer_MIN Examples.os_statics)
    <= HPTics (set_mHPTics (Int64.max - 1) Examples.zeroed)
       + HPTics (set_mHPTics 1 Examples.zeroed)
    <= HPTics (HPTimer_MAX Examples.os_statics)
  /\ operator_plus Examples.os_statics Examples.zeroed
       (set_mHPTics (Int64.max - 1) Examples.zeroed) (set_mHPTics 1 Examples.zeroed)
     = Throw overflow
  /\ TicAdd Examples.os_statics (set_mHPTics (Int64.max - 1) Examples.zeroed) 1
     = (Return tt, set_mHPTics Int64.max Examples.zeroed).
Proof. vm_compute. repeat split; congruence. Qed.

(** [InvertSign]: it throws exactly on the least [int64_t], negates every
    other tick count, and has flipped [mSign] either way. *)
Lemma InvertSign_cases : forall t, Int64.in_range (mHPTics t) ->
  (fst (InvertSign t) = Throw overflow <-> mHPTics t = Int64.min)
  /\ (mHPTics t <> Int64.min ->
      fst (InvertSign t) = Return tt /\ mHPTics (snd (InvertSign t)) = - mHPTics t)
  /\ (mHPTics t = Int64.min -> snd (InvertSign t) = set_mSign (negb (mSign t)) t).
Proof.
  intros t Hr. unfold InvertSign. fields.
  destruct (Z.eqb_spec (mHPTics t) Int64.min) as [E|E]; cbn [negb fst snd].
  - repeat split; auto; try congruence.
  - repeat split; try congruence; try discriminate.
    fields. unfold Int64.mul. rewrite Int64_wrap_small; int64_consts; lia.
Qed.

(** C9 (the code departs from the claim).  The claim: when [InvertSign]
    raises its out-of-range error the receiver is unchanged.  On a
    normalized receiver whose tick count is the least [int64_t] the call
    throws with the tick count kept, but [mSign] has already been flipped:
    the receiver is left normalized with a sign that contradicts its
    tics. *)
Theorem InvertSign_flips_sign_before_throwing :
  mNormalized (Normalize Examples.os_statics (set_mHPTics Int64.min Examples.zeroed)) = true
  /\ mSign (Normalize Examples.os_statics (set_mHPTics Int64.min Examples.zeroed)) = true
  /\ fst (InvertSign (Normalize Examples.os_statics (set_mHPTics Int64.min Examples.zeroed)))
     = Throw overflow
  /\ mHPTics (snd (InvertSign (Normalize Examples.os_statics
                                         (set_mHPTics Int64.min Examples.zeroed))))
     = Int64.min
  /\ mNormalized (snd (InvertSign (Normalize Examples.os_statics
                                             (set_mHPTics Int64.min Examples.zeroed))))
     = true
  /\ mSign (snd (InvertSign (Normalize Examples.os_statics
                                       (set_mHPTics Int64.min Examples.zeroed))))
     = false.
Proof. repeat split; vm_compute; reflexivity. Qed.

(** ** Construction from seconds and nanoseconds *)

(** The magnitude of a component after "bring ints to positive values",
    read as the unsigned operand it becomes. *)
Lemma positive_operand : forall x, Int64.in_range x ->
  UInt64.wrap (if x <? 0 then Int64.mul x (-1) else x) = Z.abs x.
Proof.
  intros x Hx. destruct (Z.ltb_spec x 0).
  - unfold Int64.mul. destruct (Z.eq_dec x Int64.min) as [->|Hne].
    + vm_compute. reflexivity.
    + rewrite Int64_wrap_small by (int64_consts; lia).
      rewrite UInt64_wrap_small by (int64_consts; lia). lia.
  - rewrite UInt64_wrap_small by (int64_consts; lia). lia.
Qed.

Lemma nsec_total_wrap : forall s ns, nsec_total s ns = UInt64.wrap (s * ONE_BILLION + ns).
Proof.
  intros. unfold nsec_total, UInt64.add, UInt64.mul, UInt64.wrap.
  rewrite Zplus_mod_idemp_l. reflexivity.
Qed.

Lemma max_total_bound : forall c, 0 <= max_total c < Int64.modulus.
Proof. intro c. unfold max_total. rewrite nsec_total_wrap. apply UInt64_wrap_range. Qed.

Lemma quotient_bound : forall NS, Int64.in_range NS ->
  0 <= Z.abs NS / ONE_BILLION < 9223372037.
Proof.
  intros NS H. int64_consts.
  split; [apply Z.div_pos | apply Z.div_lt_upper_bound]; lia.
Qed.

(** The seconds member the constructor computes, when it is not negative. *)
Lemma carried_seconds : forall S NS,
  Int64.in_range S -> Int64.in_range NS ->
  (0 >? Int64.wrap (UInt64.add (if S <? 0 then Int64.mul S (-1) else S)
                      (UInt64.wrap (if NS <? 0 then Int64.mul NS (-1) else NS)
                       / ONE_BILLION))) = false ->
  Int64.wrap (UInt64.add (if S <? 0 then Int64.mul S (-1) else S)
                (UInt64.wrap (if NS <? 0 then Int64.mul NS (-1) else NS) / ONE_BILLION))
  = Z.abs S + Z.abs NS / ONE_BILLION.
Proof.
  intros S NS HS HNS.
  rewrite UInt64_add_wrap_l, !positive_operand by assumption.
  pose proof (quotient_bound NS HNS) as Hq.
  unfold UInt64.add.
  rewrite UInt64_wrap_small by (int64_consts; lia).
  destruct (Z_lt_le_dec (Z.abs S + Z.abs NS / ONE_BILLION) Int64.half_modulus) as [Hlt|Hge].
  - rewrite Int64_wrap_small by (int64_consts; lia). reflexivity.
  - rewrite Int64_wrap_high by (int64_consts; lia).
    intro Hpos. exfalso.
    rewrite Z.gtb_ltb in Hpos. apply Z.ltb_ge in Hpos. int64_consts. lia.
Qed.

Lemma nsecs_member : forall NS, Int64.in_range NS ->
  Int64.wrap (UInt64.wrap (if NS <? 0 then Int64.mul NS (-1) else NS) mod ONE_BILLION)
  = Z.abs NS mod ONE_BILLION.
Proof.
  intros NS H. rewrite positive_operand by assumption.
  pose proof (Z.mod_pos_bound (Z.abs NS) ONE_BILLION ltac:(reflexivity)).
  apply Int64_wrap_small. int64_consts. lia.
Qed.

Lemma carried_total : forall S NS,
  (Z.abs S + Z.abs NS / ONE_BILLION) * ONE_BILLION + Z.abs NS mod ONE_BILLION
  = Z.abs S * ONE_BILLION + Z.abs NS.
Proof.
  intros. pose proof (Z.div_mod (Z.abs NS) ONE_BILLION ltac:(discriminate)). lia.
Qed.

(** The constructor once its two checks of the arguments have passed. *)
Lemma sns_legal : forall c raw S NS Sign,
  ((S <? 0) || (NS <? 0)) && Bool.eqb true Sign = false ->
  (NS <? 0) && negb (S =? 0) = false ->
  HighPerTimer_sns c raw S NS Sign =
    let S' := if S <? 0 then Int64.mul S (-1) else S in
    let NS' := if NS <? 0 then Int64.mul NS (-1) else NS in
    let sign := Sign || (S <? 0) || (NS <? 0) in
    let secs := Int64.wrap (UInt64.add S' (UInt64.wrap NS' / ONE_BILLION)) in
    let nsecs := Int64.wrap (UInt64.wrap NS' mod ONE_BILLION) in
    if 0 >? secs then Throw overflow
    else if nsec_total secs nsecs >? max_total c then Throw overflow
    else Return (mkHighPerTimer secs nsecs sign
                   (if sign then Int64.neg (tics_of_total c (nsec_total secs nsecs))
                    else tics_of_total c (nsec_total secs nsecs))
                   true (mInterrupted raw) (mCancelled raw)).
Proof.
  intros c raw S NS Sign H1 H2. unfold HighPerTimer_sns.
  rewrite H1, H2. cbv zeta.
  destruct (S <? 0), (NS <? 0), Sign; cbn [orb andb Bool.eqb] in H1, H2 |- *;
    try discriminate; fields;
    repeat match goal with |- context [if ?b then _ else _] => destruct b end;
    reflexivity.
Qed.

(** C8.  The (Seconds, NSeconds, Sign) constructor throws its
    "illegal init Parameters" error for every argument triple in which a
    component is negative while Sign is true, and for every triple in which
    NSeconds is negative while Seconds is not zero; every other triple whose
    magnitude |Seconds| * 10^9 + |NSeconds| does not exceed that of
    HPTimer_MAX (the range check the constructor makes) is constructed. *)
Theorem HighPerTimer_sns_errors : forall c raw S NS Sign,
  Int64.in_range S -> Int64.in_range NS ->
  ((S < 0 \/ NS < 0) /\ Sign = true ->
     HighPerTimer_sns c raw S NS Sign = Throw illegal_init)
  /\ (NS < 0 /\ S <> 0 ->
     HighPerTimer_sns c raw S NS Sign = Throw illegal_init)
  /\ (~ ((S < 0 \/ NS < 0) /\ Sign = true) -> ~ (NS < 0 /\ S <> 0) ->
      Z.abs S * ONE_BILLION + Z.abs NS <= max_total c ->
      exists t, HighPerTimer_sns c raw S NS Sign = Return t).
Proof.
  intros c raw S NS Sign HS HNS. split; [|split].
  - intros [Hneg ->]. unfold HighPerTimer_sns.
    assert ((S <? 0) || (NS <? 0) = true) as ->; [|reflexivity].
    apply orb_true_iff. destruct Hneg; [left|right]; apply Z.ltb_lt; assumption.
  - intros [Hns Hs]. unfold HighPerTimer_sns.
    destruct (((S <? 0) || (NS <? 0)) && Bool.eqb true Sign); [reflexivity|].
    apply Z.ltb_lt in Hns. apply Z.eqb_neq in Hs. rewrite Hns, Hs. reflexivity.
  - intros Hsign Hmix Hfit.
    pose proof (max_total_bound c) as Hmax.
    pose proof (quotient_bound NS HNS) as Hq.
    rewrite sns_legal.
    + cbv zeta.
      assert (Int64.wrap (UInt64.add (if S <? 0 then Int64.mul S (-1) else S)
                 (UInt64.wrap (if NS <? 0 then Int64.mul NS (-1) else NS) / ONE_BILLION))
              = Z.abs S + Z.abs NS / ONE_BILLION) as ->.
      { rewrite UInt64_add_wrap_l, !positive_operand by assumption.
        unfold UInt64.add.
        assert (Z.abs S * ONE_BILLION < Int64.modulus) by (int64_consts; lia).
        rewrite UInt64_wrap_small by (int64_consts; lia).
        apply Int64_wrap_small. int64_consts. lia. }
      rewrite nsecs_member by assumption.
      rewrite nsec_total_wrap, carried_total.
      rewrite UInt64_wrap_small by (int64_consts; lia).
      assert ((0 >? Z.abs S + Z.abs NS / ONE_BILLION) = false) as ->.
      { rewrite Z.gtb_ltb. apply Z.ltb_ge. int64_consts. lia. }
      assert ((Z.abs S * ONE_BILLION + Z.abs NS >? max_total c) = false) as ->.
      { rewrite Z.gtb_ltb. apply Z.ltb_ge. lia. }
      eexists. reflexivity.
    + destruct Sign; [|apply andb_false_r].
      cbn [Bool.eqb]. rewrite andb_true_r. apply orb_false_iff.
      split; apply Z.ltb_ge; destruct (Z_lt_le_dec S 0), (Z_lt_le_dec NS 0); try lia;
        exfalso; apply Hsign; auto.
    + destruct (Z.ltb_spec NS 0); [|reflexivity].
      destruct (Z.eqb_spec S 0); [reflexivity|]. exfalso. apply Hmix. auto.
Qed.

Lemma HighPerTimer_sns_errors_witness :
  HighPerTimer_sns Examples.hpet_statics Examples.zeroed (-1) 0 true = Throw illegal_init
  /\ HighPerTimer_sns Examples.hpet_statics Examples.zeroed 1 (-5) false = Throw illegal_init
  /\ exists t,
       HighPerTimer_sns Examples.hpet_statics Examples.zeroed (-3) 1500000000 false
       = Return t.
Proof.
  assert (Int64.in_range (-1) /\ Int64.in_range 0 /\ Int64.in_range 1
          /\ Int64.in_range (-5) /\ Int64.in_range (-3)
          /\ Int64.in_range 1500000000) as [R1 [R0 [R1' [R5 [R3 RN]]]]].
  { unfold Int64.in_range, Int64.min, Int64.max. lia. }
  split; [|split].
  - apply (proj1 (HighPerTimer_sns_errors Examples.hpet_statics Examples.zeroed
                    (-1) 0 true R1 R0)).
    split; [left; lia | reflexivity].
  - apply (proj1 (proj2 (HighPerTimer_sns_errors Examples.hpet_statics Examples.zeroed
                           1 (-5) false R1' R5))).
    split; lia.
  - apply (proj2 (proj2 (HighPerTimer_sns_errors Examples.hpet_statics Examples.zeroed
                           (-3) 1500000000 false R3 RN))).
    + intros [_ H]. discriminate H.
    + intros [H _]. lia.
    + vm_compute. discriminate.
Defined.

(** ** The normalized state *)

(** What a successful construction from seconds and nanoseconds leaves. *)
Lemma sns_success : forall c raw S NS Sign t,
  Int64.in_range S -> Int64.in_range NS ->
  HighPerTimer_sns c raw S NS Sign = Return t ->
  mNormalized t = true
  /\ mSeconds t = Z.abs S + Z.abs NS / ONE_BILLION
  /\ mNSeconds t = Z.abs NS mod ONE_BILLION
  /\ mSign t = Sign || (S <? 0) || (NS <? 0)
  /\ mHPTics t =
       (if mSign t then Int64.neg else fun n => n)
         (tics_of_total c (UInt64.wrap (Z.abs S * ONE_BILLION + Z.abs NS))).
Proof.
  intros c raw S NS Sign t HS HNS Hret.
  destruct (((S <? 0) || (NS <? 0)) && Bool.eqb true Sign) eqn:E1.
  { unfold HighPerTimer_sns in Hret. rewrite E1 in Hret. discriminate. }
  destruct ((NS <? 0) && negb (S =? 0)) eqn:E2.
  { unfold HighPerTimer_sns in Hret. rewrite E1, E2 in Hret. discriminate. }
  rewrite sns_legal in Hret by assumption. cbv zeta in Hret.
  destruct (0 >? _) eqn:Epos in Hret; [discriminate|].
  apply carried_seconds in Epos; try assumption.
  rewrite Epos, nsecs_member in Hret by assumption.
  rewrite nsec_total_wrap, carried_total in Hret.
  destruct (_ >? max_total c) in Hret; [discriminate|].
  injection Hret as <-. fields.
  repeat split; try reflexivity.
  destruct (Sign || (S <? 0) || (NS <? 0)); reflexivity.
Qed.

(** What [Normalize] derives on an object that is not normalized yet. *)
Lemma Normalize_fresh : forall c t,
  Int64.in_range (mHPTics t) -> mNormalized t = false ->
  mNormalized (Normalize c t) = true
  /\ mHPTics (Normalize c t) = mHPTics t
  /\ mSign (Normalize c t) = (mHPTics t <? 0)
  /\ (toNSecs c (mHPTics t) <> Int64.min ->
      mSeconds (Normalize c t) * ONE_BILLION + mNSeconds (Normalize c t)
      = Z.abs (toNSecs c (mHPTics t))).
Proof.
  intros c t Hr Hn. unfold Normalize. rewrite Hn. fields.
  repeat split.
  - apply Int64_sign_bit_neg. assumption.
  - intro Hmin.
    pose proof (to_int64_range (PrimFloat.mul (Double.of_Z (mHPTics t)) (NsecPerTic c)))
      as Hn'.
    fold (toNSecs c (mHPTics t)) in Hn'.
    set (n := toNSecs c (mHPTics t)) in *.
    assert ((if Int64.sign_bit n then Int64.abs n else n) = Z.abs n) as ->.
    { rewrite Int64_sign_bit_neg by assumption.
      destruct (Z.ltb_spec n 0); [|lia].
      unfold Int64.abs. apply Int64_wrap_small. int64_consts. lia. }
    rewrite UInt64_wrap_small by (int64_consts; lia).
    pose proof (Z.mod_pos_bound (Z.abs n) ONE_BILLION ltac:(reflexivity)).
    assert (0 <= Z.abs n / ONE_BILLION <= Z.abs n).
    { split; [apply Z.div_pos; int64_consts; lia|].
      apply Z.div_le_upper_bound; int64_consts; lia. }
    rewrite !Int64_wrap_small by (int64_consts; lia).
    pose proof (Z.div_mod (Z.abs n) ONE_BILLION ltac:(discriminate)). lia.
Qed.

(** What a successful [SetTimer] leaves. *)
Lemma SetTimer_success : forall c this S NS Sign t,
  0 <= S <= Int64.max -> 0 <= NS <= Int64.max ->
  SetTimer c this S NS Sign = (Return tt, t) ->
  mNormalized t = true
  /\ mSeconds t = S /\ mNSeconds t = NS /\ mSign t = Sign
  /\ mHPTics t =
       (if mSign t then Int64.neg else fun n => n)
         (tics_of_total c (UInt64.wrap (S * ONE_BILLION + NS))).
Proof.
  intros c this S NS Sign t HS HNS. unfold SetTimer. fields.
  rewrite !Int64_wrap_small by (int64_consts; lia).
  destruct (_ >? _); [discriminate|].
  intro H. injection H as <-. fields. rewrite nsec_total_wrap.
  repeat split. destruct Sign; reflexivity.
Qed.

(** C3 (counterexample to the claim as stated).  Under the HPET
    calibration (69.841279 ns per tic) the constructor call
    [HighPerTimer(0, 50, true)] yields a normalized object with sign true
    and 0 tics, whose cached seconds * 10^9 + nanoseconds is 50 while
    |tics * nanoseconds_per_tick| is 0: the sign is not [tics < 0], and
    the two magnitudes are 50 ns apart. *)
Lemma normalized_constructor_off_by_a_tick :
  exists t,
    HighPerTimer_sns Examples.hpet_statics Examples.zeroed 0 50 true = Return t
    /\ mNormalized t = true
    /\ mSign t = true /\ (mHPTics t <? 0) = false
    /\ mSeconds t * ONE_BILLION + mNSeconds t = 50
    /\ Z.abs (toNSecs Examples.hpet_statics (mHPTics t)) = 0.
Proof.
  exists (mkHighPerTimer 0 50 true 0 true false false).
  vm_compute. repeat split.
Qed.

(** The parts [Normalize] derives are a proper split: the seconds are not
    negative and the nanoseconds lie below one second. *)
Lemma Normalize_parts : forall c t,
  Int64.in_range (mHPTics t) -> mNormalized t = false ->
  toNSecs c (mHPTics t) <> Int64.min ->
  0 <= mSeconds (Normalize c t) /\ 0 <= mNSeconds (Normalize c t) < ONE_BILLION.
Proof.
  intros c t Hr Hn Hmin. unfold Normalize. rewrite Hn. fields.
  pose proof (to_int64_range (PrimFloat.mul (Double.of_Z (mHPTics t)) (NsecPerTic c)))
    as Hn'.
  fold (toNSecs c (mHPTics t)) in Hn'.
  set (n := toNSecs c (mHPTics t)) in *.
  assert ((if Int64.sign_bit n then Int64.abs n else n) = Z.abs n) as ->.
  { rewrite Int64_sign_bit_neg by assumption.
    destruct (Z.ltb_spec n 0); [|lia].
    unfold Int64.abs. apply Int64_wrap_small. int64_consts. lia. }
  rewrite UInt64_wrap_small by (int64_consts; lia).
  pose proof (Z.mod_pos_bound (Z.abs n) ONE_BILLION ltac:(reflexivity)).
  assert (0 <= Z.abs n / ONE_BILLION <= Z.abs n).
  { split; [apply Z.div_pos; int64_consts; lia|].
    apply Z.div_le_upper_bound; int64_consts; lia. }
  rewrite !Int64_wrap_small by (int64_consts; lia). lia.
Qed.

(** C3 (the lazy path against the exact product).  [Normalize] takes the
    product [mHPTics * NsecPerTic] in [double]: the tick count is converted
    to [double] first, and a count of more than 53 bits is rounded by that
    conversion.  With the OS clock (one nanosecond per tic) the count
    1700000000123456789 is cached as 1700000000123456768 ns, 21 ns away
    from the exact product. *)
Lemma Normalize_rounds_in_double :
  NsecPerTic Examples.os_statics = 1%float
  /\ mNormalized (Normalize Examples.os_statics
                    (set_mHPTics 1700000000123456789 Examples.zeroed)) = true
  /\ mHPTics (Normalize Examples.os_statics
                (set_mHPTics 1700000000123456789 Examples.zeroed))
     = 1700000000123456789
  /\ mSeconds (Normalize Examples.os_statics
                 (set_mHPTics 1700000000123456789 Examples.zeroed)) * ONE_BILLION
     + mNSeconds (Normalize Examples.os_statics
                    (set_mHPTics 1700000000123456789 Examples.zeroed))
     = 1700000000123456768.
Proof. vm_compute. repeat split. Qed.

(** C3 (as amended).  The normalized state by the path that set it.
    After [Normalize] on an object that was not normalized: the tics are
    as they were, the sign is [tics < 0], and seconds * 10^9 + nanoseconds
    is the magnitude of [static_cast<int64_t> ( mHPTics * NsecPerTic )] as
    the code computes it, the product being taken in [double] and
    truncated toward zero (that value not being [INT64_MIN]), with seconds
    not negative and nanoseconds below 10^9.  After the (Seconds,
    NSeconds, Sign) constructor or [SetTimer]: the object is marked
    normalized with the caller's components cached, seconds * 10^9 +
    nanoseconds being |Seconds| * 10^9 + |NSeconds|, the sign being Sign
    or set by a negative component, and tics being that magnitude divided
    by (nanoseconds_per_tick + 10^-15), rounded toward zero and negated
    when the sign is set. *)
Theorem normalized_state_by_path : forall c,
  (forall t, Int64.in_range (mHPTics t) -> mNormalized t = false ->
     mNormalized (Normalize c t) = true
     /\ mHPTics (Normalize c t) = mHPTics t
     /\ mSign (Normalize c t) = (mHPTics (Normalize c t) <? 0)
     /\ (Double.to_int64 (PrimFloat.mul (Double.of_Z (mHPTics t)) (NsecPerTic c))
         <> Int64.min ->
         mSeconds (Normalize c t) * ONE_BILLION + mNSeconds (Normalize c t)
         = Z.abs (Double.to_int64
                    (PrimFloat.mul (Double.of_Z (mHPTics t)) (NsecPerTic c)))
         /\ 0 <= mSeconds (Normalize c t)
         /\ 0 <= mNSeconds (Normalize c t) < ONE_BILLION))
  /\ (forall raw S NS Sign t,
        Int64.in_range S -> Int64.in_range NS ->
        HighPerTimer_sns c raw S NS Sign = Return t ->
        mNormalized t = true
        /\ mSeconds t * ONE_BILLION + mNSeconds t = Z.abs S * ONE_BILLION + Z.abs NS
        /\ mSign t = Sign || (S <? 0) || (NS <? 0)
        /\ mHPTics t =
             (if mSign t then Int64.neg else fun n => n)
               (tics_of_total c (UInt64.wrap (Z.abs S * ONE_BILLION + Z.abs NS))))
  /\ (forall this S NS Sign t,
        0 <= S <= Int64.max -> 0 <= NS <= Int64.max ->
        SetTimer c this S NS Sign = (Return tt, t) ->
        mNormalized t = true
        /\ mSeconds t * ONE_BILLION + mNSeconds t = S * ONE_BILLION + NS
        /\ mSign t = Sign
        /\ mHPTics t =
             (if mSign t then Int64.neg else fun n => n)
               (tics_of_total c (UInt64.wrap (S * ONE_BILLION + NS)))).
Proof.
  intro c. split; [|split].
  - intros t Hr Hn. destruct (Normalize_fresh c t Hr Hn) as [H1 [H2 [H3 H4]]].
    fold (toNSecs c (mHPTics t)).
    rewrite H2. repeat split; try assumption; try reflexivity.
    + apply H4. assumption.
    + apply (Normalize_parts c t Hr Hn). assumption.
    + apply (Normalize_parts c t Hr Hn). assumption.
    + apply (Normalize_parts c t Hr Hn). assumption.
  - intros raw S NS Sign t HS HNS Hret.
    destruct (sns_success c raw S NS Sign t HS HNS Hret) as [H1 [H2 [H3 [H4 H5]]]].
    rewrite H2, H3, carried_total. auto.
  - intros this S NS Sign t HS HNS Hret.
    destruct (SetTimer_success c this S NS Sign t HS HNS Hret) as [H1 [H2 [H3 [H4 H5]]]].
    rewrite H2, H3. auto.
Qed.

Lemma normalized_state_by_path_witness :
  (mSign (Normalize Examples.hpet_statics (set_mHPTics (-15) Examples.zeroed)) = true
   /\ mHPTics (Normalize Examples.hpet_statics (set_mHPTics (-15) Examples.zeroed)) = -15
   /\ mSeconds (Normalize Examples.hpet_statics (set_mHPTics (-15) Examples.zeroed))
        * ONE_BILLION
      + mNSeconds (Normalize Examples.hpet_statics (set_mHPTics (-15) Examples.zeroed))
      = 1047)
  /\ (mSeconds (mkHighPerTimer 0 50 true 0 true false false) * ONE_BILLION
      + mNSeconds (mkHighPerTimer 0 50 true 0 true false false)
      = Z.abs 0 * ONE_BILLION + Z.abs 50)
  /\ (mSeconds (mkHighPerTimer 2 7 false 28636359 true false false) * ONE_BILLION
      + mNSeconds (mkHighPerTimer 2 7 false 28636359 true false false)
      = 2 * ONE_BILLION + 7).
Proof.
  destruct (normalized_state_by_path Examples.hpet_statics) as [HN [HC HS]].
  split; [|split].
  - destruct (HN (set_mHPTics (-15) Examples.zeroed)) as [_ [Htics [Hsign Hmag]]].
    + vm_compute. split; discriminate.
    + reflexivity.
    + split; [rewrite Hsign; reflexivity|]. split; [exact Htics|].
      destruct Hmag as [Hmag _]; [|rewrite Hmag; vm_compute; reflexivity].
      intro H. vm_compute in H. discriminate H.
  - apply (HC Examples.zeroed 0 50 true).
    + vm_compute. split; discriminate.
    + vm_compute. split; discriminate.
    + vm_compute. reflexivity.
  - apply (HS Examples.zeroed 2 7 false).
    + vm_compute. split; discriminate.
    + vm_compute. split; discriminate.
    + vm_compute. reflexivity.
Defined.

(** ** Calibration of the TSC frequency *)

(** One run of the TSC branch: it ends by the scan of its samples. *)
Lemma InitHPFrequency_TSC_step : forall fuel measure hpet_regs c,
  HPTimerSource c = TSC ->
  InitHPFrequency (S fuel) measure hpet_regs c =
    match scan (measure O) with
    | ScanAgain =>
        if InitFreqAttempt c <? 3 then
          InitHPFrequency fuel (fun k => measure (S k)) hpet_regs
                          (set_InitFreqAttempt (InitFreqAttempt c + 1) c)
        else (Thrown std_exception, c)
    | ScanEnd _ =>
        (Finished tt,
         set_frequency (mean_of (samples (measure O)))
           (Int64.wrap (round_to_uint64
              (PrimFloat.div 1000%float (mean_of (samples (measure O)))))) c)
    end.
Proof.
  intros fuel measure hpet_regs c Hsrc.
  cbn [InitHPFrequency]. rewrite Hsrc. cbn [TimeSource_eqb]. unfold scan. cbv zeta. reflexivity.
Qed.

Lemma exclude_peak_clean : forall mean stdev rest kept,
  Forall (fun d => is_peak mean stdev d = false) rest ->
  exclude_peak mean stdev kept rest 0 = ScanEnd (kept ++ rest).
Proof.
  induction rest as [|d rest IH]; intros kept Hclean.
  - cbn [exclude_peak]. rewrite app_nil_r. reflexivity.
  - inversion Hclean as [|? ? Hd Hrest]; subst.
    cbn [exclude_peak]. change (0 <? 1) with true. cbv iota.
    rewrite Hd, IH by assumption. rewrite <- app_assoc. reflexivity.
Qed.

Lemma scan_clean : forall trials, no_peak trials -> scan trials = ScanEnd (samples trials).
Proof. intros trials H. unfold scan. cbv zeta. apply (exclude_peak_clean _ _ _ [] H). Qed.

Lemma InitHPFrequency_settles : forall k fuel measure hpet_regs c,
  HPTimerSource c = TSC ->
  0 <= InitFreqAttempt c -> InitFreqAttempt c + Z.of_nat k <= 3 ->
  (k < fuel)%nat ->
  (forall j, (j < k)%nat -> scan (measure j) = ScanAgain) ->
  no_peak (measure k) ->
  InitHPFrequency fuel measure hpet_regs c =
    (Finished tt,
     set_frequency (mean_of (samples (measure k)))
       (Int64.wrap (round_to_uint64
          (PrimFloat.div 1000%float (mean_of (samples (measure k))))))
       (set_InitFreqAttempt (InitFreqAttempt c + Z.of_nat k) c)).
Proof.
  induction k as [|k IH]; intros fuel measure hpet_regs c Hsrc Ha Hk Hfuel Hprev Hclean.
  - destruct fuel as [|fuel]; [lia|].
    rewrite InitHPFrequency_TSC_step by assumption.
    rewrite scan_clean by assumption.
    rewrite Z.add_0_r. destruct c; reflexivity.
  - destruct fuel as [|fuel]; [lia|].
    rewrite InitHPFrequency_TSC_step by assumption.
    rewrite (Hprev O) by lia.
    assert ((InitFreqAttempt c <? 3) = true) as -> by (apply Z.ltb_lt; lia).
    rewrite (IH fuel (fun j => measure (S j)) hpet_regs
                (set_InitFreqAttempt (InitFreqAttempt c + 1) c)).
    + cbn [InitFreqAttempt set_InitFreqAttempt].
      replace (InitFreqAttempt c + 1 + Z.of_nat k)
        with (InitFreqAttempt c + Z.of_nat (S k)) by lia.
      destruct c; reflexivity.
    + destruct c; assumption.
    + cbn [InitFreqAttempt set_InitFreqAttempt]. lia.
    + cbn [InitFreqAttempt set_InitFreqAttempt]. lia.
    + lia.
    + intros j Hj. apply Hprev. lia.
    + assumption.
Qed.

Lemma InitHPFrequency_gives_up : forall n fuel measure hpet_regs c,
  HPTimerSource c = TSC ->
  InitFreqAttempt c + Z.of_nat n = 3 ->
  (n < fuel)%nat ->
  (forall j, (j <= n)%nat -> scan (measure j) = ScanAgain) ->
  InitHPFrequency fuel measure hpet_regs c =
    (Thrown std_exception, set_InitFreqAttempt 3 c).
Proof.
  induction n as [|n IH]; intros fuel measure hpet_regs c Hsrc Ha Hfuel Hall.
  - destruct fuel as [|fuel]; [lia|].
    rewrite InitHPFrequency_TSC_step by assumption.
    rewrite (Hall O) by lia.
    assert ((InitFreqAttempt c <? 3) = false) as -> by (apply Z.ltb_ge; lia).
    replace 3 with (InitFreqAttempt c) by lia. destruct c; reflexivity.
  - destruct fuel as [|fuel]; [lia|].
    rewrite InitHPFrequency_TSC_step by assumption.
    rewrite (Hall O) by lia.
    assert ((InitFreqAttempt c <? 3) = true) as -> by (apply Z.ltb_lt; lia).
    rewrite (IH fuel (fun j => measure (S j)) hpet_regs
                (set_InitFreqAttempt (InitFreqAttempt c + 1) c)).
    + destruct c; reflexivity.
    + destruct c; assumption.
    + cbn [InitFreqAttempt set_InitFreqAttempt]. lia.
    + lia.
    + intros j Hj. apply Hall. lia.
Qed.

(** C2 (counterexample to the claim as stated).  A run whose samples are
    1, 1, 1, 1, 6 ns per tic has exactly one outlier, the last sample; the
    run is accepted and nanoseconds_per_tick becomes 2, the mean of all
    five, not 1, the mean of the remaining four.  A run whose samples are
    6, 1, 1, 1, 1 has exactly one outlier as well, the first sample, and is
    not accepted; when every run reads these samples the calibration gives
    up after the fourth run (three runs do not reach the end), with the
    counter at 3. *)
Lemma calibration_mean_keeps_the_peak :
  samples Examples.peak_last = [1; 1; 1; 1; 6]%float
  /\ map (is_peak (mean_of (samples Examples.peak_last))
                  (stdev_of (mean_of (samples Examples.peak_last))
                            (samples Examples.peak_last)))
         (samples Examples.peak_last)
     = [false; false; false; false; true]
  /\ NsecPerTic (snd (InitHPFrequency 4 (fun _ => Examples.peak_last) Examples.hpet_regs
                         (Examples.statics_at_load TSC (1 / 250)%float 0)))
     = 2%float
  /\ fst (InitHPFrequency 4 (fun _ => Examples.peak_last) Examples.hpet_regs
             (Examples.statics_at_load TSC (1 / 250)%float 0))
     = Finished tt
  /\ mean_of [1; 1; 1; 1]%float = 1%float
  /\ map (is_peak (mean_of (samples Examples.peak_first))
                  (stdev_of (mean_of (samples Examples.peak_first))
                            (samples Examples.peak_first)))
         (samples Examples.peak_first)
     = [true; false; false; false; false]
  /\ scan Examples.peak_first = ScanAgain
  /\ fst (InitHPFrequency 3 (fun _ => Examples.peak_first) Examples.hpet_regs
             (Examples.statics_at_load TSC (1 / 250)%float 0))
     = OutOfFuel
  /\ InitHPFrequency 4 (fun _ => Examples.peak_first) Examples.hpet_regs
       (Examples.statics_at_load TSC (1 / 250)%float 0)
     = (Thrown std_exception,
        set_InitFreqAttempt 3 (Examples.statics_at_load TSC (1 / 250)%float 0)).
Proof. repeat split; vm_compute; reflexivity. Qed.

(** C2 (as amended).  In the TSC calibration, starting with the counter
    [InitFreqAttempt] at 0: a run none of whose five samples deviates from
    their mean by more than 1.7885 times the Bessel-corrected standard
    deviation sets nanoseconds_per_tick to the mean of its five samples,
    whenever it is reached, that is when it is one of the first four runs
    and every run before it was abandoned; and when the first four runs are
    all abandoned the calibration throws, the counter standing at 3: up to
    four runs in total, the first and three retries. *)
Theorem InitHPFrequency_TSC_attempts : forall fuel measure hpet_regs c,
  HPTimerSource c = TSC -> InitFreqAttempt c = 0 -> (4 <= fuel)%nat ->
  (forall k, (k <= 3)%nat ->
     (forall j, (j < k)%nat -> scan (measure j) = ScanAgain) ->
     no_peak (measure k) ->
     exists c',
       InitHPFrequency fuel measure hpet_regs c = (Finished tt, c')
       /\ NsecPerTic c' = mean_of (samples (measure k))
       /\ InitFreqAttempt c' = Z.of_nat k)
  /\ ((forall j, (j <= 3)%nat -> scan (measure j) = ScanAgain) ->
      InitHPFrequency fuel measure hpet_regs c
      = (Thrown std_exception, set_InitFreqAttempt 3 c)).
Proof.
  intros fuel measure hpet_regs c Hsrc Ha Hfuel. split.
  - intros k Hk Hprev Hclean. eexists. split.
    + apply (InitHPFrequency_settles k); try assumption; lia.
    + split; [reflexivity|].
      cbn [InitFreqAttempt set_frequency set_InitFreqAttempt]. lia.
  - intro Hall. apply (InitHPFrequency_gives_up 3%nat); try assumption; lia.
Qed.

Lemma InitHPFrequency_TSC_attempts_witness :
  (exists c',
     InitHPFrequency 4 Examples.retry_once Examples.hpet_regs
       (Examples.statics_at_load TSC (1 / 250)%float 0) = (Finished tt, c')
     /\ NsecPerTic c' = mean_of (samples (Examples.retry_once 1))
     /\ InitFreqAttempt c' = Z.of_nat 1)
  /\ InitHPFrequency 4 (fun _ => Examples.peak_first) Examples.hpet_regs
       (Examples.statics_at_load TSC (1 / 250)%float 0)
     = (Thrown std_exception,
        set_InitFreqAttempt 3 (Examples.statics_at_load TSC (1 / 250)%float 0)).
Proof.
  split.
  - apply (proj1 (InitHPFrequency_TSC_attempts 4 Examples.retry_once Examples.hpet_regs
                    (Examples.statics_at_load TSC (1 / 250)%float 0)
                    eq_refl eq_refl (le_n 4)) 1%nat).
    + lia.
    + intros j Hj. destruct j; [vm_compute; reflexivity | lia].
    + unfold no_peak. cbv zeta. rewrite Forall_forall. intros d Hd.
      vm_compute in Hd.
      repeat (destruct Hd as [<-|Hd]; [vm_compute; reflexivity|]). contradiction.
  - apply (proj2 (InitHPFrequency_TSC_attempts 4 (fun _ => Examples.peak_first)
                    Examples.hpet_regs
                    (Examples.statics_at_load TSC (1 / 250)%float 0)
                    eq_refl eq_refl (le_n 4))).
    intros j _. vm_compute. reflexivity.
Defined.

(** ** The interruptible sleeps *)

Lemma timer_read_spin : forall evs, Forall timer_read evs -> Forall spin_event evs.
Proof.
  intros evs H. induction H as [|e evs He _ IH]; constructor; [|exact IH].
  destruct e; try contradiction; exact I.
Qed.

Lemma landed_alone : forall w n t,
  (forall n, others w n = []) -> landed w n t = t.
Proof. intros w n t H. unfold landed. rewrite H. reflexivity. Qed.

Lemma reads_only_ret : forall A (a : A), reads_only (ret a).
Proof.
  intros A a th. exists []. run. rewrite app_nil_r.
  repeat split; try constructor; discriminate.
Qed.

Lemma reads_only_read_mHPTics : reads_only read_mHPTics.
Proof.
  intros th. exists []. run. rewrite app_nil_r.
  repeat split; try constructor; discriminate.
Qed.

Lemma reads_only_GetTimerTics : forall c w, reads_only (GetTimerTics c w).
Proof.
  intros c w th. exists [EvGetTimerTics (GetTimerTics_on c (hardware w (timer_calls th)))].
  run. repeat split; try discriminate. repeat constructor.
Qed.

Lemma reads_only_bind : forall A B (m : Sleeper A) (k : A -> Sleeper B),
  reads_only m -> (forall a, reads_only (k a)) -> reads_only (bind m k).
Proof.
  intros A B m k Hm Hk th. unfold bind.
  destruct (Hm th) as [evs [Hevs [Htr [Hthis [Hacc Hfuel]]]]].
  destruct (m th) as [[a|e|] th1]; cbn [fst snd] in *.
  - destruct (Hk a th1) as [evs' [Hevs' [Htr' [Hthis' [Hacc' Hfuel']]]]].
    exists (evs ++ evs'). repeat split.
    + apply Forall_app. split; assumption.
    + rewrite Htr', Htr, app_assoc. reflexivity.
    + congruence.
    + congruence.
    + assumption.
  - exists evs. repeat split; try assumption. discriminate.
  - contradiction.
Qed.

Lemma reads_only_Now : forall c w, reads_only (Now c w).
Proof.
  intros c w. unfold Now. apply reads_only_bind; [apply reads_only_GetTimerTics|].
  intro v. destruct (HighPerTimer_tics c (temporary w) v true).
  - apply reads_only_ret.
  - intro th. exists []. run. rewrite app_nil_r.
    repeat split; try constructor; discriminate.
Qed.

Lemma silent_ret : forall A (a : A), silent (ret a).
Proof. intros A a th. exists a. reflexivity. Qed.

Lemma silent_read_then : forall A (f : Z -> A),
  silent (bind read_mHPTics (fun m => ret (f m))).
Proof. intros A f th. eexists. reflexivity. Qed.

Section SleepFacts.
Variable w : World.

(** The coarse-wait block: what it adds to the trace, and that it leaves
    the object alone when nobody else stores to the flags. *)
Lemma coarse_wait_run : forall usec th,
  exists b th',
    coarse_wait w usec th = (Finished tt, th')
    /\ trace th' = trace th ++ coarse_block b usec
    /\ ((forall n, others w n = []) -> mInterrupted (this th) = false ->
        b = false /\ this th' = this th).
Proof.
  intros usec [t tc fa tr]. exists (mInterrupted (landed w fa t)).
  unfold coarse_wait. run. destruct (mInterrupted (landed w fa t)) eqn:Hb; cbn [Bool.eqb]; run;
    eexists; (split; [reflexivity|]); cbn [trace this];
    (split; [unfold coarse_block; cbn [app]; rewrite <- !app_assoc; reflexivity|]).
  - intros Halone Hclear. rewrite landed_alone in Hb by assumption. congruence.
  - intros Halone Hclear. split; [reflexivity|]. apply landed_alone. assumption.
Qed.

(** The polling loop: it adds only reads of the time source, [RepNop]s
    and loads of [mInterrupted]; left alone with [mInterrupted] clear it
    never takes the early [return]. *)
Lemma busy_wait_run : forall again,
  reads_only again ->
  forall fuel Counter th r th',
  busy_wait w fuel again Counter th = (r, th') ->
  exists spin,
    trace th' = trace th ++ spin
    /\ Forall spin_event spin
    /\ ((forall n, others w n = []) -> mInterrupted (this th) = false ->
        r <> Finished EarlyReturn
        /\ (forall b, In (EvLoadInterrupted b) spin -> b = false)).
Proof.
  intros again Hagain.
  induction fuel as [|fuel IH]; intros Counter [t0 tc0 fa0 tr0] r th' Hrun.
  - injection Hrun as <- <-. exists []. cbn [trace]. rewrite app_nil_r.
    split; [reflexivity|]. split; [constructor|].
    intros _ _. split; [discriminate|]. intros b [].
  - cbn [busy_wait] in Hrun. unfold bind at 1 in Hrun.
    destruct (Hagain (mkThread t0 tc0 fa0 tr0)) as [evs [Hevs [Htr [Hthis [Hacc Hfuel]]]]].
    assert (forall b, ~ In (EvLoadInterrupted b) evs) as Hnoload.
    { intros b Hin. rewrite Forall_forall in Hevs. apply (Hevs _ Hin). }
    pose proof (timer_read_spin evs Hevs) as Hevs'.
    destruct (again (mkThread t0 tc0 fa0 tr0)) as [[go|e|] [t1 tc1 fa1 tr1]];
      cbn [fst snd trace this flag_accesses] in *.
    + destruct go.
      * destruct (0 =? Z.land (Int64.add Counter 1) 15).
        -- run in Hrun. destruct (mInterrupted (landed w fa1 t1)) eqn:Hb.
           ++ injection Hrun as <- <-. cbn [trace].
              exists (evs ++ [EvLoadInterrupted true]).
              split; [rewrite Htr, app_assoc; reflexivity|].
              split; [apply Forall_app; split; [assumption|repeat constructor]|].
              intros Halone Hclear. exfalso.
              rewrite landed_alone in Hb by assumption. congruence.
           ++ apply IH in Hrun. destruct Hrun as [spin [Hsp [Hev Hal]]].
              cbn [trace this] in Hsp, Hal.
              exists (evs ++ [EvLoadInterrupted false; EvRepNop] ++ spin).
              split; [rewrite Hsp, Htr; rewrite <- !app_assoc; reflexivity|].
              split; [apply Forall_app; split; [assumption|repeat constructor; assumption]|].
              intros Halone Hclear.
              rewrite landed_alone in Hal by assumption.
              destruct (Hal Halone ltac:(congruence)) as [Hne Hloads].
              split; [assumption|].
              intros b Hin. apply in_app_or in Hin. destruct Hin as [Hin|Hin].
              ** exfalso. apply (Hnoload _ Hin).
              ** destruct Hin as [Hin|[Hin|Hin]]; [congruence|discriminate|].
                 apply Hloads. assumption.
        -- run in Hrun. apply IH in Hrun. destruct Hrun as [spin [Hsp [Hev Hal]]].
           cbn [trace this] in Hsp, Hal.
           exists (evs ++ [EvRepNop] ++ spin).
           split; [rewrite Hsp, Htr; rewrite <- !app_assoc; reflexivity|].
           split; [apply Forall_app; split; [assumption|repeat constructor; assumption]|].
           intros Halone Hclear.
           destruct (Hal Halone ltac:(congruence)) as [Hne Hloads].
           split; [assumption|].
           intros b Hin. apply in_app_or in Hin. destruct Hin as [Hin|Hin].
           ++ exfalso. apply (Hnoload _ Hin).
           ++ destruct Hin as [Hin|Hin]; [discriminate|]. apply Hloads. assumption.
      * injection Hrun as <- <-. exists evs. cbn [trace].
        split; [assumption|]. split; [assumption|].
        intros _ _. split; [discriminate|].
        intros b Hin. exfalso. apply (Hnoload _ Hin).
    + injection Hrun as <- <-. exists evs. cbn [trace].
      split; [assumption|]. split; [assumption|].
      intros _ _. split; [discriminate|].
      intros b Hin. exfalso. apply (Hnoload _ Hin).
    + contradiction.
Qed.
End SleepFacts.

Lemma bind_run : forall A B (m : Sleeper A) (k : A -> Sleeper B) th,
  bind m k th =
    match m th with
    | (Finished a, th') => k a th'
    | (Thrown e, th') => (Thrown e, th')
    | (OutOfFuel, th') => (OutOfFuel, th')
    end.
Proof. reflexivity. Qed.

Lemma coarse_block_loads : forall b usec b',
  In (EvLoadInterrupted b') (coarse_block b usec) -> b' = b.
Proof.
  intros b usec b' Hin. unfold coarse_block in Hin. cbn [app] in Hin.
  destruct Hin as [Hin|[Hin|Hin]]; [discriminate|congruence|].
  destruct b; cbn [app] in Hin;
    repeat (destruct Hin as [Hin|Hin]; [discriminate|]); contradiction.
Qed.

Lemma hybrid_sleep_run :
  forall (D : Type) w fuel (deadline : Sleeper D)
         (decide : D -> Sleeper (option Z)) (again : D -> Sleeper bool),
  reads_only deadline ->
  (forall d, silent (decide d)) ->
  (forall d, reads_only (again d)) ->
  forall th r th',
  hybrid_sleep w fuel deadline decide again th = (r, th') ->
  exists evs,
    trace th' = trace th ++ evs
    /\ sleep_trace r evs
    /\ ((forall n, others w n = []) ->
        r <> Finished EarlyReturn
        /\ (forall b, In (EvLoadInterrupted b) evs -> b = false)).
Proof.
  intros D w fuel deadline decide again Hdeadline Hdecide Hagain [t0 tc0 fa0 tr0] r th' Hrun.
  unfold hybrid_sleep in Hrun. run in Hrun. rewrite bind_run in Hrun.
  match type of Hrun with
  | context [deadline ?th1] =>
      destruct (Hdeadline th1) as [reads [Hreads [Htr [Hthis [Hacc Hfuel]]]]];
      destruct (deadline th1) as [[d|e|] [t1 tc1 fa1 tr1]]
  end; cbn [fst snd trace this flag_accesses] in *.
  - (* the deadline is known *)
    assert (forall b, ~ In (EvLoadInterrupted b) reads) as Hnoload.
    { intros b Hin. rewrite Forall_forall in Hreads. apply (Hreads _ Hin). }
    run in Hrun. rewrite bind_run in Hrun.
    match type of Hrun with
    | context [decide d ?th2] =>
        destruct (Hdecide d th2) as [usec Hsilent]; rewrite Hsilent in Hrun
    end.
    rewrite bind_run in Hrun.
    destruct usec as [usec|].
    + match type of Hrun with
      | context [coarse_wait w usec ?th2] =>
          destruct (coarse_wait_run w usec th2) as [b [th3 [Hcoarse [Htr3 Hal3]]]];
          rewrite Hcoarse in Hrun
      end.
      cbn [trace this] in Htr3, Hal3.
      apply (busy_wait_run w (again d) (Hagain d)) in Hrun.
      destruct Hrun as [spin [Hsp [Hspin Hal]]].
      exists (EvStoreCancelled false :: reads
                ++ EvStoreInterrupted false :: coarse_block b usec ++ spin).
      split.
      { rewrite Hsp, Htr3, Htr. rewrite <- !app_assoc. reflexivity. }
      split.
      { apply trace_run; try assumption. right. exists b, usec. reflexivity. }
      intros Halone.
      destruct (Hal3 Halone) as [Hb Hsame].
      { rewrite landed_alone by assumption. reflexivity. }
      destruct (Hal Halone) as [Hne Hloads].
      { rewrite Hsame, landed_alone by assumption. reflexivity. }
      split; [assumption|].
      intros b' Hin. destruct Hin as [Hin|Hin]; [discriminate|].
      apply in_app_or in Hin. destruct Hin as [Hin|Hin]; [exfalso; apply (Hnoload _ Hin)|].
      destruct Hin as [Hin|Hin]; [discriminate|].
      apply in_app_or in Hin. destruct Hin as [Hin|Hin].
      * apply coarse_block_loads in Hin. congruence.
      * apply Hloads. assumption.
    + apply (busy_wait_run w (again d) (Hagain d)) in Hrun.
      destruct Hrun as [spin [Hsp [Hspin Hal]]].
      cbn [trace this] in Hsp, Hal.
      exists (EvStoreCancelled false :: reads ++ EvStoreInterrupted false :: [] ++ spin).
      split.
      { rewrite Hsp, Htr. cbn [app]. rewrite <- !app_assoc. reflexivity. }
      split.
      { apply trace_run; try assumption. left. reflexivity. }
      intros Halone.
      destruct (Hal Halone) as [Hne Hloads].
      { rewrite landed_alone by assumption. reflexivity. }
      split; [assumption|].
      intros b' Hin. destruct Hin as [Hin|Hin]; [discriminate|].
      apply in_app_or in Hin. destruct Hin as [Hin|Hin]; [exfalso; apply (Hnoload _ Hin)|].
      destruct Hin as [Hin|Hin]; [discriminate|].
      apply Hloads. assumption.
  - (* Now() threw *)
    injection Hrun as <- <-. cbn [trace].
    exists (EvStoreCancelled false :: reads).
    split; [rewrite Htr, <- app_assoc; reflexivity|].
    split; [apply trace_thrown; assumption|].
    intros _. split; [discriminate|].
    intros b Hin. destruct Hin as [Hin|Hin]; [discriminate|].
    exfalso. rewrite Forall_forall in Hreads. apply (Hreads _ Hin).
  - contradiction.
Qed.

Ltac hybrid_instance :=
  intros;
  match goal with th : Thread |- _ => destruct th end;
  unfold_run;
  repeat (match goal with
          | |- context [match ?X with Return _ => _ | Throw _ => _ end] => destruct X
          end; unfold_run);
  repeat match goal with
         | |- context [if ?b then _ else _] => destruct b
         end;
  reflexivity.

Lemma USecSleep_hybrid : forall c w fuel USeconds th,
  USecSleep c w fuel USeconds th =
  hybrid_sleep w fuel (GetTimerTics c w)
    (fun _ =>
       ret (if USeconds >=? Double.to_uint64 (PrimFloat.mul (HPJiffies c) (Double.of_Z 1000000))
            then Some (Int64.wrap (UInt64.sub USeconds
                        (Double.to_uint64 (PrimFloat.mul (HPJiffies c) (Double.of_Z 1000000)))))
            else None))
    (fun now =>
       bind (GetTimerTics c w)
         (fun t => ret (t <? Double.to_int64
                               (PrimFloat.add (Double.of_Z now)
                                  (PrimFloat.div (Double.of_Z (UInt64.mul USeconds 1000))
                                                 (NsecPerTic c))))))
    th.
Proof. unfold USecSleep. hybrid_instance. Qed.

Lemma NSecSleep_hybrid : forall c w fuel NSeconds_ th,
  NSecSleep c w fuel NSeconds_ th =
  hybrid_sleep w fuel (GetTimerTics c w)
    (fun _ =>
       ret (if NSeconds_ >=? UInt64.wrap (BusyNSeconds c)
            then Some (Int64.wrap (UInt64.sub NSeconds_ (UInt64.wrap (BusyNSeconds c)) / 1000))
            else None))
    (fun now =>
       bind (GetTimerTics c w)
         (fun t => ret (t <? Double.to_int64
                               (PrimFloat.add (Double.of_Z now)
                                  (PrimFloat.div (Double.of_Z NSeconds_) (NsecPerTic c))))))
    th.
Proof. unfold NSecSleep. hybrid_instance. Qed.

Lemma TicsSleep_hybrid : forall c w fuel HPTics_ th,
  TicsSleep c w fuel HPTics_ th =
  hybrid_sleep w fuel (GetTimerTics c w)
    (fun _ =>
       bind read_mHPTics
         (fun mHPTics_ =>
            ret (if TicsSleep_guard c mHPTics_ HPTics_
                 then Some (Z.quot (Int64.sub
                                      (Double.to_int64
                                         (PrimFloat.mul (Double.of_Z HPTics_) (NsecPerTic c)))
                                      (BusyNSeconds c)) 1000)
                 else None)))
    (fun now =>
       bind (GetTimerTics c w)
         (fun t => ret (t <? Int64.wrap (UInt64.add now HPTics_))))
    th.
Proof. unfold TicsSleep. hybrid_instance. Qed.

Lemma SleepTo_hybrid : forall c w fuel WakeHPTimer th,
  SleepTo c w fuel WakeHPTimer th =
  hybrid_sleep w fuel (GetTimerTics c w)
    (fun now =>
       ret (if (SysNSeconds_of c WakeHPTimer now >? 0)
               && (SysNSeconds_of c WakeHPTimer now >=? BusyNSeconds c)
            then Some (Z.quot (Int64.sub (SysNSeconds_of c WakeHPTimer now) (BusyNSeconds c)) 1000)
            else None))
    (fun _ => bind (GetTimerTics c w) (fun t => ret (t <? WakeHPTimer)))
    th.
Proof. unfold SleepTo, SysNSeconds_of. hybrid_instance. Qed.

Lemma SleepTo_timer_hybrid : forall c w fuel WaitTo th,
  SleepTo_timer c w fuel WaitTo th =
  hybrid_sleep w fuel (Now c w)
    (fun now =>
       ret (if (SysNSeconds_of c (mHPTics WaitTo) (HPTics now) >? 0)
               && (SysNSeconds_of c (mHPTics WaitTo) (HPTics now) >=? BusyNSeconds c)
            then Some (Z.quot (Int64.sub (SysNSeconds_of c (mHPTics WaitTo) (HPTics now))
                                         (BusyNSeconds c)) 1000)
            else None))
    (fun _ => bind (Now c w) (fun t => ret (mHPTics t <? mHPTics WaitTo)))
    th.
Proof. unfold SleepTo_timer, SysNSeconds_of. hybrid_instance. Qed.

Lemma SleepToThis_hybrid : forall c w fuel th,
  SleepToThis c w fuel th =
  hybrid_sleep w fuel
    (bind (Now c w) (fun now => bind read_mHPTics (fun m => ret (now, m))))
    (fun d =>
       ret (if (SysNSeconds_of c (snd d) (HPTics (fst d)) >? 0)
               && (SysNSeconds_of c (snd d) (HPTics (fst d)) >=? BusyNSeconds c)
            then Some (Z.quot (Int64.sub (SysNSeconds_of c (snd d) (HPTics (fst d)))
                                         (BusyNSeconds c)) 1000)
            else None))
    (fun d => bind (Now c w) (fun t => ret (HPTics t <? snd d)))
    th.
Proof. unfold SleepToThis, SysNSeconds_of. hybrid_instance. Qed.

Lemma Sleep_hybrid : forall c w fuel th,
  Sleep c w fuel th =
  hybrid_sleep w fuel
    (bind (GetTimerTics c w) (fun now => bind read_mHPTics (fun m => ret (now, m))))
    (fun d =>
       ret (if (snd d >? 0)
               && Double.geb (PrimFloat.mul (Double.of_Z (snd d)) (NsecPerTic c))
                             (Double.of_Z (BusyNSeconds c))
            then Some (Z.quot (Int64.sub
                                 (Double.to_int64
                                    (PrimFloat.mul (Double.of_Z (snd d)) (NsecPerTic c)))
                                 (BusyNSeconds c)) 1000)
            else None))
    (fun d => bind (GetTimerTics c w) (fun t => ret (t <? Int64.add (fst d) (snd d))))
    th.
Proof. unfold Sleep. hybrid_instance. Qed.

Lemma reads_only_with_mHPTics : forall A (m : Sleeper A),
  reads_only m ->
  reads_only (bind m (fun now => bind read_mHPTics (fun t => ret (now, t)))).
Proof.
  intros A m H. apply reads_only_bind; [assumption|]. intro a.
  apply reads_only_bind; [apply reads_only_read_mHPTics|]. intro t. apply reads_only_ret.
Qed.

(** Every sleep entry point leaves a trace of the shape [sleep_trace], and
    is not cut short when no other thread stores to the flags. *)
Lemma sleep_run : forall c w fuel call th r th',
  sleep c w fuel call th = (r, th') ->
  exists evs,
    trace th' = trace th ++ evs
    /\ sleep_trace r evs
    /\ ((forall n, others w n = []) ->
        r <> Finished EarlyReturn
        /\ (forall b, In (EvLoadInterrupted b) evs -> b = false)).
Proof.
  intros c w fuel call th r th' Hrun. destruct call; cbn [sleep] in Hrun.
  - rewrite USecSleep_hybrid in Hrun.
    eapply hybrid_sleep_run; [| | |exact Hrun].
    + apply reads_only_GetTimerTics.
    + intro d. apply silent_ret.
    + intro d. apply reads_only_bind; [apply reads_only_GetTimerTics|].
      intro t. apply reads_only_ret.
  - rewrite NSecSleep_hybrid in Hrun.
    eapply hybrid_sleep_run; [| | |exact Hrun].
    + apply reads_only_GetTimerTics.
    + intro d. apply silent_ret.
    + intro d. apply reads_only_bind; [apply reads_only_GetTimerTics|].
      intro t. apply reads_only_ret.
  - rewrite TicsSleep_hybrid in Hrun.
    eapply hybrid_sleep_run; [| | |exact Hrun].
    + apply reads_only_GetTimerTics.
    + intro d. apply silent_read_then.
    + intro d. apply reads_only_bind; [apply reads_only_GetTimerTics|].
      intro t. apply reads_only_ret.
  - rewrite SleepTo_hybrid in Hrun.
    eapply hybrid_sleep_run; [| | |exact Hrun].
    + apply reads_only_GetTimerTics.
    + intro d. apply silent_ret.
    + intro d. apply reads_only_bind; [apply reads_only_GetTimerTics|].
      intro t. apply reads_only_ret.
  - rewrite SleepTo_timer_hybrid in Hrun.
    eapply hybrid_sleep_run; [| | |exact Hrun].
    + apply reads_only_Now.
    + intro d. apply silent_ret.
    + intro d. apply reads_only_bind; [apply reads_only_Now|].
      intro t. apply reads_only_ret.
  - rewrite SleepToThis_hybrid in Hrun.
    eapply hybrid_sleep_run; [| | |exact Hrun].
    + apply reads_only_with_mHPTics. apply reads_only_Now.
    + intro d. apply silent_ret.
    + intro d. apply reads_only_bind; [apply reads_only_Now|].
      intro t. apply reads_only_ret.
  - rewrite Sleep_hybrid in Hrun.
    eapply hybrid_sleep_run; [| | |exact Hrun].
    + apply reads_only_with_mHPTics. apply reads_only_GetTimerTics.
    + intro d. apply silent_ret.
    + intro d. apply reads_only_bind; [apply reads_only_GetTimerTics|].
      intro t. apply reads_only_ret.
Qed.






(** A list in which an element stands once splits around it in one way. *)
Lemma split_at_only : forall (a : Event) p s p' s',
  ~ In a p -> ~ In a s ->
  p ++ a :: s = p' ++ a :: s' -> p = p' /\ s = s'.
Proof.
  intros a p. induction p as [|x p IH]; intros s p' s' Hp Hs Heq.
  - destruct p' as [|y p'].
    + injection Heq as <-. split; reflexivity.
    + cbn [app] in Heq. injection Heq as <- ->.
      exfalso. apply Hs. apply in_or_app. right. left. reflexivity.
  - destruct p' as [|y p'].
    + cbn [app] in Heq. injection Heq as -> _.
      exfalso. apply Hp. left. reflexivity.
    + cbn [app] in Heq. injection Heq as <- Heq.
      destruct (IH s p' s') as [-> ->]; try assumption.
      * intro Hin. apply Hp. right. assumption.
      * split; reflexivity.
Qed.

Lemma no_lock_in_reads : forall evs, Forall timer_read evs -> ~ In EvLock evs.
Proof. intros evs H Hin. rewrite Forall_forall in H. apply (H _ Hin). Qed.

Lemma no_lock_in_spin : forall evs, Forall spin_event evs -> ~ In EvLock evs.
Proof. intros evs H Hin. rewrite Forall_forall in H. apply (H _ Hin). Qed.

(** C7 (counterexample to the claim as stated).  [USecSleep(10000)] with a
    4 ms jiffy, another thread storing [mInterrupted = true] after the
    sleeper has cleared the flag and before it takes the mutex: the sleeper
    finds the flag set under the mutex, stores [mCancelled = true], and
    then calls [wait_for] with the full 6000 microseconds all the same. *)
Lemma USecSleep_waits_although_interrupted :
  trace (snd (USecSleep Examples.os_statics Examples.interrupted_before_lock 10 10000
                (Examples.fresh_thread Examples.zeroed)))
  = [EvStoreCancelled false; EvGetTimerTics 0; EvStoreInterrupted false;
     EvLock; EvLoadInterrupted true; EvStoreCancelled true; EvWaitFor 6000; EvUnlock;
     EvGetTimerTics 3000000; EvRepNop; EvGetTimerTics 6000000; EvRepNop;
     EvGetTimerTics 9000000; EvRepNop; EvGetTimerTics 12000000].
Proof. vm_compute. reflexivity. Qed.

(** C7 (as amended).  In every sleep entry point, when [mInterrupted] is
    found set under the process-wide mutex before the coarse wait, the
    sleep stores [mCancelled = true] and then still performs the timed
    wait on the condition variable; after the wait it releases the mutex
    and goes on to the polling loop. *)
Theorem sleep_waits_although_interrupted : forall c w fuel call th pre post,
  trace (snd (sleep c w fuel call th))
  = trace th ++ pre ++ EvLock :: EvLoadInterrupted true :: post ->
  exists usec spin,
    post = EvStoreCancelled true :: EvWaitFor usec :: EvUnlock :: spin
    /\ Forall spin_event spin.
Proof.
  intros c w fuel call th pre post Htrace.
  destruct (sleep c w fuel call th) as [r th'] eqn:Hrun.
  apply sleep_run in Hrun. destruct Hrun as [evs [Htr [Hshape _]]].
  cbn [snd] in Htrace. rewrite Htr in Htrace. apply app_inv_head in Htrace.
  assert (In EvLock evs) as Hlock.
  { rewrite Htrace. apply in_or_app. right. left. reflexivity. }
  destruct Hshape as [e reads Hreads | r reads coarse spin Hreads Hcoarse Hspin].
  - exfalso. destruct Hlock as [Hin|Hin]; [discriminate|].
    apply (no_lock_in_reads reads Hreads Hin).
  - destruct Hcoarse as [-> | [b [usec ->]]].
    + exfalso. destruct Hlock as [Hin|Hin]; [discriminate|].
      apply in_app_or in Hin. destruct Hin as [Hin|[Hin|Hin]].
      * apply (no_lock_in_reads reads Hreads Hin).
      * discriminate.
      * apply (no_lock_in_spin spin Hspin Hin).
    + assert (EvStoreCancelled false
                :: reads ++ EvStoreInterrupted false :: coarse_block b usec ++ spin
              = (EvStoreCancelled false :: reads ++ [EvStoreInterrupted false])
                  ++ EvLock
                  :: EvLoadInterrupted b
                  :: ((if b then [EvStoreCancelled true] else [])
                        ++ [EvWaitFor usec; EvUnlock]) ++ spin) as Hevs.
      { unfold coarse_block. cbn [app]. rewrite <- !app_assoc. reflexivity. }
      rewrite Hevs in Htrace.
      apply split_at_only in Htrace.
      * destruct Htrace as [_ Hpost]. injection Hpost as Hb Hpost.
        subst b. cbn [app] in Hpost. exists usec, spin.
        split; [symmetry; assumption|assumption].
      * intros [Hin|Hin]; [discriminate|].
        apply in_app_or in Hin. destruct Hin as [Hin|[Hin|Hin]].
        -- apply (no_lock_in_reads reads Hreads Hin).
        -- discriminate.
        -- contradiction.
      * intros [Hin|Hin]; [discriminate|].
        apply in_app_or in Hin. destruct Hin as [Hin|Hin].
        -- destruct b; cbn [app] in Hin;
             repeat (destruct Hin as [Hin|Hin]; [discriminate|]); contradiction.
        -- apply (no_lock_in_spin spin Hspin Hin).
Qed.

Lemma sleep_waits_although_interrupted_witness :
  exists usec spin,
    [EvStoreCancelled true; EvWaitFor 6000; EvUnlock;
     EvGetTimerTics 3000000; EvRepNop; EvGetTimerTics 6000000; EvRepNop;
     EvGetTimerTics 9000000; EvRepNop; EvGetTimerTics 12000000]
    = EvStoreCancelled true :: EvWaitFor usec :: EvUnlock :: spin
    /\ Forall spin_event spin.
Proof.
  apply (sleep_waits_although_interrupted
           Examples.os_statics Examples.interrupted_before_lock 10 (CallUSecSleep 10000)
           (Examples.fresh_thread Examples.zeroed)
           [EvStoreCancelled false; EvGetTimerTics 0; EvStoreInterrupted false]).
  vm_compute. reflexivity.
Defined.

(** [TicsSleep] on a receiver whose own tick count is not positive never
    takes the coarse wait, whatever interval is asked for. *)
Lemma TicsSleep_guard_needs_positive_receiver : forall c mHPTics_ HPTics_,
  mHPTics_ <= 0 -> TicsSleep_guard c mHPTics_ HPTics_ = false.
Proof.
  intros c m k Hm. unfold TicsSleep_guard.
  rewrite Z.gtb_ltb. destruct (Z.ltb_spec 0 m); [lia|reflexivity].
Qed.

(** C6 (the code departs from the claim).  The claim: [TicsSleep(HPTics)]
    enters the coarse wait if and only if HPTics * nanoseconds_per_tick is
    at least jiffy_seconds * 10^9, whatever the receiver's own tick value.
    With 1 ns per tic and a 4 ms jiffy, [TicsSleep(10000000)] asks for
    10 ms: on a receiver holding 0 tics the mutex is never taken and
    [wait_for] never called, on a receiver holding 1 tic the same call
    waits 6000 microseconds.  The guard reads [mHPTics > 0], as the guard
    of [Sleep()] does, where the interval is the argument. *)
Theorem TicsSleep_guard_reads_receiver :
  Double.geb (PrimFloat.mul (Double.of_Z 10000000) (NsecPerTic Examples.os_statics))
             (Double.of_Z (BusyNSeconds Examples.os_statics))
  = true
  /\ trace (snd (TicsSleep Examples.os_statics Examples.alone 10 10000000
                   (Examples.fresh_thread Examples.zeroed)))
     = [EvStoreCancelled false; EvGetTimerTics 0; EvStoreInterrupted false;
        EvGetTimerTics 3000000; EvRepNop; EvGetTimerTics 6000000; EvRepNop;
        EvGetTimerTics 9000000; EvRepNop; EvGetTimerTics 12000000]
  /\ trace (snd (TicsSleep Examples.os_statics Examples.alone 10 10000000
                   (Examples.fresh_thread (set_mHPTics 1 Examples.zeroed))))
     = [EvStoreCancelled false; EvGetTimerTics 0; EvStoreInterrupted false;
        EvLock; EvLoadInterrupted false; EvWaitFor 6000; EvUnlock;
        EvGetTimerTics 3000000; EvRepNop; EvGetTimerTics 6000000; EvRepNop;
        EvGetTimerTics 9000000; EvRepNop; EvGetTimerTics 12000000].
Proof. repeat split; vm_compute; reflexivity. Qed.

(** * More of the library *)

(** ** Machine integers, continued *)

Lemma Int64_wrap_UInt64_wrap : forall z, Int64.wrap (UInt64.wrap z) = Int64.wrap z.
Proof.
  intro z. unfold Int64.wrap, UInt64.wrap.
  rewrite Zplus_mod_idemp_l. reflexivity.
Qed.

Ltac sign_cases b :=
  rewrite ?(Z.gtb_ltb b 0);
  destruct (Z.ltb_spec 0 b); destruct (Z.ltb_spec b 0); cbn [andb]; try lia.

(** Decide a comparison of closed integer terms. *)
Ltac evaluate := vm_compute; repeat split; discriminate.

(** ** Comparison and tick arithmetic *)

(** The six comparison operators order timers by their tick counts and by
    nothing else. *)
Lemma comparisons_order_tics : forall a b,
  (operator_lt a b = true \/ operator_eq a b = true \/ operator_gt a b = true)
  /\ (operator_lt a b = true -> operator_eq a b = false /\ operator_gt a b = false)
  /\ (operator_eq a b = true -> operator_gt a b = false)
  /\ operator_le a b = negb (operator_gt a b)
  /\ operator_ge a b = negb (operator_lt a b)
  /\ operator_ne a b = negb (operator_eq a b)
  /\ operator_gt a b = operator_lt b a
  /\ (operator_eq a b = true <-> HPTics a = HPTics b).
Proof.
  intros a b.
  unfold operator_lt, operator_eq, operator_gt, operator_le, operator_ge, operator_ne, HPTics.
  rewrite Z.gtb_ltb, Z.geb_leb.
  destruct (Z.ltb_spec (mHPTics a) (mHPTics b));
    destruct (Z.eqb_spec (mHPTics a) (mHPTics b));
    destruct (Z.ltb_spec (mHPTics b) (mHPTics a));
    destruct (Z.leb_spec (mHPTics a) (mHPTics b));
    destruct (Z.leb_spec (mHPTics b) (mHPTics a));
    cbn [negb]; try lia; intuition (try congruence; try lia).
Qed.

(** [TicAdd] and [TicSub] with the wrap-around of their guards removed. *)
Lemma TicAdd_unwrapped : forall c this Tics,
  Int64.in_range (mHPTics this) ->
  Int64.in_range (HPTics (HPTimer_MAX c)) ->
  0 <= Tics -> Int64.min <= HPTics (HPTimer_MAX c) - Tics ->
  TicAdd c this Tics =
    if mHPTics this + Tics <=? HPTics (HPTimer_MAX c)
    then (Return tt, set_mNormalized false (set_mHPTics (mHPTics this + Tics) this))
    else (Throw overflow, this).
Proof.
  intros c this Tics Hm Hmax Hpos Hfit.
  unfold TicAdd, UInt64.sub, UInt64.add. rewrite !Int64_wrap_UInt64_wrap. fields.
  rewrite (Int64_wrap_small (mHPTics (HPTimer_MAX c) - Tics)) by (int64_consts; lia).
  rewrite Z.geb_leb.
  destruct (Z.leb_spec (mHPTics this) (mHPTics (HPTimer_MAX c) - Tics));
    destruct (Z.leb_spec (mHPTics this + Tics) (mHPTics (HPTimer_MAX c))); try lia.
  - rewrite Int64_wrap_small by (int64_consts; lia). reflexivity.
  - reflexivity.
Qed.

Lemma TicSub_unwrapped : forall c this Tics,
  Int64.in_range (mHPTics this) ->
  Int64.in_range (HPTics (HPTimer_MIN c)) ->
  0 <= Tics -> HPTics (HPTimer_MIN c) + Tics <= Int64.max ->
  TicSub c this Tics =
    if HPTics (HPTimer_MIN c) <=? mHPTics this - Tics
    then (Return tt, set_mNormalized false (set_mHPTics (mHPTics this - Tics) this))
    else (Throw overflow, this).
Proof.
  intros c this Tics Hm Hmin Hpos Hfit.
  unfold TicSub, UInt64.sub, UInt64.add. rewrite !Int64_wrap_UInt64_wrap. fields.
  rewrite (Int64_wrap_small (mHPTics (HPTimer_MIN c) + Tics)) by (int64_consts; lia).
  destruct (Z.leb_spec (mHPTics (HPTimer_MIN c) + Tics) (mHPTics this));
    destruct (Z.leb_spec (mHPTics (HPTimer_MIN c)) (mHPTics this - Tics)); try lia.
  - rewrite Int64_wrap_small by (int64_consts; lia). reflexivity.
  - reflexivity.
Qed.

(** X1.  [TicAdd] adds exactly and its bound is inclusive: for
    [Tics >= 0] with [HPTimer_MAX - Tics] a value of [int64_t], the call
    returns exactly when [mHPTics + Tics <= HPTimer_MAX], and then the receiver
    holds the sum and is marked not normalized; otherwise it throws
    "HPTimer overflow" and the receiver is as it was. *)
Theorem TicAdd_exact : forall c this Tics,
  Int64.in_range (mHPTics this) ->
  Int64.in_range (HPTics (HPTimer_MAX c)) ->
  0 <= Tics -> Int64.min <= HPTics (HPTimer_MAX c) - Tics ->
  (mHPTics this + Tics <= HPTics (HPTimer_MAX c) ->
     TicAdd c this Tics
     = (Return tt, set_mNormalized false (set_mHPTics (mHPTics this + Tics) this)))
  /\ (HPTics (HPTimer_MAX c) < mHPTics this + Tics ->
     TicAdd c this Tics = (Throw overflow, this)).
Proof.
  intros c this Tics Hm Hmax Hpos Hfit.
  rewrite TicAdd_unwrapped by assumption.
  destruct (Z.leb_spec (mHPTics this + Tics) (HPTics (HPTimer_MAX c)));
    split; intro; try reflexivity; lia.
Qed.

Lemma TicAdd_exact_witness :
  TicAdd Examples.os_statics (set_mHPTics (Int64.max - 7) Examples.zeroed) 7
  = (Return tt, set_mNormalized false
                  (set_mHPTics (mHPTics (set_mHPTics (Int64.max - 7) Examples.zeroed) + 7)
                               (set_mHPTics (Int64.max - 7) Examples.zeroed)))
  /\ TicAdd Examples.hpet_statics (set_mHPTics 76861433640456460 Examples.zeroed) 7
     = (Throw overflow, set_mHPTics 76861433640456460 Examples.zeroed).
Proof.
  split.
  - apply (proj1 (TicAdd_exact Examples.os_statics
                    (set_mHPTics (Int64.max - 7) Examples.zeroed) 7
                    ltac:(evaluate) ltac:(evaluate) ltac:(lia) ltac:(evaluate))).
    evaluate.
  - apply (proj2 (TicAdd_exact Examples.hpet_statics
                    (set_mHPTics 76861433640456460 Examples.zeroed) 7
                    ltac:(evaluate) ltac:(evaluate) ltac:(lia) ltac:(evaluate))).
    evaluate.
Defined.

(** X2.  [TicSub] undoes [TicAdd]: on a receiver that is not below
    [HPTimer_MIN], when [TicAdd ( Tics )] returns, [TicSub ( Tics )] on the
    result returns as well and the tick count is the one before the two
    calls. *)
Theorem TicAdd_then_TicSub : forall c this Tics this',
  Int64.in_range (HPTics (HPTimer_MIN c)) ->
  Int64.in_range (HPTics (HPTimer_MAX c)) ->
  HPTics (HPTimer_MIN c) <= mHPTics this ->
  0 <= Tics -> Int64.min <= HPTics (HPTimer_MAX c) - Tics ->
  TicAdd c this Tics = (Return tt, this') ->
  TicSub c this' Tics
  = (Return tt, set_mNormalized false (set_mHPTics (mHPTics this) this)).
Proof.
  intros c this Tics this' Hmin Hmax Hin Hpos Hfit Hadd.
  destruct (Z.leb_spec (mHPTics this) (HPTics (HPTimer_MAX c) - Tics)) as [Hle|Hgt].
  - assert (Int64.in_range (mHPTics this)) as Hm.
    { unfold HPTics in *. int64_consts. lia. }
    rewrite TicAdd_unwrapped in Hadd by assumption.
    destruct (Z.leb_spec (mHPTics this + Tics) (HPTics (HPTimer_MAX c))); [|discriminate].
    injection Hadd as <-.
    rewrite TicSub_unwrapped; fields; try assumption.
    + destruct (Z.leb_spec (mHPTics (HPTimer_MIN c)) (mHPTics this + Tics - Tics)); [|lia].
      replace (mHPTics this + Tics - Tics) with (mHPTics this) by lia. reflexivity.
    + int64_consts. lia.
    + int64_consts. lia.
  - exfalso. unfold TicAdd, UInt64.sub in Hadd. rewrite Int64_wrap_UInt64_wrap in Hadd.
    rewrite Int64_wrap_small in Hadd by (unfold HPTics in *; int64_consts; lia).
    rewrite Z.geb_leb in Hadd.
    destruct (Z.leb_spec (mHPTics this) (HPTics (HPTimer_MAX c) - Tics)); [lia|discriminate].
Qed.

Lemma TicAdd_then_TicSub_witness :
  TicSub Examples.hpet_statics
         (set_mNormalized false (set_mHPTics 12 Examples.zeroed)) 7
  = (Return tt, set_mNormalized false
                  (set_mHPTics (mHPTics (set_mHPTics 5 Examples.zeroed))
                               (set_mHPTics 5 Examples.zeroed))).
Proof.
  apply (TicAdd_then_TicSub Examples.hpet_statics (set_mHPTics 5 Examples.zeroed) 7);
    try evaluate; lia.
Defined.

(** X3.  [operator+=] and [operator+] agree on a receiver within the
    bounds: either both throw "HPTimer overflow" (the receiver of [+=]
    being left as it was) or both succeed with the tick count
    [a.tics + b.tics], not normalized. *)
Theorem operator_plus_assign_agrees : forall c raw a b,
  Int64.in_range (HPTics b) ->
  Int64.in_range (HPTics (HPTimer_MAX c)) -> Int64.in_range (HPTics (HPTimer_MIN c)) ->
  HPTics (HPTimer_MIN c) < 0 < HPTics (HPTimer_MAX c) ->
  HPTics (HPTimer_MIN c) <= HPTics a <= HPTics (HPTimer_MAX c) ->
  match operator_plus_assign c a b, operator_plus c raw a b with
  | (Return _, a'), Return r =>
      HPTics a' = HPTics a + HPTics b /\ HPTics r = HPTics a + HPTics b
      /\ mNormalized a' = false /\ mNormalized r = false
  | (Throw e, a'), Throw e' => e = e' /\ a' = a
  | _, _ => False
  end.
Proof.
  intros c raw a b Hb Hmax Hmin Hord Ha.
  unfold operator_plus_assign, operator_plus, HighPerTimer_tics, Int64.sub, Int64.add.
  fields. sign_cases (mHPTics b); unwrap; compare_all; unwrap; fields;
    repeat split; try reflexivity; try lia.
Qed.

Lemma operator_plus_assign_agrees_witness :
  match operator_plus_assign Examples.hpet_statics
          (set_mHPTics 5 Examples.zeroed) (set_mHPTics 7 Examples.zeroed),
        operator_plus Examples.hpet_statics Examples.zeroed
          (set_mHPTics 5 Examples.zeroed) (set_mHPTics 7 Examples.zeroed) with
  | (Return _, a'), Return r =>
      HPTics a' = HPTics (set_mHPTics 5 Examples.zeroed)
                  + HPTics (set_mHPTics 7 Examples.zeroed)
      /\ HPTics r = HPTics (set_mHPTics 5 Examples.zeroed)
                    + HPTics (set_mHPTics 7 Examples.zeroed)
      /\ mNormalized a' = false /\ mNormalized r = false
  | (Throw e, a'), Throw e' => e = e' /\ a' = set_mHPTics 5 Examples.zeroed
  | _, _ => False
  end.
Proof.
  apply (operator_plus_assign_agrees Examples.hpet_statics Examples.zeroed
           (set_mHPTics 5 Examples.zeroed) (set_mHPTics 7 Examples.zeroed));
    evaluate.
Defined.

(** X4.  [operator-=] with the wrap-around of its guards removed: it throws
    "HPTimer overflow", leaving the receiver as it was, exactly when the
    operand is positive and the difference is at or below [HPTimer_MIN], or
    the operand is negative and the difference is at or above
    [HPTimer_MAX]; otherwise the receiver holds the difference, not
    normalized.  A difference that lands on a bound is refused. *)
Theorem operator_minus_assign_cases : forall c this Timer,
  Int64.in_range (mHPTics this) -> Int64.in_range (HPTics Timer) ->
  Int64.in_range (HPTics (HPTimer_MAX c)) -> Int64.in_range (HPTics (HPTimer_MIN c)) ->
  HPTics (HPTimer_MIN c) < 0 < HPTics (HPTimer_MAX c) ->
  operator_minus_assign c this Timer =
    if ((0 <? HPTics Timer) && (mHPTics this - HPTics Timer <=? HPTics (HPTimer_MIN c)))
       || ((HPTics Timer <? 0) && (HPTics (HPTimer_MAX c) <=? mHPTics this - HPTics Timer))
    then (Throw overflow, this)
    else (Return tt,
          set_mNormalized false (set_mHPTics (mHPTics this - HPTics Timer) this)).
Proof.
  intros c this Timer Ha Hb Hmax Hmin Hord.
  unfold operator_minus_assign, Int64.sub, Int64.add. fields.
  sign_cases (mHPTics Timer); unwrap; compare_all; unwrap; cbn [orb andb];
    try reflexivity; try lia.
Qed.

Lemma operator_minus_assign_cases_witness :
  operator_minus_assign Examples.os_statics
    (set_mHPTics (Int64.min + 7) Examples.zeroed) (set_mHPTics 7 Examples.zeroed)
  = (Throw overflow, set_mHPTics (Int64.min + 7) Examples.zeroed).
Proof.
  rewrite (operator_minus_assign_cases Examples.os_statics
             (set_mHPTics (Int64.min + 7) Examples.zeroed) (set_mHPTics 7 Examples.zeroed))
    by evaluate.
  vm_compute. reflexivity.
Defined.

(** X5.  Subtraction undoes addition: for [a] strictly between the
    bounds, when [a + b] returns [r], [r - b] returns a timer with the tick
    count of [a]. *)
Theorem operator_plus_then_minus : forall c raw raw' a b r,
  Int64.in_range (HPTics b) ->
  Int64.in_range (HPTics (HPTimer_MAX c)) -> Int64.in_range (HPTics (HPTimer_MIN c)) ->
  HPTics (HPTimer_MIN c) < 0 < HPTics (HPTimer_MAX c) ->
  HPTics (HPTimer_MIN c) < HPTics a < HPTics (HPTimer_MAX c) ->
  operator_plus c raw a b = Return r ->
  operator_minus c raw' r b
  = Return (set_mNormalized false (set_mHPTics (HPTics a) raw')).
Proof.
  intros c raw raw' a b r Hb Hmax Hmin Hord Ha Hplus.
  assert (HPTics r = HPTics a + HPTics b
          /\ HPTics (HPTimer_MIN c) <= HPTics a + HPTics b <= HPTics (HPTimer_MAX c)) as [Hr Hsum].
  { revert Hplus.
    unfold operator_plus, HighPerTimer_tics, Int64.sub, Int64.add. fields.
    sign_cases (mHPTics b); unwrap; compare_all; unwrap; cbn [orb];
      intro Hplus; try discriminate; injection Hplus as <-; fields; lia. }
  unfold operator_minus, HighPerTimer_tics, Int64.sub, Int64.add.
  rewrite Hr. fields.
  sign_cases (mHPTics b); unwrap; compare_all; unwrap; cbn [orb]; try lia;
    replace (mHPTics a + mHPTics b - mHPTics b) with (mHPTics a) by lia; reflexivity.
Qed.

Lemma operator_plus_then_minus_witness :
  operator_minus Examples.hpet_statics Examples.zeroed
    (set_mNormalized false (set_mHPTics (-2) Examples.zeroed)) (set_mHPTics (-7) Examples.zeroed)
  = Return (set_mNormalized false
              (set_mHPTics (HPTics (set_mHPTics 5 Examples.zeroed)) Examples.zeroed)).
Proof.
  apply (operator_plus_then_minus Examples.hpet_statics Examples.zeroed Examples.zeroed
           (set_mHPTics 5 Examples.zeroed) (set_mHPTics (-7) Examples.zeroed));
    evaluate.
Defined.

(** X6.  The constructor [HighPerTimer ( HPTics, true )] with a shift that
    is not negative returns exactly for
    [HPTimer_MIN + UnixZeroShift <= HPTics <= HPTimer_MAX - UnixZeroShift],
    and then holds [HPTics + UnixZeroShift]; everything else throws
    "HPTimer overflow".  Its lower limit is [HPTimer_MIN + UnixZeroShift]:
    tick counts below it are refused although their shifted value is
    within the bounds. *)
Theorem shifting_constructor_range : forall c raw t,
  Int64.in_range t -> Int64.in_range (UnixZeroShift c) ->
  Int64.in_range (HPTics (HPTimer_MAX c)) -> Int64.in_range (HPTics (HPTimer_MIN c)) ->
  0 <= UnixZeroShift c ->
  HPTics (HPTimer_MIN c) <= 0 <= HPTics (HPTimer_MAX c) ->
  HighPerTimer_tics c raw t true =
    if (HPTics (HPTimer_MIN c) + UnixZeroShift c <=? t)
       && (t <=? HPTics (HPTimer_MAX c) - UnixZeroShift c)
    then Return (set_mNormalized false (set_mHPTics (t + UnixZeroShift c) raw))
    else Throw overflow.
Proof.
  intros c raw t Ht Hs Hmax Hmin Hpos Hord.
  unfold HighPerTimer_tics, Int64.sub, Int64.add. fields. unwrap.
  compare_all; unwrap; cbn [orb andb]; fields; try reflexivity; try lia.
  all: compare_all; cbn [orb]; try reflexivity; lia.
Qed.

Lemma shifting_constructor_range_witness :
  HighPerTimer_tics Examples.tsc_statics Examples.zeroed (-5000000000000000000) true
  = Throw overflow
  /\ HPTics (HPTimer_MIN Examples.tsc_statics)
     <= -5000000000000000000 + UnixZeroShift Examples.tsc_statics
     <= HPTics (HPTimer_MAX Examples.tsc_statics).
Proof.
  split; [|evaluate].
  rewrite (shifting_constructor_range Examples.tsc_statics Examples.zeroed
             (-5000000000000000000)) by evaluate.
  vm_compute. reflexivity.
Defined.

(** X7.  Whenever [Now()] returns, its tick count is
    [GetTimerTics() + UnixZeroShift] for the reading it made, the value
    [SetNow()] and [Now ( HighPerTimer & )] store without any check, and it
    lies within [[HPTimer_MIN, HPTimer_MAX]]. *)
Theorem Now_agrees_with_SetNow : forall c w th t th' this,
  Now c w th = (Finished t, th') ->
  HPTics t = HPTics (SetNow_on c (hardware w (timer_calls th)) this)
  /\ HPTics t = HPTics (Now_into_on c (hardware w (timer_calls th)) this)
  /\ HPTics (HPTimer_MIN c) <= HPTics t <= HPTics (HPTimer_MAX c).
Proof.
  intros c w [t0 tc fa tr] t th' this Hnow.
  unfold Now in Hnow. rewrite bind_run in Hnow. run in Hnow.
  unfold SetNow_on, Now_into_on. fields.
  unfold HighPerTimer_tics in Hnow. fields.
  set (v := GetTimerTics_on c (hardware w tc)) in *.
  destruct ((Int64.sub (mHPTics (HPTimer_MAX c)) (UnixZeroShift c) >=? v)
            && (Int64.add (mHPTics (HPTimer_MIN c)) (UnixZeroShift c) <=? v));
    [|discriminate]. fields.
  destruct (Z.gtb_spec (Int64.add v (UnixZeroShift c)) (mHPTics (HPTimer_MAX c)));
    cbn [orb] in Hnow; [discriminate|].
  destruct (Z.ltb_spec (Int64.add v (UnixZeroShift c)) (mHPTics (HPTimer_MIN c)));
    [discriminate|].
  unfold ret in Hnow. injection Hnow as <- _. fields. repeat split; try reflexivity; lia.
Qed.

Lemma Now_agrees_with_SetNow_witness :
  HPTics (set_mHPTics 4250000000000000000 Examples.zeroed)
  = HPTics (SetNow_on Examples.tsc_statics
              (hardware Examples.alone
                 (timer_calls (Examples.fresh_thread Examples.zeroed)))
              Examples.zeroed)
  /\ HPTics (set_mHPTics 4250000000000000000 Examples.zeroed)
     = HPTics (Now_into_on Examples.tsc_statics
                 (hardware Examples.alone
                    (timer_calls (Examples.fresh_thread Examples.zeroed)))
                 Examples.zeroed)
  /\ HPTics (HPTimer_MIN Examples.tsc_statics)
     <= HPTics (set_mHPTics 4250000000000000000 Examples.zeroed)
     <= HPTics (HPTimer_MAX Examples.tsc_statics).
Proof.
  apply (Now_agrees_with_SetNow Examples.tsc_statics Examples.alone
           (Examples.fresh_thread Examples.zeroed)
           (set_mHPTics 4250000000000000000 Examples.zeroed)
           (mkThread Examples.zeroed 1 0 [EvGetTimerTics 0])).
  vm_compute. reflexivity.
Defined.

(** X8.  [operator+ ( HPTimer, SecOffset )] adds, in integers, the tick
    count [static_cast<int64_t> ( SecOffset / NsecPerTic * ONE_BILLION )]:
    for a timer within the bounds and an offset whose tick count is not
    negative it returns exactly when the sum does not exceed [HPTimer_MAX],
    and then holds the sum.  The bound is inclusive. *)
Theorem operator_plus_seconds_exact : forall c raw t SecOffset,
  Int64.in_range (HPTics (HPTimer_MAX c)) -> Int64.in_range (HPTics (HPTimer_MIN c)) ->
  HPTics (HPTimer_MIN c) <= HPTics t <= HPTics (HPTimer_MAX c) ->
  HPTics (HPTimer_MIN c) <= 0 <= HPTics (HPTimer_MAX c) ->
  0 <= tics_of_seconds c (Double.of_Z SecOffset) ->
  operator_plus_seconds c raw t SecOffset =
    if HPTics t + tics_of_seconds c (Double.of_Z SecOffset) <=? HPTics (HPTimer_MAX c)
    then Return (set_mNormalized false
                   (set_mHPTics (HPTics t + tics_of_seconds c (Double.of_Z SecOffset)) raw))
    else Throw overflow.
Proof.
  intros c raw t S Hmax Hmin Ht Hord Hoff.
  unfold operator_plus_seconds.
  pose proof (to_int64_range
                (PrimFloat.mul (PrimFloat.div (Double.of_Z S) (NsecPerTic c))
                               (Double.of_Z ONE_BILLION))) as Hr.
  fold (tics_of_seconds c (Double.of_Z S)) in Hr.
  set (off := tics_of_seconds c (Double.of_Z S)) in *.
  unfold HighPerTimer_tics, Int64.sub, Int64.add. fields. unwrap.
  compare_all; unwrap; cbn [orb]; fields; try reflexivity; try lia.
Qed.

Lemma operator_plus_seconds_exact_witness :
  operator_plus_seconds Examples.os_statics Examples.zeroed
    (set_mHPTics (Int64.max - 2000000000) Examples.zeroed) 2
  = Return (set_mNormalized false (set_mHPTics Int64.max Examples.zeroed)).
Proof.
  rewrite (operator_plus_seconds_exact Examples.os_statics Examples.zeroed
             (set_mHPTics (Int64.max - 2000000000) Examples.zeroed) 2)
    by evaluate.
  vm_compute. reflexivity.
Defined.

(** ** Setting and reading the time parts *)

Lemma Normalize_normalized : forall c t, mNormalized t = true -> Normalize c t = t.
Proof. intros c t H. unfold Normalize. rewrite H. reflexivity. Qed.

Lemma SetTimer_unfolded : forall c this S NS sign,
  0 <= S <= Int64.max -> 0 <= NS <= Int64.max ->
  SetTimer c this S NS sign =
    if nsec_total S NS >? max_total c
    then (Throw overflow, set_mSign sign (set_mNSeconds NS (set_mSeconds S this)))
    else (Return tt,
          mkHighPerTimer S NS sign
            (if sign then Int64.neg (tics_of_total c (nsec_total S NS))
             else tics_of_total c (nsec_total S NS))
            true (mInterrupted this) (mCancelled this)).
Proof.
  intros c this S NS sign HS HNS. unfold SetTimer.
  rewrite !Int64_wrap_small by (int64_consts; lia). fields.
  destruct (nsec_total S NS >? max_total c); reflexivity.
Qed.

Lemma nsec_total_small : forall s ns,
  0 <= s * ONE_BILLION + ns < Int64.modulus -> nsec_total s ns = s * ONE_BILLION + ns.
Proof. intros. rewrite nsec_total_wrap. apply UInt64_wrap_small. assumption. Qed.

Lemma Seconds_normalized : forall c t, mNormalized t = true ->
  Seconds c t = UInt64.wrap (mSeconds t)
  /\ NSeconds c t = UInt64.wrap (mNSeconds t)
  /\ USeconds c t = UInt64.wrap (Z.quot (mNSeconds t) 1000).
Proof.
  intros c t H. unfold Seconds, NSeconds, USeconds.
  rewrite Normalize_normalized by assumption. repeat split.
Qed.

(** X9.  [SetNSeconds ( N )] for [N >= 0] hands [SetTimer] both
    [N / ONE_BILLION] as the seconds and the whole of [N] as the
    nanoseconds: when it returns, [NSeconds()] is [N] itself (not the part
    below one second), [Seconds()] is [N / ONE_BILLION], and the tick count
    stands for [N / ONE_BILLION * ONE_BILLION + N] nanoseconds, so the whole
    seconds of [N] are counted twice. *)
Theorem SetNSeconds_counts_seconds_twice : forall c this N,
  0 <= N <= Int64.max ->
  N / ONE_BILLION * ONE_BILLION + N <= max_total c ->
  fst (SetNSeconds c this N) = Return tt
  /\ Seconds c (snd (SetNSeconds c this N)) = N / ONE_BILLION
  /\ NSeconds c (snd (SetNSeconds c this N)) = N
  /\ HPTics (snd (SetNSeconds c this N))
     = tics_of_total c (N / ONE_BILLION * ONE_BILLION + N).
Proof.
  intros c this N HN Hfit. unfold SetNSeconds.
  destruct (Z.ltb_spec N 0); [lia|].
  rewrite UInt64_wrap_small by (int64_consts; lia).
  assert (0 <= N / ONE_BILLION <= N) as Hq.
  { split; [apply Z.div_pos; int64_consts; lia|].
    apply Z.div_le_upper_bound; int64_consts; lia. }
  assert (N / ONE_BILLION * ONE_BILLION <= N) as Hm.
  { pose proof (Z.mul_div_le N ONE_BILLION ltac:(reflexivity)). lia. }
  rewrite SetTimer_unfolded by (int64_consts; lia).
  rewrite nsec_total_small by (int64_consts; lia).
  destruct (Z.gtb_spec (N / ONE_BILLION * ONE_BILLION + N) (max_total c)); [lia|].
  cbn [fst snd].
  match goal with |- context [Seconds c ?t] =>
    destruct (Seconds_normalized c t eq_refl) as [-> [-> _]] end.
  fields. rewrite !UInt64_wrap_small by (int64_consts; lia).
  repeat split.
Qed.

Lemma SetNSeconds_counts_seconds_twice_witness :
  fst (SetNSeconds Examples.os_statics Examples.zeroed 2500000000) = Return tt
  /\ Seconds Examples.os_statics
       (snd (SetNSeconds Examples.os_statics Examples.zeroed 2500000000))
     = 2500000000 / ONE_BILLION
  /\ NSeconds Examples.os_statics
       (snd (SetNSeconds Examples.os_statics Examples.zeroed 2500000000))
     = 2500000000
  /\ HPTics (snd (SetNSeconds Examples.os_statics Examples.zeroed 2500000000))
     = tics_of_total Examples.os_statics
         (2500000000 / ONE_BILLION * ONE_BILLION + 2500000000).
Proof.
  apply (SetNSeconds_counts_seconds_twice Examples.os_statics Examples.zeroed 2500000000);
    evaluate.
Defined.

(** X10.  [SetNSeconds ( N )] for a negative [N], where [HPTimer_MAX]
    stands for at most [2^64 - 10^9] nanoseconds,
    throws "HPTimer overflow" unless [N] is a multiple of [ONE_BILLION],
    the tick count staying as it was; and for a multiple of [ONE_BILLION]
    it returns with the tick count of zero nanoseconds, the sign set, [N]
    itself stored as the nanoseconds and [-N / ONE_BILLION] as the
    seconds. *)
Theorem SetNSeconds_negative : forall c this N,
  Int64.min < N < 0 ->
  max_total c <= Int64.modulus - ONE_BILLION ->
  (N mod ONE_BILLION <> 0 ->
     fst (SetNSeconds c this N) = Throw overflow
     /\ HPTics (snd (SetNSeconds c this N)) = HPTics this)
  /\ (N mod ONE_BILLION = 0 ->
     SetNSeconds c this N
     = (Return tt,
        mkHighPerTimer (- N / ONE_BILLION) N true (Int64.neg (tics_of_total c 0)) true
                       (mInterrupted this) (mCancelled this))).
Proof.
  intros c this N HN Hmax. unfold SetNSeconds.
  destruct (Z.ltb_spec N 0); [|lia].
  unfold Int64.neg. rewrite (Int64_wrap_small (- N)) by (int64_consts; lia).
  rewrite (UInt64_wrap_small (- N)) by (int64_consts; lia).
  assert (UInt64.wrap N = N + Int64.modulus) as HwN.
  { unfold UInt64.wrap. symmetry.
    apply (Z.mod_unique_pos N Int64.modulus (-1) (N + Int64.modulus)); int64_consts; lia. }
  rewrite HwN.
  assert (0 <= - N / ONE_BILLION <= - N) as Hq.
  { split; [apply Z.div_pos; int64_consts; lia|].
    apply Z.div_le_upper_bound; int64_consts; lia. }
  pose proof (Z.div_mod (- N) ONE_BILLION ltac:(discriminate)) as Hdm.
  pose proof (Z.mod_pos_bound (- N) ONE_BILLION ltac:(reflexivity)) as Hr.
  unfold SetTimer. fields.
  rewrite (Int64_wrap_small (- N / ONE_BILLION)) by (int64_consts; lia).
  rewrite (Int64_wrap_high (N + Int64.modulus)) by (int64_consts; lia).
  replace (N + Int64.modulus - Int64.modulus) with N by lia.
  rewrite nsec_total_wrap.
  pose proof (max_total_bound c) as Hmt.
  split.
  - intro Hnz.
    assert ((- N) mod ONE_BILLION <> 0) as Hnz'.
    { intro E. apply Hnz. apply Z.mod_opp_l_z in E; [|discriminate].
      rewrite Z.opp_involutive in E. exact E. }
    assert (UInt64.wrap (- N / ONE_BILLION * ONE_BILLION + N)
            = Int64.modulus - (- N) mod ONE_BILLION) as ->.
    { unfold UInt64.wrap. symmetry.
      apply (Z.mod_unique_pos _ Int64.modulus (-1)); int64_consts; lia. }
    destruct (Z.gtb_spec (Int64.modulus - (- N) mod ONE_BILLION) (max_total c));
      [|int64_consts; lia].
    cbn [fst snd]. fields. split; reflexivity.
  - intro Hz.
    assert ((- N) mod ONE_BILLION = 0) as Hz'.
    { apply Z.mod_opp_l_z; [discriminate|assumption]. }
    assert (- N / ONE_BILLION * ONE_BILLION + N = 0) as -> by lia.
    change (UInt64.wrap 0) with 0.
    destruct (Z.gtb_spec 0 (max_total c)); [lia|]. reflexivity.
Qed.

Lemma SetNSeconds_negative_witness :
  (fst (SetNSeconds Examples.os_statics Examples.zeroed (-1500000000)) = Throw overflow
   /\ HPTics (snd (SetNSeconds Examples.os_statics Examples.zeroed (-1500000000)))
      = HPTics Examples.zeroed)
  /\ SetNSeconds Examples.os_statics Examples.zeroed (-2000000000)
     = (Return tt,
        mkHighPerTimer (- (-2000000000) / ONE_BILLION) (-2000000000) true
                       (Int64.neg (tics_of_total Examples.os_statics 0)) true
                       (mInterrupted Examples.zeroed) (mCancelled Examples.zeroed)).
Proof.
  split.
  - apply (proj1 (SetNSeconds_negative Examples.os_statics Examples.zeroed (-1500000000)
                    ltac:(evaluate) ltac:(evaluate))).
    evaluate.
  - apply (proj2 (SetNSeconds_negative Examples.os_statics Examples.zeroed (-2000000000)
                    ltac:(evaluate) ltac:(evaluate))).
    evaluate.
Defined.

(** X11.  [SetTimer] stores its arguments before it checks them: when it
    throws "HPTimer overflow" on a normalized timer, the tick count is the
    old one and the timer still counts as normalized, but [Seconds()] and
    [NSeconds()] already answer with the refused arguments. *)
Theorem SetTimer_throw_overwrites_cache : forall c this S NS sign,
  0 <= S <= Int64.max -> 0 <= NS <= Int64.max ->
  mNormalized this = true ->
  nsec_total S NS > max_total c ->
  fst (SetTimer c this S NS sign) = Throw overflow
  /\ HPTics (snd (SetTimer c this S NS sign)) = HPTics this
  /\ mNormalized (snd (SetTimer c this S NS sign)) = true
  /\ Seconds c (snd (SetTimer c this S NS sign)) = S
  /\ NSeconds c (snd (SetTimer c this S NS sign)) = NS.
Proof.
  intros c this S NS sign HS HNS Hn Hbig.
  rewrite SetTimer_unfolded by assumption.
  destruct (Z.gtb_spec (nsec_total S NS) (max_total c)); [|lia].
  cbn [fst snd].
  match goal with |- context [Seconds c ?t] =>
    destruct (Seconds_normalized c t) as [-> [-> _]]; [fields; assumption|] end.
  fields. rewrite !UInt64_wrap_small by (int64_consts; lia).
  repeat split. assumption.
Qed.

Lemma SetTimer_throw_overwrites_cache_witness :
  fst (SetTimer Examples.hpet_statics
         (Normalize Examples.hpet_statics (set_mHPTics 100 Examples.zeroed))
         9000000000 5 false) = Throw overflow
  /\ HPTics (snd (SetTimer Examples.hpet_statics
                    (Normalize Examples.hpet_statics (set_mHPTics 100 Examples.zeroed))
                    9000000000 5 false))
     = HPTics (Normalize Examples.hpet_statics (set_mHPTics 100 Examples.zeroed))
  /\ mNormalized (snd (SetTimer Examples.hpet_statics
                         (Normalize Examples.hpet_statics (set_mHPTics 100 Examples.zeroed))
                         9000000000 5 false)) = true
  /\ Seconds Examples.hpet_statics
       (snd (SetTimer Examples.hpet_statics
               (Normalize Examples.hpet_statics (set_mHPTics 100 Examples.zeroed))
               9000000000 5 false)) = 9000000000
  /\ NSeconds Examples.hpet_statics
       (snd (SetTimer Examples.hpet_statics
               (Normalize Examples.hpet_statics (set_mHPTics 100 Examples.zeroed))
               9000000000 5 false)) = 5.
Proof.
  apply (SetTimer_throw_overwrites_cache Examples.hpet_statics
           (Normalize Examples.hpet_statics (set_mHPTics 100 Examples.zeroed))
           9000000000 5 false);
    evaluate.
Defined.

(** X12.  [SetUSeconds ( U )] followed by the accessors: for every [U]
    but [INT64_MIN] whose magnitude fits under [HPTimer_MAX], the call
    returns, [Seconds() * ONE_MILLION + USeconds()] is the magnitude of
    [U] with [USeconds()] below one million, [NSeconds()] is
    [1000 * USeconds()], and the sign is set exactly for negative [U]. *)
Theorem SetUSeconds_accessors : forall c this U,
  Int64.min < U <= Int64.max ->
  Z.abs U * 1000 <= max_total c ->
  fst (SetUSeconds c this U) = Return tt
  /\ Seconds c (snd (SetUSeconds c this U)) * ONE_MILLION
     + USeconds c (snd (SetUSeconds c this U)) = Z.abs U
  /\ NSeconds c (snd (SetUSeconds c this U))
     = 1000 * USeconds c (snd (SetUSeconds c this U))
  /\ USeconds c (snd (SetUSeconds c this U)) < ONE_MILLION
  /\ mSign (snd (SetUSeconds c this U)) = (U <? 0).
Proof.
  intros c this U HU Hfit.
  pose proof (max_total_bound c) as Hmt.
  assert (SetUSeconds c this U
          = SetTimer c this (Z.abs U / ONE_MILLION)
                     (Z.abs U mod ONE_MILLION * 1000) (U <? 0)) as ->.
  { unfold SetUSeconds, UInt64.mul, Int64.neg.
    pose proof (Z.mod_pos_bound (Z.abs U) ONE_MILLION ltac:(reflexivity)) as Hr.
    destruct (Z.ltb_spec U 0).
    - rewrite (Int64_wrap_small (- U)) by (int64_consts; lia).
      rewrite (UInt64_wrap_small (- U)) by (int64_consts; lia).
      replace (- U) with (Z.abs U) by lia.
      rewrite UInt64_wrap_small by (unfold ONE_MILLION in *; int64_consts; lia).
      reflexivity.
    - rewrite (UInt64_wrap_small U) by (int64_consts; lia).
      replace U with (Z.abs U) at 1 2 by lia.
      rewrite UInt64_wrap_small by (unfold ONE_MILLION in *; int64_consts; lia).
      reflexivity. }
  pose proof (Z.div_mod (Z.abs U) ONE_MILLION ltac:(discriminate)) as Hdm.
  pose proof (Z.mod_pos_bound (Z.abs U) ONE_MILLION ltac:(reflexivity)) as Hr.
  assert (0 <= Z.abs U / ONE_MILLION <= Z.abs U) as Hq.
  { split; [apply Z.div_pos; unfold ONE_MILLION; lia|].
    apply Z.div_le_upper_bound; unfold ONE_MILLION; lia. }
  rewrite SetTimer_unfolded by (unfold ONE_MILLION in *; int64_consts; lia).
  assert (Z.abs U / ONE_MILLION * ONE_BILLION + Z.abs U mod ONE_MILLION * 1000
          = Z.abs U * 1000) as Htot.
  { unfold ONE_MILLION, ONE_BILLION in *. lia. }
  rewrite nsec_total_small by (rewrite Htot; int64_consts; lia).
  rewrite Htot.
  destruct (Z.gtb_spec (Z.abs U * 1000) (max_total c)); [lia|].
  cbn [fst snd].
  match goal with |- context [Seconds c ?t] =>
    destruct (Seconds_normalized c t eq_refl) as [-> [-> ->]] end.
  fields.
  rewrite Z.quot_mul by discriminate.
  rewrite !UInt64_wrap_small by (unfold ONE_MILLION in *; int64_consts; lia).
  repeat split; try lia.
Qed.

Lemma SetUSeconds_accessors_witness :
  fst (SetUSeconds Examples.os_statics Examples.zeroed (-1500000)) = Return tt
  /\ Seconds Examples.os_statics
       (snd (SetUSeconds Examples.os_statics Examples.zeroed (-1500000))) * ONE_MILLION
     + USeconds Examples.os_statics
         (snd (SetUSeconds Examples.os_statics Examples.zeroed (-1500000)))
     = Z.abs (-1500000)
  /\ NSeconds Examples.os_statics
       (snd (SetUSeconds Examples.os_statics Examples.zeroed (-1500000)))
     = 1000 * USeconds Examples.os_statics
                (snd (SetUSeconds Examples.os_statics Examples.zeroed (-1500000)))
  /\ USeconds Examples.os_statics
       (snd (SetUSeconds Examples.os_statics Examples.zeroed (-1500000))) < ONE_MILLION
  /\ mSign (snd (SetUSeconds Examples.os_statics Examples.zeroed (-1500000)))
     = (-1500000 <? 0).
Proof.
  apply (SetUSeconds_accessors Examples.os_statics Examples.zeroed (-1500000)); evaluate.
Defined.

(** X13.  A [timeval] survives [SetTimer ( const timeval & )] followed by
    [SetTV]: for non-negative fields whose total fits under [HPTimer_MAX]
    the setter returns and [SetTV] gives the same [tv_sec] and [tv_usec]
    back, also for a [tv_usec] of a million or more, which is not carried
    into the seconds. *)
Theorem SetTimer_timeval_SetTV : forall c this TV,
  0 <= Timeval.tv_sec TV <= Int64.max ->
  0 <= Timeval.tv_usec TV ->
  Timeval.tv_usec TV * 1000 <= Int64.max ->
  Timeval.tv_sec TV * ONE_BILLION + Timeval.tv_usec TV * 1000 <= max_total c ->
  fst (SetTimer_timeval c this TV) = Return tt
  /\ fst (SetTV c (snd (SetTimer_timeval c this TV))) = TV.
Proof.
  intros c this [sec usec] Hsec Husec Hfit Htot. cbn [Timeval.tv_sec Timeval.tv_usec] in *.
  pose proof (max_total_bound c) as Hmt.
  unfold SetTimer_timeval, Int64.mul. cbn [Timeval.tv_sec Timeval.tv_usec].
  rewrite (Int64_wrap_small (usec * 1000)) by (int64_consts; lia).
  rewrite !UInt64_wrap_small by (int64_consts; lia).
  rewrite SetTimer_unfolded by (int64_consts; lia).
  rewrite nsec_total_small by (int64_consts; lia).
  destruct (Z.gtb_spec (sec * ONE_BILLION + usec * 1000) (max_total c)); [lia|].
  cbn [fst snd]. unfold SetTV. rewrite Normalize_normalized by reflexivity.
  cbn [fst]. fields. rewrite Z.quot_mul by discriminate. split; reflexivity.
Qed.

Lemma SetTimer_timeval_SetTV_witness :
  fst (SetTimer_timeval Examples.os_statics Examples.zeroed
         {| Timeval.tv_sec := 3; Timeval.tv_usec := 2500000 |}) = Return tt
  /\ fst (SetTV Examples.os_statics
            (snd (SetTimer_timeval Examples.os_statics Examples.zeroed
                    {| Timeval.tv_sec := 3; Timeval.tv_usec := 2500000 |})))
     = {| Timeval.tv_sec := 3; Timeval.tv_usec := 2500000 |}.
Proof.
  apply (SetTimer_timeval_SetTV Examples.os_statics Examples.zeroed
           {| Timeval.tv_sec := 3; Timeval.tv_usec := 2500000 |}); evaluate.
Defined.

(** The same round trip through a [timespec]. *)
Lemma SetTimer_timespec_SetTS : forall c this TS,
  0 <= tv_sec TS <= Int64.max ->
  0 <= tv_nsec TS <= Int64.max ->
  tv_sec TS * ONE_BILLION + tv_nsec TS <= max_total c ->
  fst (SetTimer_timespec c this TS) = Return tt
  /\ fst (SetTS c (snd (SetTimer_timespec c this TS))) = TS.
Proof.
  intros c this [sec nsec] Hsec Hnsec Htot. cbn [tv_sec tv_nsec] in *.
  pose proof (max_total_bound c) as Hmt.
  unfold SetTimer_timespec. cbn [tv_sec tv_nsec].
  rewrite !UInt64_wrap_small by (int64_consts; lia).
  rewrite SetTimer_unfolded by (int64_consts; lia).
  rewrite nsec_total_small by (int64_consts; lia).
  destruct (Z.gtb_spec (sec * ONE_BILLION + nsec) (max_total c)); [lia|].
  cbn [fst snd]. unfold SetTS. rewrite Normalize_normalized by reflexivity.
  cbn [fst]. fields. split; reflexivity.
Qed.

(** X14.  [HPTimertoNSec] of a timer that is not yet normalized is the
    signed nanosecond count of its ticks: the magnitude of
    [static_cast<int64_t> ( mHPTics * NsecPerTic )], negated exactly when
    the tick count is negative. *)
Theorem HPTimertoNSec_lazy : forall c t,
  Int64.in_range (mHPTics t) -> mNormalized t = false ->
  toNSecs c (mHPTics t) <> Int64.min ->
  HPTimertoNSec c t
  = if mHPTics t <? 0 then - Z.abs (toNSecs c (mHPTics t))
    else Z.abs (toNSecs c (mHPTics t)).
Proof.
  intros c t Hr Hn Hmin.
  destruct (Normalize_fresh c t Hr Hn) as [Hnorm [Htics [_ Htot]]].
  specialize (Htot Hmin).
  pose proof (to_int64_range (PrimFloat.mul (Double.of_Z (mHPTics t)) (NsecPerTic c)))
    as Hn'.
  fold (toNSecs c (mHPTics t)) in Hn'.
  unfold HPTimertoNSec, Negative.
  destruct (Seconds_normalized c (Normalize c t) Hnorm) as [-> [-> _]].
  rewrite Htics.
  assert (0 <= mSeconds (Normalize c t) /\ 0 <= mNSeconds (Normalize c t)) as [Hs Hns].
  { unfold Normalize. rewrite Hn. fields.
    set (n := UInt64.wrap _).
    assert (0 <= n < Int64.modulus) by apply UInt64_wrap_range.
    pose proof (Z.mod_pos_bound n ONE_BILLION ltac:(reflexivity)).
    assert (0 <= n / ONE_BILLION <= n).
    { split; [apply Z.div_pos; int64_consts; lia|].
      apply Z.div_le_upper_bound; int64_consts; lia. }
    assert (n / ONE_BILLION < Int64.half_modulus).
    { apply Z.div_lt_upper_bound; int64_consts; lia. }
    rewrite !Int64_wrap_small by (int64_consts; lia). lia. }
  assert (mSeconds (Normalize c t) < Int64.modulus
          /\ mNSeconds (Normalize c t) < Int64.modulus) as [Hs' Hns'].
  { int64_consts. lia. }
  rewrite (UInt64_wrap_small (mSeconds (Normalize c t))) by (int64_consts; lia).
  rewrite (UInt64_wrap_small (mNSeconds (Normalize c t))) by (int64_consts; lia).
  rewrite nsec_total_small by (int64_consts; lia).
  rewrite Htot.
  destruct (mHPTics t <? 0).
  - rewrite Int64_wrap_UInt64_wrap. apply Int64_wrap_small. int64_consts. lia.
  - apply Int64_wrap_small. int64_consts. lia.
Qed.

Lemma HPTimertoNSec_lazy_witness :
  HPTimertoNSec Examples.hpet_statics (set_mHPTics (-1000) Examples.zeroed)
  = if mHPTics (set_mHPTics (-1000) Examples.zeroed) <? 0
    then - Z.abs (toNSecs Examples.hpet_statics
                    (mHPTics (set_mHPTics (-1000) Examples.zeroed)))
    else Z.abs (toNSecs Examples.hpet_statics
                  (mHPTics (set_mHPTics (-1000) Examples.zeroed))).
Proof.
  apply (HPTimertoNSec_lazy Examples.hpet_statics (set_mHPTics (-1000) Examples.zeroed));
    evaluate.
Defined.

(** ** The timing hardware *)

Lemma byte_at_range : forall m off, 0 <= byte_at m off < 256.
Proof.
  intros. unfold byte_at.
  pose proof (Byte.to_N_bounded (nth off m Byte.x00)). lia.
Qed.

Lemma load_le_range : forall n m off, 0 <= load_le n m off < 256 ^ Z.of_nat n.
Proof.
  induction n as [|n IH]; intros m off.
  - cbn. lia.
  - cbn [load_le]. pose proof (byte_at_range m off). specialize (IH m (S off)).
    rewrite Nat2Z.inj_succ, Z.pow_succ_r by lia. lia.
Qed.

Lemma load_le_8_split : forall m off,
  load_le 8 m off = load_le 4 m off + 4294967296 * load_le 4 m (4 + off).
Proof. intros. cbn [load_le Nat.add]. lia. Qed.

Lemma lor_high_low : forall h lo,
  0 <= lo < 4294967296 -> Z.lor (h * 4294967296) lo = h * 4294967296 + lo.
Proof.
  intros h lo Hlo.
  rewrite <- (Z.add_lor_land (h * 4294967296) lo).
  assert (Z.land (h * 4294967296) lo = 0) as ->; [|lia].
  apply Z.bits_inj'. intros i Hi. rewrite Z.land_spec, Z.bits_0.
  destruct (Z_lt_le_dec i 32).
  - change 4294967296 with (2 ^ 32). rewrite Z.mul_pow2_bits_low by assumption. reflexivity.
  - rewrite <- (Z.mod_small lo (2 ^ 32)) by (change (2 ^ 32) with 4294967296; lia).
    rewrite Z.mod_pow2_bits_high by lia. apply andb_false_r.
Qed.

(** The 32-bit load through an [int32_t] pointer, converted to [uint64_t]. *)
Lemma sign_extended_load : forall x, 0 <= x < 4294967296 ->
  UInt64.wrap (Int32.wrap x)
  = if x <? 2147483648 then x else 18446744069414584320 + x.
Proof.
  intros x Hx. unfold Int32.wrap, UInt64.wrap, Int64.modulus.
  destruct (Z.ltb_spec x 2147483648).
  - rewrite (Z.mod_small (x + 2147483648)) by lia.
    rewrite Z.mod_small; lia.
  - replace (x + 2147483648) with (x - 2147483648 + 1 * 4294967296) by lia.
    rewrite Z.mod_add by lia. rewrite (Z.mod_small (x - 2147483648)) by lia.
    symmetry. apply (Z.mod_unique_pos _ _ (-1)); lia.
Qed.

Lemma shifted_high_half : forall x, 0 <= x < 4294967296 ->
  UInt64.wrap (Z.shiftl (UInt64.wrap (Int32.wrap x)) 32) = x * 4294967296.
Proof.
  intros x Hx. rewrite sign_extended_load by assumption.
  rewrite Z.shiftl_mul_pow2 by lia. change (2 ^ 32) with 4294967296.
  unfold UInt64.wrap, Int64.modulus.
  destruct (x <? 2147483648).
  - apply Z.mod_small. lia.
  - symmetry. apply (Z.mod_unique_pos _ _ 4294967295); lia.
Qed.

(** X15.  The 32-bit branch of [GetHPETTics] reads both halves of the
    main counter through [int32_t] pointers, so the low half is widened
    with its sign: while bit 31 of the low half is clear the result is the
    64-bit counter, and once it is set the result is the low half minus
    [2^32], a negative number, whatever the high half holds. *)
Theorem GetHPETTics_32bit_sign_extends : forall m,
  (load_le 4 m MainCounterOffset < 2147483648 ->
     GetHPETTics_32bit m = Int64.wrap (main_counter m))
  /\ (2147483648 <= load_le 4 m MainCounterOffset ->
     GetHPETTics_32bit m = load_le 4 m MainCounterOffset - 4294967296).
Proof.
  intro m.
  pose proof (load_le_range 4 m MainCounterOffset) as Hlo.
  pose proof (load_le_range 4 m MainCounterOffsetHigh) as Hhi.
  change (256 ^ Z.of_nat 4) with 4294967296 in *.
  unfold GetHPETTics_32bit. rewrite shifted_high_half by assumption.
  rewrite sign_extended_load by assumption.
  split; intro H.
  - destruct (Z.ltb_spec (load_le 4 m MainCounterOffset) 2147483648); [|lia].
    rewrite lor_high_low by assumption.
    unfold main_counter. rewrite load_le_8_split.
    change (4 + MainCounterOffset)%nat with MainCounterOffsetHigh.
    f_equal. lia.
  - destruct (Z.ltb_spec (load_le 4 m MainCounterOffset) 2147483648); [lia|].
    set (lo := load_le 4 m MainCounterOffset) in *.
    set (hi := load_le 4 m MainCounterOffsetHigh) in *.
    replace (18446744069414584320 + lo) with (4294967295 * 4294967296 + lo) by lia.
    rewrite <- (lor_high_low 4294967295 lo) by assumption.
    rewrite Z.lor_assoc.
    assert (Z.lor (hi * 4294967296) (4294967295 * 4294967296) = 4294967295 * 4294967296) as ->.
    { change 4294967296 with (2 ^ 32) at 1 2 3. rewrite <- !Z.shiftl_mul_pow2 by lia.
      rewrite <- Z.shiftl_lor. f_equal.
      change 4294967295 with (Z.ones 32).
      destruct (Z.eq_dec hi 0) as [->|Hnz]; [reflexivity|].
      apply Z.lor_ones_low; [lia|].
      apply Z.log2_lt_pow2; [lia|]. change (2 ^ 32) with 4294967296. lia. }
    rewrite lor_high_low by assumption.
    rewrite Int64_wrap_high by (int64_consts; lia). int64_consts. lia.
Qed.

Lemma GetHPETTics_32bit_sign_extends_witness :
  GetHPETTics_32bit Examples.hpet_regs_low_half_set
  = load_le 4 Examples.hpet_regs_low_half_set MainCounterOffset - 4294967296
  /\ main_counter Examples.hpet_regs_low_half_set = 23622320129.
Proof.
  split.
  - apply (proj2 (GetHPETTics_32bit_sign_extends Examples.hpet_regs_low_half_set)).
    evaluate.
  - vm_compute. reflexivity.
Defined.

(** [CPU_TSC()] puts the two halves [RDTSC] delivers together: read as
    unsigned, the result is [high32 * 2^32 + low32]. *)
Lemma CPU_TSC_composes_halves : forall low32 high32,
  0 <= low32 < 4294967296 -> 0 <= high32 < 4294967296 ->
  UInt64.wrap (CPU_TSC low32 high32) = high32 * 4294967296 + low32.
Proof.
  intros lo hi Hlo Hhi. unfold CPU_TSC.
  rewrite Z.shiftl_mul_pow2 by lia. change (2 ^ 32) with 4294967296.
  rewrite (UInt64_wrap_small (hi * 4294967296)) by (int64_consts; lia).
  rewrite lor_high_low by assumption.
  unfold Int64.wrap, UInt64.wrap.
  rewrite Zminus_mod_idemp_l.
  replace (hi * 4294967296 + lo + Int64.half_modulus - Int64.half_modulus)
    with (hi * 4294967296 + lo) by lia.
  apply Z.mod_small. int64_consts. lia.
Qed.

Lemma HpetMcounterSize_zero : forall m,
  (HpetMcounterSize m =? 0) = (load_le 8 m 0 <? 8192).
Proof.
  intro m. pose proof (load_le_range 8 m 0) as Hv.
  change (256 ^ Z.of_nat 8) with Int64.modulus in Hv.
  unfold HpetMcounterSize. set (v := load_le 8 m 0) in *.
  rewrite Z.shiftr_div_pow2 by lia. change (2 ^ 13) with 8192.
  destruct (Z_lt_le_dec v Int64.half_modulus) as [Hlow|Hhigh].
  - rewrite Int64_wrap_small by (int64_consts; lia).
    assert (0 <= v / 8192 <= v).
    { split; [apply Z.div_pos; lia|apply Z.div_le_upper_bound; lia]. }
    rewrite UInt64_wrap_small by (int64_consts; lia).
    destruct (Z.ltb_spec v 8192).
    + rewrite Z.div_small by lia. reflexivity.
    + apply Z.eqb_neq. intro E.
      pose proof (Z.div_le_mono 8192 v 8192 ltac:(lia) ltac:(lia)) as Hd.
      rewrite Z.div_same in Hd by lia. lia.
  - rewrite Int64_wrap_high by (int64_consts; lia).
    assert (- Int64.half_modulus <= (v - Int64.modulus) / 8192 < 0).
    { split; [apply Z.div_le_lower_bound; int64_consts; lia|].
      apply Z.div_lt_upper_bound; int64_consts; lia. }
    destruct (Z.ltb_spec v 8192); [int64_consts; lia|].
    apply Z.eqb_neq. unfold UInt64.wrap.
    rewrite <- (Z.mod_add _ 1) by (int64_consts; lia).
    rewrite Z.mod_small by (int64_consts; lia). int64_consts. lia.
Qed.

(** X16.  Once [/dev/hpet] is opened and mapped, [InitHPETTimer]
    succeeds exactly when the 64-bit capabilities register is at least
    [2^13]: its test [( *HpetAdd_ptr ) >> 13] looks at all the bits from 13
    upwards, not at the counter-size bit alone.  So it succeeds whenever
    the period in the upper half of the register is not zero, whatever the
    counter-size bit says. *)
Theorem InitHPETTimer_counter_size_check : forall dev s m,
  0 <= open_result dev -> mmap_result dev = Some m ->
  fst (fst (InitHPETTimer dev s)) = negb (load_le 8 m 0 <? 8192)
  /\ (load_le 4 m PeriodOffset <> 0 -> fst (fst (InitHPETTimer dev s)) = true).
Proof.
  intros dev s m Hfd Hmap.
  assert (fst (fst (InitHPETTimer dev s)) = negb (load_le 8 m 0 <? 8192)) as Hres.
  { unfold InitHPETTimer. cbn [HpetFd set_HpetFd HpetAdd_ptr set_HpetAdd_ptr].
    destruct (Z.ltb_spec (open_result dev) 0); [lia|].
    rewrite Hmap, HpetMcounterSize_zero.
    destruct (load_le 8 m 0 <? 8192); reflexivity. }
  split; [exact Hres|].
  intro Hperiod. rewrite Hres.
  rewrite load_le_8_split. change (4 + 0)%nat with PeriodOffset.
  pose proof (load_le_range 4 m 0). pose proof (load_le_range 4 m PeriodOffset).
  destruct (Z.ltb_spec (load_le 4 m 0 + 4294967296 * load_le 4 m PeriodOffset) 8192);
    [lia|reflexivity].
Qed.

Lemma InitHPETTimer_counter_size_check_witness :
  (fst (fst (InitHPETTimer Examples.narrow_hpet Examples.hpet_at_load))
   = negb (load_le 8 Examples.hpet_32bit_regs 0 <? 8192)
   /\ fst (fst (InitHPETTimer Examples.narrow_hpet Examples.hpet_at_load)) = true)
  /\ Z.testbit (load_le 8 Examples.hpet_32bit_regs 0) 13 = false.
Proof.
  split; [|vm_compute; reflexivity].
  destruct (InitHPETTimer_counter_size_check Examples.narrow_hpet Examples.hpet_at_load
              Examples.hpet_32bit_regs ltac:(evaluate) eq_refl) as [Hres Hperiod].
  split; [exact Hres|apply Hperiod; evaluate].
Defined.

(** When [/dev/hpet] opens but cannot be mapped, [InitHPETTimer] closes
    the descriptor and leaves its number in [HpetFd], so that the clean up
    closes that number again. *)
Lemma InitHPETTimer_unmappable : forall dev s,
  0 <= open_result dev -> mmap_result dev = None ->
  fst (fst (InitHPETTimer dev s)) = false
  /\ snd (InitHPETTimer dev s)
     = [SysOpen (open_result dev); SysMmap (open_result dev); SysClose (open_result dev)]
  /\ snd (HPTimerInitAndClean_dtor (snd (fst (InitHPETTimer dev s))))
     = [SysClose (open_result dev)].
Proof.
  intros dev s Hfd Hmap. unfold InitHPETTimer.
  cbn [HpetFd set_HpetFd HpetAdd_ptr set_HpetAdd_ptr].
  destruct (Z.ltb_spec (open_result dev) 0); [lia|].
  rewrite Hmap. cbn [fst snd]. repeat split.
  unfold HPTimerInitAndClean_dtor.
  cbn [HpetFd set_HPETFailReason set_HpetAdd_ptr set_HpetFd].
  destruct (Z.geb_spec (open_result dev) 0); [reflexivity|lia].
Qed.

(** X17.  What [InitTSCTimer] leaves in the flags, for every processor:
    its result is [HasConstantTSC], [HasInvariantTSC] is never set
    without [HasConstantTSC], and the vendor and brand strings hold 12 and
    48 bytes. *)
Theorem InitTSCTimer_flags : forall cpu s,
  fst (InitTSCTimer cpu s) = HasConstantTSC (snd (InitTSCTimer cpu s))
  /\ (HasInvariantTSC (snd (InitTSCTimer cpu s)) = true ->
      HasConstantTSC (snd (InitTSCTimer cpu s)) = true)
  /\ length (VendorString (snd (InitTSCTimer cpu s))) = 12%nat
  /\ length (BrandString (snd (InitTSCTimer cpu s))) = 48%nat.
Proof.
  intros cpu s. unfold InitTSCTimer. cbv zeta.
  repeat match goal with
         | |- context [if ?b then _ else _] => destruct b
         end;
    cbn [fst snd HasConstantTSC HasInvariantTSC VendorString BrandString
         set_HasConstantTSC set_HasInvariantTSC set_HasRDTSCPinst
         set_BrandString set_VendorString GetCPUBrand GetVendorID];
    repeat split; try discriminate; reflexivity.
Qed.

Lemma ExecuteCPUID_agree : forall cpu cpu' eax,
  (forall eax, eax <> EaxForCPUIDSign -> cpu eax = cpu' eax) ->
  eax mod 4294967296 <> EaxForCPUIDSign ->
  ExecuteCPUID cpu eax = ExecuteCPUID cpu' eax.
Proof. intros cpu cpu' eax H Hne. unfold ExecuteCPUID. apply H. exact Hne. Qed.

(** X18.  The answer to the leaf [0x80000000] (the highest extended leaf)
    has no part in what [InitTSCTimer] returns or stores: two processors
    that agree on every other leaf get the same result and the same flags
    and strings.  The leaf [0x80000007] is read and its invariant-TSC bit
    trusted also when the processor reports a lower highest leaf. *)
Theorem InitTSCTimer_ignores_highest_leaf : forall cpu cpu' s s',
  (forall eax, eax <> EaxForCPUIDSign -> cpu eax = cpu' eax) ->
  InitTSCTimer cpu s = InitTSCTimer cpu' s'.
Proof.
  intros cpu cpu' s s' H.
  unfold InitTSCTimer, GetVendorID, GetCPUBrand. cbn [fold_left seq].
  rewrite (ExecuteCPUID_agree cpu cpu' EaxForVendor H),
          (ExecuteCPUID_agree cpu cpu' (EaxForBrand + Z.of_nat 0) H),
          (ExecuteCPUID_agree cpu cpu' (EaxForBrand + Z.of_nat 1) H),
          (ExecuteCPUID_agree cpu cpu' (EaxForBrand + Z.of_nat 2) H),
          (ExecuteCPUID_agree cpu cpu' EaxForRDTSCP H),
          (ExecuteCPUID_agree cpu cpu' 1 H),
          (ExecuteCPUID_agree cpu cpu' EaxForInvarTSC H)
    by (vm_compute; discriminate).
  cbv zeta.
  destruct s as [b v r i k], s' as [b' v' r' i' k'].
  destruct (EAXBuf (ExecuteCPUID cpu EaxForCPUIDSign) <? EaxForInvarTSC);
    destruct (EAXBuf (ExecuteCPUID cpu' EaxForCPUIDSign) <? EaxForInvarTSC);
    destruct (negb (Z.land (Z.shiftr (EDXBuf (ExecuteCPUID cpu' EaxForRDTSCP)) 27) 1 =? 0));
    unfold set_VendorString, set_BrandString, set_HasRDTSCPinst, set_HasInvariantTSC,
           set_HasConstantTSC;
    cbn [VendorString BrandString HasRDTSCPinst HasInvariantTSC HasConstantTSC];
    repeat match goal with
           | |- context [if ?b then _ else _] => destruct b
           end;
    reflexivity.
Qed.

Lemma InitTSCTimer_ignores_highest_leaf_witness :
  InitTSCTimer Examples.intel_core2 Examples.tsc_at_load
  = InitTSCTimer Examples.intel_core2_few_leaves Examples.tsc_at_load.
Proof.
  apply (InitTSCTimer_ignores_highest_leaf Examples.intel_core2
           Examples.intel_core2_few_leaves).
  intros eax Hne. unfold Examples.intel_core2_few_leaves.
  destruct (Z.eqb_spec eax 2147483648) as [E|_]; [|reflexivity].
  exfalso. apply Hne. exact E.
Defined.

Lemma byte_of_Z_value : forall v, Z.of_N (Byte.to_N (byte_of_Z v)) = v mod 256.
Proof.
  intro v. unfold byte_of_Z.
  pose proof (Z.mod_pos_bound v 256 ltac:(lia)) as Hr.
  destruct (Byte.of_N (Z.to_N (v mod 256))) as [b|] eqn:E.
  - apply Byte.to_of_N in E. rewrite E. apply Z2N.id. lia.
  - apply Byte.of_N_None_iff in E. lia.
Qed.

Lemma four_bytes_value : forall v, 0 <= v < 4294967296 ->
  v mod 256
  + 256 * ((v / 256) mod 256
           + 256 * ((v / 256 / 256) mod 256
                    + 256 * ((v / 256 / 256 / 256) mod 256 + 256 * 0))) = v.
Proof.
  intros v Hv.
  pose proof (Z.div_mod v 256 ltac:(lia)).
  pose proof (Z.div_mod (v / 256) 256 ltac:(lia)).
  pose proof (Z.div_mod (v / 256 / 256) 256 ltac:(lia)).
  pose proof (Z.mod_small (v / 256 / 256 / 256) 256) as Hs.
  rewrite Hs; [lia|].
  split; [repeat apply Z.div_pos; lia|].
  repeat (apply Z.div_lt_upper_bound; [lia|]). lia.
Qed.

(** Three registers laid out one after the other are read back from their
    offsets. *)
Lemma load_three_registers : forall a b c,
  0 <= a < 4294967296 -> 0 <= b < 4294967296 -> 0 <= c < 4294967296 ->
  load_le 4 (store_le 4 a ++ store_le 4 b ++ store_le 4 c) 0 = a
  /\ load_le 4 (store_le 4 a ++ store_le 4 b ++ store_le 4 c) 4 = b
  /\ load_le 4 (store_le 4 a ++ store_le 4 b ++ store_le 4 c) 8 = c.
Proof.
  intros a b c Ha Hb Hc.
  cbn [load_le store_le app]. unfold byte_at. cbn [nth].
  rewrite !byte_of_Z_value.
  rewrite (four_bytes_value a Ha), (four_bytes_value b Hb), (four_bytes_value c Hc).
  repeat split.
Qed.

Lemma bytes_eqb_eq : forall a b, bytes_eqb a b = true -> a = b.
Proof.
  induction a as [|x a IH]; destruct b as [|y b]; cbn [bytes_eqb];
    intro H; try discriminate; [reflexivity|].
  apply andb_true_iff in H. destruct H as [Hx Hab].
  apply Byte.byte_dec_bl in Hx. f_equal; [assumption|apply IH; assumption].
Qed.

Lemma vendor_registers : forall ebx edx ecx ebx' edx' ecx',
  0 <= ebx < 4294967296 -> 0 <= edx < 4294967296 -> 0 <= ecx < 4294967296 ->
  0 <= ebx' < 4294967296 -> 0 <= edx' < 4294967296 -> 0 <= ecx' < 4294967296 ->
  store_le 4 ebx ++ store_le 4 edx ++ store_le 4 ecx
  = store_le 4 ebx' ++ store_le 4 edx' ++ store_le 4 ecx' ->
  (ebx, edx, ecx) = (ebx', edx', ecx').
Proof.
  intros ebx edx ecx ebx' edx' ecx' H1 H2 H3 H1' H2' H3' E.
  destruct (load_three_registers ebx edx ecx H1 H2 H3) as [Ea [Eb Ec]].
  destruct (load_three_registers ebx' edx' ecx' H1' H2' H3') as [Ea' [Eb' Ec']].
  rewrite E in Ea, Eb, Ec. congruence.
Qed.

Lemma bit_test : forall x n, 0 <= n ->
  negb (Z.land (Z.shiftr x n) 1 =? 0) = Z.testbit x n.
Proof.
  intros x n Hn. change 1 with (Z.ones 1). rewrite Z.land_ones by lia.
  change (2 ^ 1) with 2.
  rewrite <- (Z.add_0_l n) at 2. rewrite <- Z.shiftr_spec by lia.
  rewrite Z.bit0_eqb.
  pose proof (Z.mod_pos_bound (Z.shiftr x n) 2 ltac:(lia)).
  destruct (Z.eqb_spec (Z.shiftr x n mod 2) 0) as [E|E]; cbn [negb].
  - rewrite E. reflexivity.
  - symmetry. apply Z.eqb_eq. lia.
Qed.

(** X19.  Without the invariant-TSC bit (bit 8 of [EDX] of the leaf
    [0x80000007]) [InitTSCTimer] accepts the TSC of two vendors only: when
    it returns [true] the vendor registers spell "GenuineIntel" or
    "CentaurHauls". *)
Theorem InitTSCTimer_vendors : forall cpu s,
  0 <= EBXBuf (ExecuteCPUID cpu EaxForVendor) < 4294967296 ->
  0 <= EDXBuf (ExecuteCPUID cpu EaxForVendor) < 4294967296 ->
  0 <= ECXBuf (ExecuteCPUID cpu EaxForVendor) < 4294967296 ->
  Z.testbit (EDXBuf (ExecuteCPUID cpu EaxForInvarTSC)) 8 = false ->
  fst (InitTSCTimer cpu s) = true ->
  (EBXBuf (ExecuteCPUID cpu EaxForVendor), EDXBuf (ExecuteCPUID cpu EaxForVendor),
   ECXBuf (ExecuteCPUID cpu EaxForVendor)) = (1970169159, 1231384169, 1818588270)
  \/ (EBXBuf (ExecuteCPUID cpu EaxForVendor), EDXBuf (ExecuteCPUID cpu EaxForVendor),
      ECXBuf (ExecuteCPUID cpu EaxForVendor)) = (1953391939, 1215460705, 1936487777).
Proof.
  intros cpu s Hb Hd Hc Hinv.
  set (ebx := EBXBuf (ExecuteCPUID cpu EaxForVendor)) in *.
  set (edx := EDXBuf (ExecuteCPUID cpu EaxForVendor)) in *.
  set (ecx := ECXBuf (ExecuteCPUID cpu EaxForVendor)) in *.
  unfold InitTSCTimer. cbv zeta.
  rewrite bit_test by lia. rewrite Hinv.
  assert (forall s0 : TSCStatics,
            VendorString
              (if negb (Z.land (Z.shiftr (EDXBuf (ExecuteCPUID cpu EaxForRDTSCP)) 27) 1 =? 0)
               then set_HasRDTSCPinst true (GetCPUBrand cpu (GetVendorID cpu s0))
               else set_HasRDTSCPinst false (GetCPUBrand cpu (GetVendorID cpu s0)))
            = store_le 4 ebx ++ store_le 4 edx ++ store_le 4 ecx) as Hv.
  { intro s0. destruct (negb _); reflexivity. }
  rewrite !Hv. unfold memcmp_equal.
  change (firstn 12 (store_le 4 ebx ++ store_le 4 edx ++ store_le 4 ecx))
    with (store_le 4 ebx ++ store_le 4 edx ++ store_le 4 ecx).
  change (firstn 12 IntelVendor)
    with (store_le 4 1970169159 ++ store_le 4 1231384169 ++ store_le 4 1818588270).
  change (firstn 12 CentaurVendor)
    with (store_le 4 1953391939 ++ store_le 4 1215460705 ++ store_le 4 1936487777).
  match goal with
  | |- context [if bytes_eqb ?a ?b then _ else _] => destruct (bytes_eqb a b) eqn:Eintel
  end.
  - intros _. left. apply bytes_eqb_eq in Eintel.
    apply vendor_registers; try assumption; lia.
  - match goal with
    | |- context [if bytes_eqb ?a ?b then _ else _] => destruct (bytes_eqb a b) eqn:Ecentaur
    end.
    + intros _. right. apply bytes_eqb_eq in Ecentaur.
      apply vendor_registers; try assumption; lia.
    + cbn [fst]. intro H. discriminate H.
Qed.

Lemma InitTSCTimer_vendors_witness :
  (EBXBuf (ExecuteCPUID Examples.intel_core2 EaxForVendor),
   EDXBuf (ExecuteCPUID Examples.intel_core2 EaxForVendor),
   ECXBuf (ExecuteCPUID Examples.intel_core2 EaxForVendor))
  = (1970169159, 1231384169, 1818588270)
  \/ (EBXBuf (ExecuteCPUID Examples.intel_core2 EaxForVendor),
      EDXBuf (ExecuteCPUID Examples.intel_core2 EaxForVendor),
      ECXBuf (ExecuteCPUID Examples.intel_core2 EaxForVendor))
     = (1953391939, 1215460705, 1936487777).
Proof.
  apply (InitTSCTimer_vendors Examples.intel_core2 Examples.tsc_at_load); evaluate.
Defined.

(** ** Initialization and the choice of the time source *)

Lemma TimeSource_eqb_eq : forall a b, TimeSource_eqb a b = true <-> a = b.
Proof. intros [] []; cbn; split; intro H; try reflexivity; discriminate. Qed.

Lemma InitMaxMinHPTimer_run : forall c,
  InitMaxMinHPTimer c =
    (Return tt,
     set_HPTimer_MIN
       (set_mNormalized false
          (set_mHPTics (if TimeSource_eqb HPET (HPTimerSource c)
                        then Z.quot Int64.min 120 else Int64.min)
                       (HPTimer_MIN c)))
       (set_HPTimer_MAX
          (set_mNormalized false
             (set_mHPTics (if TimeSource_eqb HPET (HPTimerSource c)
                           then Z.quot Int64.max 120 else Int64.max)
                          (HPTimer_MAX c)))
          c)).
Proof.
  intro c. unfold InitMaxMinHPTimer.
  destruct (TimeSource_eqb HPET (HPTimerSource c)); rewrite !SetTics_always_stores;
    reflexivity.
Qed.

(** X20.  [InitMaxMinHPTimer] never throws, and the bounds it sets are
    values of [int64_t] with [HPTimer_MIN < 0 < HPTimer_MAX] and
    [HPTimer_MIN <= - HPTimer_MAX], both marked not normalized: the
    conditions under which the guards of the arithmetic are exact. *)
Theorem InitMaxMinHPTimer_bounds : forall c,
  fst (InitMaxMinHPTimer c) = Return tt
  /\ Int64.in_range (HPTics (HPTimer_MAX (snd (InitMaxMinHPTimer c))))
  /\ Int64.in_range (HPTics (HPTimer_MIN (snd (InitMaxMinHPTimer c))))
  /\ HPTics (HPTimer_MIN (snd (InitMaxMinHPTimer c))) < 0
     < HPTics (HPTimer_MAX (snd (InitMaxMinHPTimer c)))
  /\ HPTics (HPTimer_MIN (snd (InitMaxMinHPTimer c)))
     <= - HPTics (HPTimer_MAX (snd (InitMaxMinHPTimer c)))
  /\ mNormalized (HPTimer_MAX (snd (InitMaxMinHPTimer c))) = false
  /\ mNormalized (HPTimer_MIN (snd (InitMaxMinHPTimer c))) = false.
Proof.
  intro c. rewrite InitMaxMinHPTimer_run. cbn [fst snd].
  unfold HPTics. cbn [HPTimer_MAX HPTimer_MIN set_HPTimer_MAX set_HPTimer_MIN].
  fields.
  destruct (TimeSource_eqb HPET (HPTimerSource c));
    repeat split; try reflexivity; try discriminate.
Qed.

(** X21.  [SetTimerSource ( TimeSource::OS )] from another source always
    succeeds, whatever the hardware: it returns [OS] with one tick per
    nanosecond, no shift against the Unix epoch and the whole range of
    [int64_t] as bounds, and it touches neither [HPJiffies] nor the
    statics of the TSC and the HPET. *)
Theorem SetTimerSource_OS : forall fuel cpu dev measure ts hw p,
  HPTimerSource (timer p) <> OS -> fuel <> 0%nat ->
  exists c,
    SetTimerSource fuel cpu dev measure ts hw OS p
    = (Finished OS, mkProcess c (tsc p) (hpet_timer p) (syscalls p))
    /\ HPTimerSource c = OS
    /\ NsecPerTic c = 1%float
    /\ TicsPerUsec c = 1000
    /\ UnixZeroShift c = 0
    /\ HPTics (HPTimer_MAX c) = Int64.max
    /\ HPTics (HPTimer_MIN c) = Int64.min
    /\ HPJiffies c = HPJiffies (timer p).
Proof.
  intros fuel cpu dev measure ts hw p Hsrc Hfuel.
  destruct fuel as [|fuel]; [contradiction|].
  unfold SetTimerSource.
  destruct (TimeSource_eqb OS (HPTimerSource (timer p))) eqn:E.
  { apply TimeSource_eqb_eq in E. congruence. }
  cbn [TimeSource_eqb negb InitHPFrequency HPTimerSource set_HPTimerSource].
  unfold InitUnixZeroShift.
  cbn [TimeSource_eqb HPTimerSource set_frequency set_UnixZeroShift].
  rewrite InitMaxMinHPTimer_run.
  cbn [TimeSource_eqb HPTimerSource set_frequency set_UnixZeroShift].
  eexists. split; [reflexivity|].
  cbn [HPTimerSource NsecPerTic TicsPerUsec UnixZeroShift HPTimer_MAX HPTimer_MIN
       HPJiffies set_HPTimer_MAX set_HPTimer_MIN].
  unfold HPTics. fields. repeat split.
Qed.

Lemma SetTimerSource_OS_witness :
  exists c,
    SetTimerSource 1 Examples.unknown_processor Examples.unmappable_hpet
                   Examples.steady_trials {| tv_sec := 1700000000; tv_nsec := 0 |}
                   (Examples.ticking 0) OS (Examples.process_on Examples.tsc_statics)
    = (Finished OS,
       mkProcess c (tsc (Examples.process_on Examples.tsc_statics))
                 (hpet_timer (Examples.process_on Examples.tsc_statics))
                 (syscalls (Examples.process_on Examples.tsc_statics)))
    /\ HPTimerSource c = OS
    /\ NsecPerTic c = 1%float
    /\ TicsPerUsec c = 1000
    /\ UnixZeroShift c = 0
    /\ HPTics (HPTimer_MAX c) = Int64.max
    /\ HPTics (HPTimer_MIN c) = Int64.min
    /\ HPJiffies c = HPJiffies (timer (Examples.process_on Examples.tsc_statics)).
Proof.
  apply (SetTimerSource_OS 1 Examples.unknown_processor Examples.unmappable_hpet
           Examples.steady_trials {| tv_sec := 1700000000; tv_nsec := 0 |}
           (Examples.ticking 0) (Examples.process_on Examples.tsc_statics)).
  - vm_compute. discriminate.
  - discriminate.
Defined.

(** X22.  A switch to the TSC whose calibration gives up (four sample
    sets in a row are abandoned for a peak) leaves the library half
    switched: [SetTimerSource ( TimeSource::TSC )] throws
    [std::exception] with [HPTimerSource] already [TSC] while the
    frequency, the shift and the bounds are still those of the old source;
    and every later [SetTimerSource ( TimeSource::TSC )] returns [TSC] at
    once, repairing nothing. *)
Theorem SetTimerSource_TSC_failure : forall fuel cpu dev measure ts hw p,
  HPTimerSource (timer p) <> TSC ->
  fst (InitTSCTimer cpu (tsc p)) = true ->
  InitFreqAttempt (timer p) = 0 ->
  (4 <= fuel)%nat ->
  (forall j, (j <= 3)%nat -> scan (measure j) = ScanAgain) ->
  exists p',
    SetTimerSource fuel cpu dev measure ts hw TSC p = (Thrown std_exception, p')
    /\ HPTimerSource (timer p') = TSC
    /\ NsecPerTic (timer p') = NsecPerTic (timer p)
    /\ TicsPerUsec (timer p') = TicsPerUsec (timer p)
    /\ UnixZeroShift (timer p') = UnixZeroShift (timer p)
    /\ HPTimer_MAX (timer p') = HPTimer_MAX (timer p)
    /\ HPTimer_MIN (timer p') = HPTimer_MIN (timer p)
    /\ (forall fuel' cpu' dev' measure' ts' hw',
          SetTimerSource fuel' cpu' dev' measure' ts' hw' TSC p' = (Finished TSC, p')).
Proof.
  intros fuel cpu dev measure ts hw p Hsrc Hok Hattempt Hfuel Hall.
  unfold SetTimerSource.
  destruct (TimeSource_eqb TSC (HPTimerSource (timer p))) eqn:E.
  { apply TimeSource_eqb_eq in E. congruence. }
  cbn [TimeSource_eqb].
  destruct (InitTSCTimer cpu (tsc p)) as [ok tsc'] eqn:Etsc.
  cbn [fst] in Hok. subst ok. cbn [negb timer tsc hpet_timer syscalls].
  rewrite (InitHPFrequency_gives_up 3%nat);
    [ | reflexivity
      | cbn [InitFreqAttempt set_HPTimerSource]; rewrite Hattempt; reflexivity
      | lia
      | assumption ].
  eexists. split; [reflexivity|].
  cbn [timer HPTimerSource NsecPerTic TicsPerUsec UnixZeroShift HPTimer_MAX HPTimer_MIN
       set_InitFreqAttempt set_HPTimerSource].
  repeat split.
Qed.

Lemma SetTimerSource_TSC_failure_witness :
  exists p',
    SetTimerSource 4 Examples.intel_core2 Examples.unmappable_hpet
                   (fun _ => Examples.peak_first) {| tv_sec := 1700000000; tv_nsec := 0 |}
                   (Examples.ticking 0) TSC (Examples.process_on Examples.os_statics)
    = (Thrown std_exception, p')
    /\ HPTimerSource (timer p') = TSC
    /\ NsecPerTic (timer p') = NsecPerTic (timer (Examples.process_on Examples.os_statics))
    /\ TicsPerUsec (timer p') = TicsPerUsec (timer (Examples.process_on Examples.os_statics))
    /\ UnixZeroShift (timer p')
       = UnixZeroShift (timer (Examples.process_on Examples.os_statics))
    /\ HPTimer_MAX (timer p') = HPTimer_MAX (timer (Examples.process_on Examples.os_statics))
    /\ HPTimer_MIN (timer p') = HPTimer_MIN (timer (Examples.process_on Examples.os_statics))
    /\ (forall fuel' cpu' dev' measure' ts' hw',
          SetTimerSource fuel' cpu' dev' measure' ts' hw' TSC p' = (Finished TSC, p')).
Proof.
  apply (SetTimerSource_TSC_failure 4 Examples.intel_core2 Examples.unmappable_hpet
           (fun _ => Examples.peak_first) {| tv_sec := 1700000000; tv_nsec := 0 |}
           (Examples.ticking 0) (Examples.process_on Examples.os_statics)).
  - vm_compute. discriminate.
  - vm_compute. reflexivity.
  - vm_compute. reflexivity.
  - lia.
  - intros j _. vm_compute. reflexivity.
Defined.

(** The TSC is preferred: when it is usable [/dev/hpet] is not even
    opened. *)
Lemma InitTimerSource_prefers_TSC : forall cpu dev hw p,
  fst (InitTSCTimer cpu (tsc p)) = true ->
  HPTimerSource (timer (InitTimerSource cpu dev hw p)) = TSC
  /\ syscalls (InitTimerSource cpu dev hw p) = syscalls p
  /\ hpet_timer (InitTimerSource cpu dev hw p) = hpet_timer p.
Proof.
  intros cpu dev hw p Hok. unfold InitTimerSource.
  destruct (InitTSCTimer cpu (tsc p)) as [ok tsc']. cbn [fst] in Hok. subst ok.
  repeat split.
Qed.

(** Without the TSC and the HPET the OS clock is left. *)
Lemma InitTimerSource_without_HPET : forall cpu dev hw p,
  fst (InitTSCTimer cpu (tsc p)) = false ->
  fst (fst (InitHPETTimer dev (hpet_timer p))) = false ->
  HPTimerSource (timer (InitTimerSource cpu dev hw p)) = OS.
Proof.
  intros cpu dev hw p Htsc Hhpet. unfold InitTimerSource.
  destruct (InitTSCTimer cpu (tsc p)) as [ok tsc']. cbn [fst] in Htsc. subst ok.
  destruct (InitHPETTimer dev (hpet_timer p)) as [[ok hpet'] calls].
  cbn [fst] in Hhpet. subst ok. reflexivity.
Qed.

Lemma classify_values : forall d counts j,
  classify d counts = Settled j ->
  In j [HZ100Jiffies; HZ250Jiffies; HZ300Jiffies; HZ1000Jiffies].
Proof.
  intros d counts j. unfold classify. cbv zeta.
  repeat match goal with
         | |- (if ?b then _ else _) = _ -> _ => destruct b
         end;
    intro H; try discriminate H; injection H as <-; cbn [In]; auto.
Qed.

Lemma InitSecPerJiffy_loop_values : forall todo i fuel ru_utime hw reads counts c c',
  InitSecPerJiffy_loop todo i fuel ru_utime hw reads counts c = Finished c' ->
  exists j,
    In j [HZ100Jiffies; HZ250Jiffies; HZ300Jiffies; HZ1000Jiffies]
    /\ c' = set_HPJiffies j c.
Proof.
  induction todo as [|todo IH]; intros i fuel ru_utime hw reads counts c c' Hrun.
  - cbn [InitSecPerJiffy_loop] in Hrun. injection Hrun as <-.
    exists HZ250Jiffies. split; [right; left; reflexivity|reflexivity].
  - cbn [InitSecPerJiffy_loop] in Hrun. cbv zeta in Hrun.
    destruct (spin_until _ _ _ _ _) as [reads'|]; [|discriminate].
    destruct (classify _ counts) as [j|counts'] eqn:Ecl.
    + injection Hrun as <-. exists j. split; [|reflexivity].
      apply classify_values in Ecl. exact Ecl.
    + apply IH in Hrun. exact Hrun.
Qed.

(** X23.  Whenever [InitSecPerJiffy] returns, [HPJiffies] is one of
    [1/100], [1/250], [1/300] and [1/1000] seconds, whatever [getrusage]
    and the time source delivered, and no other static has changed. *)
Theorem InitSecPerJiffy_values : forall fuel ru_utime hw c c',
  InitSecPerJiffy fuel ru_utime hw c = Finished c' ->
  (HPJiffies c' = HZ100Jiffies \/ HPJiffies c' = HZ250Jiffies
   \/ HPJiffies c' = HZ300Jiffies \/ HPJiffies c' = HZ1000Jiffies)
  /\ c' = set_HPJiffies (HPJiffies c') c.
Proof.
  intros fuel ru_utime hw c c' Hrun. unfold InitSecPerJiffy in Hrun.
  apply InitSecPerJiffy_loop_values in Hrun. destruct Hrun as [j [Hin Hc]].
  assert (HPJiffies c' = j) as Hj by (rewrite Hc; reflexivity).
  split; [|rewrite Hj; exact Hc].
  rewrite Hj.
  destruct Hin as [H|[H|[H|[H|[]]]]]; symmetry in H; auto.
Qed.

Lemma InitSecPerJiffy_values_witness :
  (HPJiffies (set_HPJiffies HZ1000Jiffies Examples.os_statics) = HZ100Jiffies
   \/ HPJiffies (set_HPJiffies HZ1000Jiffies Examples.os_statics) = HZ250Jiffies
   \/ HPJiffies (set_HPJiffies HZ1000Jiffies Examples.os_statics) = HZ300Jiffies
   \/ HPJiffies (set_HPJiffies HZ1000Jiffies Examples.os_statics) = HZ1000Jiffies)
  /\ set_HPJiffies HZ1000Jiffies Examples.os_statics
     = set_HPJiffies (HPJiffies (set_HPJiffies HZ1000Jiffies Examples.os_statics))
                     Examples.os_statics.
Proof.
  apply (InitSecPerJiffy_values 10 Examples.user_time Examples.ticking Examples.os_statics).
  vm_compute. reflexivity.
Defined.

(** What [InitHPFrequency] leaves alone, whatever its ending. *)
Lemma InitHPFrequency_keeps : forall fuel measure regs c r c',
  InitHPFrequency fuel measure regs c = (r, c') ->
  HPTimerSource c' = HPTimerSource c
  /\ HPTimer_MAX c' = HPTimer_MAX c /\ HPTimer_MIN c' = HPTimer_MIN c
  /\ UnixZeroShift c' = UnixZeroShift c /\ HPJiffies c' = HPJiffies c.
Proof.
  induction fuel as [|fuel IH]; intros measure regs c r c' Hrun.
  - cbn [InitHPFrequency] in Hrun. injection Hrun as _ <-. repeat split.
  - cbn [InitHPFrequency] in Hrun. cbv zeta in Hrun.
    destruct (TimeSource_eqb TSC (HPTimerSource c)).
    + destruct (exclude_peak _ _ _ _ _);
        [injection Hrun as _ <-; repeat split|].
      destruct (InitFreqAttempt c <? 3).
      * apply IH in Hrun. exact Hrun.
      * injection Hrun as _ <-. repeat split.
    + destruct (TimeSource_eqb HPET (HPTimerSource c));
        injection Hrun as _ <-; repeat split.
Qed.

Lemma InitHPFrequency_OS : forall fuel measure regs c c',
  HPTimerSource c = OS ->
  InitHPFrequency fuel measure regs c = (Finished tt, c') ->
  NsecPerTic c' = 1%float /\ TicsPerUsec c' = 1000.
Proof.
  intros [|fuel] measure regs c c' Hsrc Hrun; cbn [InitHPFrequency] in Hrun.
  - discriminate.
  - rewrite Hsrc in Hrun. cbn [TimeSource_eqb] in Hrun.
    injection Hrun as <-. split; reflexivity.
Qed.

Lemma InitUnixZeroShift_keeps : forall ts hw c,
  HPTimerSource (InitUnixZeroShift ts hw c) = HPTimerSource c
  /\ NsecPerTic (InitUnixZeroShift ts hw c) = NsecPerTic c
  /\ TicsPerUsec (InitUnixZeroShift ts hw c) = TicsPerUsec c
  /\ InitFreqAttempt (InitUnixZeroShift ts hw c) = InitFreqAttempt c
  /\ (HPTimerSource c = OS -> UnixZeroShift (InitUnixZeroShift ts hw c) = 0).
Proof.
  intros ts hw c. unfold InitUnixZeroShift.
  destruct (TimeSource_eqb OS (HPTimerSource c)) eqn:E; repeat split;
    intro H; rewrite H in E; discriminate E.
Qed.

(** The HPET is chosen only with its registers mapped. *)
Lemma InitTimerSource_HPET_mapped : forall cpu dev hw p,
  HPTimerSource (timer (InitTimerSource cpu dev hw p)) = HPET ->
  exists m, HpetAdd_ptr (hpet_timer (InitTimerSource cpu dev hw p)) = Some m.
Proof.
  intros cpu dev hw p. unfold InitTimerSource.
  destruct (InitTSCTimer cpu (tsc p)) as [[] tsc']; [intro H; discriminate H|].
  unfold InitHPETTimer. cbn [HpetFd set_HpetFd HpetAdd_ptr set_HpetAdd_ptr].
  destruct (open_result dev <? 0); [intro H; discriminate H|].
  destruct (mmap_result dev) as [m|]; [|intro H; discriminate H].
  destruct (HpetMcounterSize m =? 0); [intro H; discriminate H|].
  intros _. exists m. reflexivity.
Qed.

(** What the initialization leaves of the process besides the statics of
    the timer, whatever its ending. *)
Lemma HPTimerInitAndClean_ctor_process :
  forall fuel cpu dev probe measure ts hw ru_utime paced p,
  let p0 := mkProcess (timer p) (tsc p) (set_HpetFd (-1) (hpet_timer p)) (syscalls p) in
  syscalls (snd (HPTimerInitAndClean_ctor fuel cpu dev probe measure ts hw ru_utime paced p))
  = syscalls (InitTimerSource cpu dev probe p0)
  /\ hpet_timer
       (snd (HPTimerInitAndClean_ctor fuel cpu dev probe measure ts hw ru_utime paced p))
     = hpet_timer (InitTimerSource cpu dev probe p0).
Proof.
  intros. unfold HPTimerInitAndClean_ctor. fold p0.
  destruct (InitHPFrequency _ _ _ _) as [[| |] c1]; try (split; reflexivity).
  destruct (InitMaxMinHPTimer _) as [[|] c2]; try (split; reflexivity).
  destruct (InitSecPerJiffy _ _ _ _); split; reflexivity.
Qed.

(** X24.  What the initialization of the library establishes when it
    completes: the TSC is the source whenever [InitTSCTimer] accepts it,
    and then [/dev/hpet] has not been touched; the HPET is the source only
    with its registers mapped; with the OS clock a tick is a nanosecond
    and the shift is zero; the bounds are [INT64_MAX] and [INT64_MIN],
    divided by 120 for the HPET; and [HPJiffies] is one of [1/100],
    [1/250], [1/300] and [1/1000]. *)
Theorem initialization_establishes :
  forall fuel cpu dev probe measure ts hw ru_utime paced p p',
  HPTimerInitAndClean_ctor fuel cpu dev probe measure ts hw ru_utime paced p
  = (Finished tt, p') ->
  (fst (InitTSCTimer cpu (tsc p)) = true ->
     HPTimerSource (timer p') = TSC /\ syscalls p' = syscalls p)
  /\ (HPTimerSource (timer p') = HPET ->
      exists m, HpetAdd_ptr (hpet_timer p') = Some m)
  /\ (HPTimerSource (timer p') = OS ->
      UnixZeroShift (timer p') = 0 /\ NsecPerTic (timer p') = 1%float
      /\ TicsPerUsec (timer p') = 1000)
  /\ HPTics (HPTimer_MAX (timer p'))
     = (if TimeSource_eqb HPET (HPTimerSource (timer p'))
        then Z.quot Int64.max 120 else Int64.max)
  /\ HPTics (HPTimer_MIN (timer p'))
     = (if TimeSource_eqb HPET (HPTimerSource (timer p'))
        then Z.quot Int64.min 120 else Int64.min)
  /\ In (HPJiffies (timer p')) [HZ100Jiffies; HZ250Jiffies; HZ300Jiffies; HZ1000Jiffies].
Proof.
  intros fuel cpu dev probe measure ts hw ru_utime paced p p' Hrun.
  pose proof (HPTimerInitAndClean_ctor_process fuel cpu dev probe measure ts hw
                ru_utime paced p) as Hproc.
  rewrite Hrun in Hproc. cbn [snd] in Hproc. destruct Hproc as [Hcalls Hhpet].
  unfold HPTimerInitAndClean_ctor in Hrun.
  set (p0 := mkProcess (timer p) (tsc p) (set_HpetFd (-1) (hpet_timer p)) (syscalls p)) in *.
  set (p1 := InitTimerSource cpu dev probe p0) in *.
  destruct (InitHPFrequency fuel measure (mapped (hpet_timer p1)) (timer p1))
    as [[[]| |] c1] eqn:Efreq; try discriminate Hrun.
  rewrite InitMaxMinHPTimer_run in Hrun.
  destruct (InitSecPerJiffy _ _ _ _) as [c3| |] eqn:Ejiffy; try discriminate Hrun.
  injection Hrun as <-. cbn [timer hpet_timer syscalls].
  apply InitSecPerJiffy_loop_values in Ejiffy. destruct Ejiffy as [j [Hj ->]].
  pose proof (InitHPFrequency_keeps _ _ _ _ _ _ Efreq) as [Hsrc _].
  destruct (InitUnixZeroShift_keeps ts hw c1) as [Hsrc' [Hnpt [Htpu [_ Hshift]]]].
  cbn [HPTimerSource NsecPerTic TicsPerUsec UnixZeroShift HPJiffies HPTimer_MAX HPTimer_MIN
       set_HPJiffies set_HPTimer_MAX set_HPTimer_MIN].
  unfold HPTics. fields. rewrite !Hsrc', !Hsrc.
  repeat split.
  - destruct (InitTimerSource_prefers_TSC cpu dev probe p0 H) as [E _]. exact E.
  - destruct (InitTimerSource_prefers_TSC cpu dev probe p0 H) as [_ [E _]]. exact E.
  - intro H. apply (InitTimerSource_HPET_mapped cpu dev probe p0). exact H.
  - apply Hshift. rewrite Hsrc. exact H.
  - rewrite Hnpt. apply (InitHPFrequency_OS _ _ _ _ _ H Efreq).
  - rewrite Htpu. apply (InitHPFrequency_OS _ _ _ _ _ H Efreq).
  - exact Hj.
Qed.

Lemma initialization_establishes_witness :
  HPTimerSource
    (timer (snd (HPTimerInitAndClean_ctor 10 Examples.unknown_processor
                   Examples.unmappable_hpet Examples.ticking Examples.steady_trials
                   {| tv_sec := 1700000000; tv_nsec := 0 |} (Examples.ticking 0)
                   Examples.user_time Examples.ticking (Examples.process_at_load TSC))))
  = OS
  /\ In (HPJiffies
           (timer (snd (HPTimerInitAndClean_ctor 10 Examples.unknown_processor
                          Examples.unmappable_hpet Examples.ticking Examples.steady_trials
                          {| tv_sec := 1700000000; tv_nsec := 0 |} (Examples.ticking 0)
                          Examples.user_time Examples.ticking
                          (Examples.process_at_load TSC)))))
        [HZ100Jiffies; HZ250Jiffies; HZ300Jiffies; HZ1000Jiffies].
Proof.
  split; [vm_compute; reflexivity|].
  apply (initialization_establishes 10 Examples.unknown_processor
           Examples.unmappable_hpet Examples.ticking Examples.steady_trials
           {| tv_sec := 1700000000; tv_nsec := 0 |} (Examples.ticking 0)
           Examples.user_time Examples.ticking (Examples.process_at_load TSC)).
  vm_compute. reflexivity.
Defined.

(** X25.  A descriptor of [/dev/hpet] that cannot be mapped is closed
    twice: when the TSC is not usable and [/dev/hpet] opens but [mmap]
    fails, the initialization closes the descriptor and keeps its number
    in [HpetFd], and the clean up at the end of the process closes that
    number again.  Whatever the ending of the initialization, the system
    calls of the two are [open], [mmap], [close ( fd )], [close ( fd )]. *)
Theorem unmappable_hpet_closed_twice :
  forall fuel cpu dev probe measure ts hw ru_utime paced p,
  fst (InitTSCTimer cpu (tsc p)) = false ->
  0 <= open_result dev -> mmap_result dev = None ->
  syscalls (snd (HPTimerInitAndClean_ctor fuel cpu dev probe measure ts hw
                   ru_utime paced p))
  ++ snd (HPTimerInitAndClean_dtor
            (hpet_timer (snd (HPTimerInitAndClean_ctor fuel cpu dev probe measure ts hw
                                ru_utime paced p))))
  = syscalls p
    ++ [SysOpen (open_result dev); SysMmap (open_result dev);
        SysClose (open_result dev); SysClose (open_result dev)].
Proof.
  intros fuel cpu dev probe measure ts hw ru_utime paced p Htsc Hfd Hmap.
  destruct (HPTimerInitAndClean_ctor_process fuel cpu dev probe measure ts hw
              ru_utime paced p) as [-> ->].
  unfold InitTimerSource. cbn [tsc hpet_timer syscalls timer].
  destruct (InitTSCTimer cpu (tsc p)) as [ok tsc']. cbn [fst] in Htsc. subst ok.
  destruct (InitHPETTimer_unmappable dev (set_HpetFd (-1) (hpet_timer p)) Hfd Hmap)
    as [Hres [Hcalls Hclose]].
  destruct (InitHPETTimer dev (set_HpetFd (-1) (hpet_timer p))) as [[ok hpet'] calls].
  cbn [fst snd] in *. subst ok calls.
  cbn [syscalls hpet_timer]. rewrite Hclose, <- app_assoc. reflexivity.
Qed.

Lemma unmappable_hpet_closed_twice_witness :
  syscalls (snd (HPTimerInitAndClean_ctor 10 Examples.unknown_processor
                   Examples.unmappable_hpet Examples.ticking Examples.steady_trials
                   {| tv_sec := 1700000000; tv_nsec := 0 |} (Examples.ticking 0)
                   Examples.user_time Examples.ticking (Examples.process_at_load TSC)))
  ++ snd (HPTimerInitAndClean_dtor
            (hpet_timer
               (snd (HPTimerInitAndClean_ctor 10 Examples.unknown_processor
                       Examples.unmappable_hpet Examples.ticking Examples.steady_trials
                       {| tv_sec := 1700000000; tv_nsec := 0 |} (Examples.ticking 0)
                       Examples.user_time Examples.ticking
                       (Examples.process_at_load TSC)))))
  = syscalls (Examples.process_at_load TSC)
    ++ [SysOpen (open_result Examples.unmappable_hpet);
        SysMmap (open_result Examples.unmappable_hpet);
        SysClose (open_result Examples.unmappable_hpet);
        SysClose (open_result Examples.unmappable_hpet)].
Proof.
  apply (unmappable_hpet_closed_twice 10 Examples.unknown_processor
           Examples.unmappable_hpet Examples.ticking Examples.steady_trials
           {| tv_sec := 1700000000; tv_nsec := 0 |} (Examples.ticking 0)
           Examples.user_time Examples.ticking (Examples.process_at_load TSC)).
  - vm_compute. reflexivity.
  - vm_compute. discriminate.
  - reflexivity.
Defined.

(** X26.  The three retries of the TSC calibration are counted over the
    life of the process, not per call: [InitFreqAttempt] is never set
    back.  After a [SetClockSkew] that needed all three retries to
    succeed, the first sample set that is abandoned for a peak makes the
    next [SetClockSkew] throw [std::exception] at once, without a
    retry. *)
Theorem calibration_retries_are_shared :
  forall fuel fuel' measure measure' ts hw ts' hw' DelayTime DelayTime' p,
  PrimFloat.eqb DelayTime 0.02 || PrimFloat.eqb DelayTime 0.1
    || PrimFloat.eqb DelayTime 1 || PrimFloat.eqb DelayTime 10 = true ->
  PrimFloat.eqb DelayTime' 0.02 || PrimFloat.eqb DelayTime' 0.1
    || PrimFloat.eqb DelayTime' 1 || PrimFloat.eqb DelayTime' 10 = true ->
  HPTimerSource (timer p) = TSC -> InitFreqAttempt (timer p) = 0 ->
  (4 <= fuel)%nat -> (1 <= fuel')%nat ->
  (forall j, (j < 3)%nat -> scan (measure j) = ScanAgain) ->
  no_peak (measure 3%nat) ->
  scan (measure' 0%nat) = ScanAgain ->
  exists p',
    SetClockSkew fuel measure ts hw DelayTime p = (Finished true, p')
    /\ InitFreqAttempt (timer p') = 3
    /\ SetClockSkew fuel' measure' ts' hw' DelayTime' p' = (Thrown std_exception, p').
Proof.
  intros fuel fuel' measure measure' ts hw ts' hw' DelayTime DelayTime' p
         Hd Hd' Hsrc Ha Hfuel Hfuel' Hprev Hclean Hagain.
  unfold SetClockSkew at 1. rewrite Hd.
  rewrite (InitHPFrequency_settles 3%nat) by (try assumption; lia).
  eexists. split; [reflexivity|].
  destruct (InitUnixZeroShift_keeps ts hw
              (set_frequency (mean_of (samples (measure 3%nat)))
                 (Int64.wrap (round_to_uint64
                    (PrimFloat.div 1000%float (mean_of (samples (measure 3%nat))))))
                 (set_InitFreqAttempt (InitFreqAttempt (timer p) + Z.of_nat 3) (timer p))))
    as [Hs [_ [_ [Hatt _]]]].
  cbn [timer]. split.
  - rewrite Hatt. cbn [InitFreqAttempt set_frequency set_InitFreqAttempt]. lia.
  - unfold SetClockSkew. rewrite Hd'. cbn [timer hpet_timer tsc syscalls].
    destruct fuel' as [|fuel']; [lia|].
    rewrite InitHPFrequency_TSC_step
      by (rewrite Hs; cbn [HPTimerSource set_frequency set_InitFreqAttempt]; assumption).
    rewrite Hagain, Hatt.
    cbn [InitFreqAttempt set_frequency set_InitFreqAttempt]. rewrite Ha.
    reflexivity.
Qed.

Lemma calibration_retries_are_shared_witness :
  exists p',
    SetClockSkew 4 Examples.retry_thrice {| tv_sec := 1700000000; tv_nsec := 0 |}
                 (Examples.ticking 0) 0.02 (Examples.process_at_load TSC)
    = (Finished true, p')
    /\ InitFreqAttempt (timer p') = 3
    /\ SetClockSkew 1 (fun _ => Examples.peak_first) {| tv_sec := 1700000001; tv_nsec := 0 |}
                    (Examples.ticking 1) 10 p'
       = (Thrown std_exception, p').
Proof.
  apply (calibration_retries_are_shared 4 1 Examples.retry_thrice
           (fun _ => Examples.peak_first)
           {| tv_sec := 1700000000; tv_nsec := 0 |} (Examples.ticking 0)
           {| tv_sec := 1700000001; tv_nsec := 0 |} (Examples.ticking 1)
           0.02 10 (Examples.process_at_load TSC)).
  - vm_compute. reflexivity.
  - vm_compute. reflexivity.
  - reflexivity.
  - reflexivity.
  - lia.
  - lia.
  - intros j Hj. destruct j as [|[|[|j]]]; [vm_compute; reflexivity ..|lia].
  - unfold no_peak. cbv zeta. rewrite Forall_forall. intros d Hd.
    vm_compute in Hd.
    repeat (destruct Hd as [<-|Hd]; [vm_compute; reflexivity|]). contradiction.
  - vm_compute. reflexivity.
Defined.

(** ** The busy-waiting loop of the sleeps *)

Lemma before_run : forall c w Target th,
  before c w Target th
  = (Finished (GetTimerTics_on c (hardware w (timer_calls th)) <? Target),
     mkThread (this th) (S (timer_calls th)) (flag_accesses th)
              (trace th ++ [EvGetTimerTics (GetTimerTics_on c (hardware w (timer_calls th)))])).
Proof. intros. reflexivity. Qed.

(** The loop is left through its condition only on a reading that has
    reached the target. *)
Lemma busy_wait_target : forall c w Target fuel Counter th th',
  busy_wait w fuel (before c w Target) Counter th = (Finished TargetReached, th') ->
  exists evs v,
    trace th' = trace th ++ evs ++ [EvGetTimerTics v]
    /\ Target <= v
    /\ v = GetTimerTics_on c (hardware w (pred (timer_calls th'))).
Proof.
  induction fuel as [|fuel IH]; intros Counter [t tc fa tr] th' Hrun.
  - discriminate Hrun.
  - cbn [busy_wait] in Hrun. rewrite bind_run, before_run in Hrun.
    cbn [this timer_calls flag_accesses trace] in Hrun.
    destruct (Z.ltb_spec (GetTimerTics_on c (hardware w tc)) Target) as [Hlt|Hge].
    + destruct (0 =? Z.land (Int64.add Counter 1) 15).
      * rewrite bind_run in Hrun. run in Hrun.
        destruct (mInterrupted (landed w fa t)); [discriminate Hrun|].
        apply IH in Hrun. destruct Hrun as [evs [v [Htr [Hv Hlast]]]].
        cbn [trace] in Htr.
        exists ([EvGetTimerTics (GetTimerTics_on c (hardware w tc));
                 EvLoadInterrupted false; EvRepNop] ++ evs), v.
        split; [rewrite Htr; cbn [app]; rewrite <- !app_assoc; reflexivity|].
        split; assumption.
      * run in Hrun.
        apply IH in Hrun. destruct Hrun as [evs [v [Htr [Hv Hlast]]]].
        cbn [trace] in Htr.
        exists ([EvGetTimerTics (GetTimerTics_on c (hardware w tc)); EvRepNop] ++ evs), v.
        split; [rewrite Htr; cbn [app]; rewrite <- !app_assoc; reflexivity|].
        split; assumption.
    + unfold ret in Hrun. injection Hrun as <-. cbn [trace timer_calls pred].
      exists [], (GetTimerTics_on c (hardware w tc)).
      split; [reflexivity|]. split; [assumption|reflexivity].
Qed.

(** X27.  [SleepTo ( int64_t )] does not return early: whenever it
    reports that the target was reached, the last thing it did was a
    reading of the time source, and that reading was at or past
    [WakeHPTimer]. *)
Theorem SleepTo_not_early : forall c w fuel WakeHPTimer th th',
  SleepTo c w fuel WakeHPTimer th = (Finished TargetReached, th') ->
  exists evs v,
    trace th' = trace th ++ evs ++ [EvGetTimerTics v]
    /\ WakeHPTimer <= v
    /\ v = GetTimerTics_on c (hardware w (pred (timer_calls th'))).
Proof.
  intros c w fuel Wake [t tc fa tr] th' Hrun.
  unfold SleepTo in Hrun. run in Hrun.
  match type of Hrun with
  | context [if ?b then _ else _] => destruct b
  end.
  - rewrite bind_run in Hrun.
    match type of Hrun with
    | context [coarse_wait w ?usec ?th2] =>
        destruct (coarse_wait_run w usec th2) as [b [th3 [Hcoarse [Htr3 _]]]];
        rewrite Hcoarse in Hrun
    end.
    apply busy_wait_target in Hrun. destruct Hrun as [evs [v [Htr [Hv Hlast]]]].
    rewrite Htr3 in Htr. cbn [trace] in Htr.
    rewrite <- !app_assoc in Htr. cbn [app] in Htr.
    match type of Htr with
    | _ = tr ++ ?a :: ?b :: ?d :: coarse_block ?x ?y ++ _ =>
        exists (a :: b :: d :: coarse_block x y ++ evs), v
    end.
    split; [|split; assumption].
    rewrite Htr. cbn [app]. rewrite <- !app_assoc. reflexivity.
  - rewrite bind_run in Hrun. unfold ret at 1 in Hrun.
    apply busy_wait_target in Hrun. destruct Hrun as [evs [v [Htr [Hv Hlast]]]].
    cbn [trace] in Htr.
    rewrite <- !app_assoc in Htr. cbn [app] in Htr.
    match type of Htr with
    | _ = tr ++ ?a :: ?b :: ?d :: _ => exists (a :: b :: d :: evs), v
    end.
    split; [|split; assumption].
    rewrite Htr. reflexivity.
Qed.

Lemma SleepTo_not_early_witness :
  exists evs v,
    trace (snd (SleepTo Examples.os_statics Examples.alone 10 10000000
                  (Examples.fresh_thread Examples.zeroed)))
    = trace (Examples.fresh_thread Examples.zeroed) ++ evs ++ [EvGetTimerTics v]
    /\ 10000000 <= v
    /\ v = GetTimerTics_on Examples.os_statics
             (hardware Examples.alone
                (pred (timer_calls
                         (snd (SleepTo Examples.os_statics Examples.alone 10 10000000
                                 (Examples.fresh_thread Examples.zeroed)))))).
Proof.
  apply (SleepTo_not_early Examples.os_statics Examples.alone 10 10000000
           (Examples.fresh_thread Examples.zeroed)).
  vm_compute. reflexivity.
Defined.

(** The loop is left at the latest on the first reading that has reached
    the target; every pass makes one reading. *)
Lemma busy_wait_reaches : forall c w Target fuel Counter th k,
  (timer_calls th <= k)%nat ->
  Target <= GetTimerTics_on c (hardware w k) ->
  (k - timer_calls th < fuel)%nat ->
  exists r th',
    busy_wait w fuel (before c w Target) Counter th = (Finished r, th')
    /\ (timer_calls th' <= S k)%nat.
Proof.
  induction fuel as [|fuel IH]; intros Counter [t tc fa tr] k Hk Hreach Hfuel;
    cbn [timer_calls] in *; [lia|].
  cbn [busy_wait]. rewrite bind_run, before_run.
  cbn [this timer_calls flag_accesses trace].
  destruct (Z.ltb_spec (GetTimerTics_on c (hardware w tc)) Target) as [Hlt|Hge].
  - assert (tc <> k) as Hne by (intros ->; lia).
    destruct (0 =? Z.land (Int64.add Counter 1) 15).
    + rewrite bind_run. run.
      destruct (mInterrupted (landed w fa t)).
      * eexists. eexists. split; [reflexivity|]. cbn [timer_calls]. lia.
      * apply IH; cbn [timer_calls]; try assumption; lia.
    + run. apply IH; cbn [timer_calls]; try assumption; lia.
  - eexists. eexists. split; [reflexivity|]. cbn [timer_calls]. lia.
Qed.

(** X28.  [SleepTo ( int64_t )] ends: when some later reading of the time
    source is at or past [WakeHPTimer], the call returns, having read the
    time source no further than one reading past that one; [fuel] passes
    of the loop, one for each reading up to that one, are enough. *)
Theorem SleepTo_returns : forall c w fuel WakeHPTimer th k,
  (timer_calls th < k)%nat ->
  WakeHPTimer <= GetTimerTics_on c (hardware w k) ->
  (k - timer_calls th <= fuel)%nat ->
  exists r th',
    SleepTo c w fuel WakeHPTimer th = (Finished r, th')
    /\ (timer_calls th' <= S k)%nat.
Proof.
  intros c w fuel Wake [t tc fa tr] k Hk Hreach Hfuel. cbn [timer_calls] in *.
  unfold SleepTo. run.
  match goal with
  | |- context [if ?b then _ else _] => destruct b
  end.
  - rewrite bind_run.
    match goal with
    | |- context [coarse_wait w ?usec ?th2] =>
        destruct (coarse_wait_run w usec th2) as [b [th3 [Hcoarse [_ _]]]];
        rewrite Hcoarse;
        assert (timer_calls th3 = S tc) as Htc
          by (pose proof (f_equal (fun x => timer_calls (snd x)) Hcoarse) as E;
              cbn [snd] in E; rewrite <- E; unfold coarse_wait; run;
              destruct (Bool.eqb _ true); reflexivity)
    end.
    apply busy_wait_reaches; rewrite ?Htc; try assumption; lia.
  - rewrite bind_run. unfold ret at 1.
    apply busy_wait_reaches; cbn [timer_calls]; try assumption; lia.
Qed.

Lemma SleepTo_returns_witness :
  exists r th',
    SleepTo Examples.os_statics Examples.alone 4 10000000
            (Examples.fresh_thread Examples.zeroed) = (Finished r, th')
    /\ (timer_calls th' <= 5)%nat.
Proof.
  apply (SleepTo_returns Examples.os_statics Examples.alone 4 10000000
           (Examples.fresh_thread Examples.zeroed) 4).
  - cbn. lia.
  - vm_compute. discriminate.
  - cbn. lia.
Defined.

Lemma landed_quiet : forall w n k t,
  quiet_from w n -> (n <= k)%nat -> landed w k t = t.
Proof. intros w n k t H Hk. unfold landed. rewrite (H k Hk). reflexivity. Qed.

Lemma reads_only_no_RepNop : forall evs, Forall timer_read evs -> filter is_RepNop evs = [].
Proof.
  intros evs H. induction H as [|e evs He _ IH]; [reflexivity|].
  cbn [filter]. destruct e; try contradiction. exact IH.
Qed.

Lemma busy_wait_interrupted : forall w again,
  reads_only again ->
  forall n fuel Counter th,
  (n <= fuel)%nat -> (1 <= n)%nat ->
  0 <= Counter -> Counter + Z.of_nat n <= Int64.max ->
  (Counter + Z.of_nat n) mod 16 = 0 ->
  mInterrupted (this th) = true ->
  quiet_from w (flag_accesses th) ->
  exists evs,
    trace (snd (busy_wait w fuel again Counter th)) = trace th ++ evs
    /\ fst (busy_wait w fuel again Counter th) <> OutOfFuel
    /\ (length (filter is_RepNop evs) < n)%nat.
Proof.
  intros w again Hagain.
  induction n as [|n IH]; intros fuel Counter [t tc fa tr] Hfuel Hn Hc Hmax Hmod Hint Hquiet;
    [lia|].
  destruct fuel as [|fuel]; [lia|].
  cbn [busy_wait]. rewrite bind_run.
  destruct (Hagain (mkThread t tc fa tr)) as [reads [Hreads [Htr [Hthis [Hacc Hnofuel]]]]].
  destruct (again (mkThread t tc fa tr)) as [[go|e|] [t1 tc1 fa1 tr1]];
    cbn [fst snd this flag_accesses trace] in *; subst t1 fa1 tr1.
  - destruct go.
    + unfold Int64.add. rewrite Int64_wrap_small by (int64_consts; lia).
      change 15 with (Z.ones 4). rewrite Z.land_ones by lia. change (2 ^ 4) with 16.
      destruct (Z.eqb_spec 0 ((Counter + 1) mod 16)) as [Ez|Enz].
      * rewrite bind_run. run. rewrite (landed_quiet w fa fa t Hquiet (le_n fa)), Hint.
        unfold ret. cbn [fst snd trace].
        exists (reads ++ [EvLoadInterrupted true]).
        split; [rewrite app_assoc; reflexivity|]. split; [discriminate|].
        rewrite filter_app, reads_only_no_RepNop by assumption. cbn. lia.
      * run.
        assert (n <> 0)%nat as Hn0.
        { intros ->. apply Enz. rewrite <- Hmod. f_equal. }
        destruct (IH fuel (Counter + 1)
                     (mkThread t tc1 fa ((tr ++ reads) ++ [EvRepNop])))
          as [evs [Hevs [Hne Hcount]]]; cbn [this flag_accesses]; try assumption; try lia.
        { rewrite <- Hmod. f_equal. lia. }
        exists (reads ++ [EvRepNop] ++ evs).
        split; [rewrite Hevs; cbn [trace]; rewrite <- !app_assoc; reflexivity|].
        split; [assumption|].
        rewrite !filter_app, reads_only_no_RepNop by assumption.
        cbn [filter is_RepNop app length]. lia.
    + unfold ret. cbn [fst snd trace]. exists reads.
      split; [reflexivity|]. split; [discriminate|].
      rewrite reads_only_no_RepNop by assumption. cbn. lia.
  - exists reads. split; [reflexivity|]. split; [discriminate|].
    rewrite reads_only_no_RepNop by assumption. cbn. lia.
  - contradiction.
Qed.

(** X29.  The busy-waiting loop looks at [mInterrupted] on every
    sixteenth pass only, so an interrupt is noticed late but within
    bounds: with the flag set and no other thread clearing it, the loop is
    left after fewer than sixteen further [RepNop()], whatever the counter
    of passes was. *)
Theorem interrupted_loop_leaves_within_16_polls : forall w again fuel Counter th,
  reads_only again ->
  0 <= Counter <= Int64.max - 16 ->
  (16 <= fuel)%nat ->
  mInterrupted (this th) = true ->
  quiet_from w (flag_accesses th) ->
  exists evs,
    trace (snd (busy_wait w fuel again Counter th)) = trace th ++ evs
    /\ fst (busy_wait w fuel again Counter th) <> OutOfFuel
    /\ (length (filter is_RepNop evs) < 16)%nat.
Proof.
  intros w again fuel Counter th Hagain Hc Hfuel Hint Hquiet.
  pose proof (Z.mod_pos_bound Counter 16 ltac:(lia)) as Hr.
  destruct (busy_wait_interrupted w again Hagain (Z.to_nat (16 - Counter mod 16))
              fuel Counter th) as [evs [Htr [Hne Hcount]]]; try assumption; try lia.
  - rewrite Z2Nat.id by lia.
    replace (Counter + (16 - Counter mod 16)) with (Counter - Counter mod 16 + 1 * 16) by lia.
    rewrite Z.mod_add by lia.
    rewrite Zminus_mod_idemp_r. rewrite Z.sub_diag. reflexivity.
  - exists evs. split; [assumption|]. split; [assumption|]. lia.
Qed.

Lemma interrupted_loop_leaves_within_16_polls_witness :
  exists evs,
    trace (snd (busy_wait Examples.alone 16
                  (before Examples.os_statics Examples.alone 1000000000) 0
                  (Examples.fresh_thread (set_mInterrupted true Examples.zeroed))))
    = trace (Examples.fresh_thread (set_mInterrupted true Examples.zeroed)) ++ evs
    /\ fst (busy_wait Examples.alone 16
              (before Examples.os_statics Examples.alone 1000000000) 0
              (Examples.fresh_thread (set_mInterrupted true Examples.zeroed)))
       <> OutOfFuel
    /\ (length (filter is_RepNop evs) < 16)%nat.
Proof.
  apply (interrupted_loop_leaves_within_16_polls Examples.alone
           (before Examples.os_statics Examples.alone 1000000000) 16 0
           (Examples.fresh_thread (set_mInterrupted true Examples.zeroed))).
  - apply reads_only_bind; [apply reads_only_GetTimerTics|].
    intro t. apply reads_only_ret.
  - evaluate.
  - lia.
  - reflexivity.
  - intros k _. reflexivity.
Defined.

Lemma landed_keeps_cancelled : forall stores t,
  (forall s, In s stores -> s <> StoreCancelled false) ->
  mCancelled t = true ->
  mCancelled (fold_left (fun t s => apply_store s t) stores t) = true.
Proof.
  induction stores as [|s stores IH]; intros t Hno Hc; [assumption|].
  cbn [fold_left]. apply IH.
  - intros s' Hin. apply Hno. right. assumption.
  - destruct s as [b|[|]]; cbn [apply_store]; fields; try assumption; try reflexivity.
    exfalso. apply (Hno (StoreCancelled false)); [left|]; reflexivity.
Qed.

(** X30.  [Interrupt()] returns without entering its loop when no other
    thread stores [false] to [mCancelled] between its store and its test:
    it sets [mCancelled], finds it set, sets [mInterrupted], notifies one
    waiter of the condition variable and returns, leaving [mInterrupted]
    set. *)
Theorem Interrupt_sets_and_notifies : forall w fuel th,
  (1 <= fuel)%nat ->
  (forall s, In s (others w (S (flag_accesses th))) -> s <> StoreCancelled false) ->
  fst (Interrupt w fuel th) = Finished tt
  /\ trace (snd (Interrupt w fuel th))
     = trace th ++ [EvStoreCancelled true; EvLoadCancelled true;
                    EvStoreInterrupted true; EvNotifyOne]
  /\ mInterrupted (this (snd (Interrupt w fuel th))) = true.
Proof.
  intros w fuel [t tc fa tr] Hfuel Hno. cbn [flag_accesses] in Hno.
  destruct fuel as [|fuel]; [lia|].
  assert (mCancelled (landed w (S fa) (set_mCancelled true (landed w fa t))) = true) as Hc.
  { unfold landed at 1. apply landed_keeps_cancelled; [assumption|reflexivity]. }
  unfold Interrupt. cbn [Interrupt_loop]. unfold_run. rewrite Hc.
  cbn [Bool.eqb negb fst snd]. fields.
  split; [reflexivity|]. split; [|reflexivity].
  rewrite <- !app_assoc. reflexivity.
Qed.

Lemma Interrupt_sets_and_notifies_witness :
  fst (Interrupt Examples.alone 1 (Examples.fresh_thread Examples.zeroed)) = Finished tt
  /\ trace (snd (Interrupt Examples.alone 1 (Examples.fresh_thread Examples.zeroed)))
     = trace (Examples.fresh_thread Examples.zeroed)
       ++ [EvStoreCancelled true; EvLoadCancelled true;
           EvStoreInterrupted true; EvNotifyOne]
  /\ mInterrupted
       (this (snd (Interrupt Examples.alone 1 (Examples.fresh_thread Examples.zeroed))))
     = true.
Proof.
  apply (Interrupt_sets_and_notifies Examples.alone 1
           (Examples.fresh_thread Examples.zeroed)).
  - lia.
  - intros s Hin. destruct Hin.
Defined.
